(** * Data preprocessing notebook (02_data_preprocessing): cleaning,
      standardizing and splitting an image corpus.

    The notebook defines three passes over a directory tree,
    [clean_data], [standardize_images] and [split_data], and calls each
    of them from the cell that defines it.  The passes and the
    statements of the cells are embedded here as computations in a state-and-exception monad over a
    model of the file system, the console and numpy's global random
    generator.  The image library (PIL) and numpy's generator are
    interfaces ([Class PIL], [Class RandomState]); the size arithmetic
    of scikit-learn's [train_test_split] is written out over IEEE
    binary64 numbers. *)

From Stdlib Require Import ZArith List Bool String Ascii Lia.
From Stdlib Require Import Strings.Byte.
From Stdlib Require Import Permutation.
From Stdlib Require Import Floats.SpecFloat.
Import ListNotations.

#[local] Set Warnings "-register-all".

(** ** Python floats: IEEE 754 binary64, round to nearest even *)

Module Float64.

Definition prec : Z := 53.
Definition emax : Z := 1024.

Definition float := spec_float.

(** [float(z)] for a Python int. *)
Definition of_int (z : Z) : float := binary_normalize prec emax z 0 false.

Definition add : float -> float -> float := SFadd prec emax.
Definition sub : float -> float -> float := SFsub prec emax.
Definition mul : float -> float -> float := SFmul prec emax.
Definition div : float -> float -> float := SFdiv prec emax.
Definition leb : float -> float -> bool := SFleb.
Definition ltb : float -> float -> bool := SFltb.

(** A decimal literal [num/den], correctly rounded. *)
Definition literal (num den : Z) : float := div (of_int num) (of_int den).

(** [math.floor] and [math.ceil]; [None] on infinities and NaN, where
    Python raises. *)
Definition floor (x : float) : option Z :=
  match x with
  | S754_zero _ => Some 0%Z
  | S754_finite s m e => Some (Z.shiftl (if s then Z.neg m else Z.pos m) e)
  | _ => None
  end.

Definition ceil (x : float) : option Z :=
  match x with
  | S754_zero _ => Some 0%Z
  | S754_finite s m e =>
      Some (Z.opp (Z.shiftl (if s then Z.pos m else Z.neg m) e))
  | _ => None
  end.

End Float64.

(** ** Paths, exceptions, results *)

Definition path := list string.

(** [os.path.join(p, name)] for a plain entry name. *)
Definition join (p : path) (name : string) : path := p ++ [name].

(** The text of a path as it appears in messages. *)
Definition path_str (p : path) : string := String.concat "/" p.

Fixpoint prefixb (p q : path) : bool :=
  match p, q with
  | [], _ => true
  | x :: p', y :: q' => String.eqb x y && prefixb p' q'
  | _ :: _, [] => false
  end.

(** Neither path lies on the other's branch. *)
Definition apart (p q : path) : bool := negb (prefixb p q) && negb (prefixb q p).

Inductive exn :=
| FileNotFoundError (p : path)
| NotADirectoryError (p : path)
| IsADirectoryError (p : path)
| FileExistsError (p : path)
| SameFileError (p : path)
| IndexError
| ValueError (msg : string)
| ImageError (msg : string).

(** [str(e)] *)
Definition exn_str (e : exn) : string :=
  (match e with
  | FileNotFoundError p => "[Errno 2] No such file or directory: " ++ path_str p
  | NotADirectoryError p => "[Errno 20] Not a directory: " ++ path_str p
  | IsADirectoryError p => "[Errno 21] Is a directory: " ++ path_str p
  | FileExistsError p => "[Errno 17] File exists: " ++ path_str p
  | SameFileError p => path_str p ++ " and " ++ path_str p ++ " are the same file"
  | IndexError => "list index out of range"
  | ValueError msg => msg
  | ImageError msg => msg
  end)%string.

Inductive result (A : Type) :=
| Ok (a : A)
| Raise (e : exn).
Arguments Ok {A} a.
Arguments Raise {A} e.

(** ** The file system: a tree of directories and files *)

Definition bytes := list byte.

Inductive node :=
| File (data : bytes)
| Dir (entries : list (string * node)).

Definition entries_t := list (string * node).

Fixpoint get_entry (x : string) (es : entries_t) : option node :=
  match es with
  | [] => None
  | (y, n) :: es' => if String.eqb x y then Some n else get_entry x es'
  end.

(** Replace the entry in place, append a new one at the end, or (with
    [None]) delete it. *)
Fixpoint set_entry (x : string) (v : option node) (es : entries_t) : entries_t :=
  match es with
  | [] => match v with Some n => [(x, n)] | None => [] end
  | (y, n) :: es' =>
      if String.eqb x y
      then match v with
           | Some n' => (y, n') :: es'
           | None => set_entry x None es'
           end
      else (y, n) :: set_entry x v es'
  end.

Fixpoint lookup (p : path) (o : option node) : option node :=
  match p with
  | [] => o
  | x :: p' =>
      match o with
      | Some (Dir es) => lookup p' (get_entry x es)
      | _ => None
      end
  end.

(** The tree with the subtree at [p] replaced by [v]; unchanged when the
    parent of [p] is not a directory. *)
Fixpoint put (p : path) (v : option node) (o : option node) : option node :=
  match p with
  | [] => v
  | x :: p' =>
      match o with
      | Some (Dir es) => Some (Dir (set_entry x (put p' v (get_entry x es)) es))
      | _ => o
      end
  end.

(** The state of the file system is the entry list of the working
    directory; paths are relative to it. *)
Definition fs_get (p : path) (root : entries_t) : option node :=
  lookup p (Some (Dir root)).

Definition fs_set (p : path) (v : option node) (root : entries_t) : entries_t :=
  match put p v (Some (Dir root)) with
  | Some (Dir es) => es
  | _ => root
  end.

Definition names (es : entries_t) : list string := map fst es.

Definition is_dir (o : option node) : bool :=
  match o with Some (Dir _) => true | _ => false end.

Definition is_file (o : option node) : bool :=
  match o with Some (File _) => true | _ => false end.

(** ** External libraries *)

(** numpy's [RandomState]: a generator state, seeding, and
    [permutation(n)], which returns a shuffled [range(n)] and advances
    the generator. *)
Class RandomState := {
  rng : Type;
  seeded : Z -> rng;
  permutation : rng -> nat -> list nat * rng
}.

Class RandomStateLaws (R : RandomState) : Prop := {
  permutation_perm : forall g n, Permutation (fst (permutation g n)) (seq 0 n)
}.

(** PIL: [Image.open] on the bytes of a file, [verify], [resize], the
    [size] attribute, and the two steps of [save]: the format chosen
    from the file name, and the encoder, which returns the bytes of the
    file or raises; [save_partial] is what an encoder that raises had
    written by then. *)
Class PIL := {
  Image : Type;
  image_open : bytes -> result Image;
  image_verify : Image -> result unit;
  image_resize : Image -> nat * nat -> result Image;
  image_size : Image -> nat * nat;
  save_format : string -> result string;
  save_handler : Image -> string -> result bytes;
  save_partial : Image -> string -> bytes
}.

Class PILLaws (P : PIL) : Prop := {
  resize_size : forall img sz img',
    image_resize img sz = Ok img' -> image_size img' = sz;
  save_open_size : forall img fmt b,
    save_handler img fmt = Ok b ->
    exists img', image_open b = Ok img' /\ image_size img' = image_size img
}.

(** What [Image.open] followed by [verify] makes of the bytes of a file:
    the check of lines 92-93.  [Image.open] reads the header of the file
    and [verify] looks for damage without decoding the image data. *)
Definition verifies {P : PIL} (b : bytes) : result unit :=
  match image_open b with
  | Ok img => image_verify img
  | Raise e => Raise e
  end.



(** ** The world and the monad of the notebook's effects *)

Section Program.

Context {R : RandomState} {P : PIL}.

(** The file system, the lines printed so far, and numpy's global
    generator ([np.random]), which unseeded calls draw from. *)
Record World := mkWorld {
  fs : entries_t;
  stdout : list string;
  np_random : rng
}.

Definition with_fs (w : World) (es : entries_t) : World :=
  mkWorld es (stdout w) (np_random w).

Definition M (A : Type) : Type := World -> result A * World.

Definition ret {A} (a : A) : M A := fun w => (Ok a, w).

Definition bind {A B} (m : M A) (k : A -> M B) : M B :=
  fun w =>
    match m w with
    | (Ok a, w') => k a w'
    | (Raise e, w') => (Raise e, w')
    end.

Definition raise {A} (e : exn) : M A := fun w => (Raise e, w).

Definition lift {A} (r : result A) : M A := fun w => (r, w).

(** [try: m  except Exception as e: h e] *)
Definition try_except {A} (m : M A) (h : exn -> M A) : M A :=
  fun w =>
    match m w with
    | (Ok a, w') => (Ok a, w')
    | (Raise e, w') => h e w'
    end.

Notation "x <- c1 ;; c2" := (bind c1 (fun x => c2))
  (at level 61, c1 at next level, right associativity).
Notation "c1 ;; c2" := (bind c1 (fun _ => c2))
  (at level 61, right associativity).

(** [for x in xs: body x] *)
Fixpoint for_each {A} (xs : list A) (body : A -> M unit) : M unit :=
  match xs with
  | [] => ret tt
  | x :: xs' => body x ;; for_each xs' body
  end.

Definition print (line : string) : M unit :=
  fun w => (Ok tt, mkWorld (fs w) (stdout w ++ [line]) (np_random w)).

(** *** [os], [shutil] *)

Definition os_listdir (p : path) : M (list string) :=
  fun w =>
    match fs_get p (fs w) with
    | Some (Dir es) => (Ok (names es), w)
    | Some (File _) => (Raise (NotADirectoryError p), w)
    | None => (Raise (FileNotFoundError p), w)
    end.

Definition os_path_isdir (p : path) : M bool :=
  fun w => (Ok (is_dir (fs_get p (fs w))), w).

Definition os_path_exists (p : path) : M bool :=
  fun w => (Ok (match fs_get p (fs w) with Some _ => true | None => false end), w).

Definition os_remove (p : path) : M unit :=
  fun w =>
    match fs_get p (fs w) with
    | Some (File _) => (Ok tt, with_fs w (fs_set p None (fs w)))
    | Some (Dir _) => (Raise (IsADirectoryError p), w)
    | None => (Raise (FileNotFoundError p), w)
    end.

Definition os_mkdir (p : path) : M unit :=
  fun w =>
    match fs_get p (fs w) with
    | Some _ => (Raise (FileExistsError p), w)
    | None =>
        match fs_get (removelast p) (fs w) with
        | Some (Dir _) => (Ok tt, with_fs w (fs_set p (Some (Dir [])) (fs w)))
        | Some (File _) => (Raise (NotADirectoryError p), w)
        | None => (Raise (FileNotFoundError p), w)
        end
    end.

(** [os.makedirs(name, exist_ok=True)], by recursion on the name read
    from its last component: create the missing head first, then the
    directory itself; an error of [mkdir] is dropped when the directory
    is there. *)
Fixpoint makedirs_rev (rname : list string) : M unit :=
  match rname with
  | [] => ret tt
  | _ :: rhead =>
      let name := rev rname in
      let head := rev rhead in
      ex <- os_path_exists head ;;
      (if negb (match head with [] => true | _ => false end) && negb ex
       then try_except (makedirs_rev rhead)
              (fun e => match e with
                        | FileExistsError _ => ret tt
                        | _ => raise e
                        end)
       else ret tt) ;;
      try_except (os_mkdir name)
        (fun e => d <- os_path_isdir name ;;
                  if d then ret tt else raise e)
  end.

Definition os_makedirs (name : path) : M unit := makedirs_rev (rev name).

(** [open(p, "rb").read()] *)
Definition read_file (p : path) : M bytes :=
  fun w =>
    match fs_get p (fs w) with
    | Some (File b) => (Ok b, w)
    | Some (Dir _) => (Raise (IsADirectoryError p), w)
    | None => (Raise (FileNotFoundError p), w)
    end.

(** Whether [open(p, "wb")] would succeed. *)
Definition check_writable (p : path) : M unit :=
  fun w =>
    match fs_get p (fs w) with
    | Some (Dir _) => (Raise (IsADirectoryError p), w)
    | Some (File _) => (Ok tt, w)
    | None =>
        match fs_get (removelast p) (fs w) with
        | Some (Dir _) => (Ok tt, w)
        | Some (File _) => (Raise (NotADirectoryError p), w)
        | None => (Raise (FileNotFoundError p), w)
        end
    end.

(** [open(p, "wb").write(b)]: create or overwrite the file. *)
Definition write_file (p : path) (b : bytes) : M unit :=
  check_writable p ;;
  fun w => (Ok tt, with_fs w (fs_set p (Some (File b)) (fs w))).

Definition basename (p : path) : string := last p EmptyString.

Definition path_eqb (p q : path) : bool := prefixb p q && prefixb q p.

(** [shutil.copy(src, dst)]: into [dst] when it is a directory; the
    same file is refused; the source is read before the destination is
    opened. *)
Definition shutil_copy (src dst : path) : M unit :=
  d <- os_path_isdir dst ;;
  let dst := if d then join dst (basename src) else dst in
  if path_eqb src dst then raise (SameFileError src)
  else
    data <- read_file src ;;
    write_file dst data.

(** *** PIL *)

(** [Image.open(p)] *)
Definition Image_open (p : path) : M Image :=
  data <- read_file p ;;
  lift (image_open data).

(** [img.save(p)], as in PIL's [Image.save]: the format is looked up
    from the extension of the name (an unknown one raises before any
    file is touched); [created = not os.path.exists(p)]; the file is
    opened with [open(p, "w+b")], which creates it or empties it; the
    encoder writes into it.  When the encoder raises, the file is
    closed, removed if [created], and the exception is raised again. *)
Definition Image_save (img : Image) (p : path) : M unit :=
  fmt <- lift (save_format (basename p)) ;;
  ex <- os_path_exists p ;;
  let created := negb ex in
  write_file p [] ;;
  match save_handler img fmt with
  | Ok data => write_file p data
  | Raise e =>
      write_file p (save_partial img fmt) ;;
      (if created then os_remove p else ret tt) ;;
      raise e
  end.

(** *** scikit-learn's [train_test_split] *)

(** A [test_size] or [train_size] argument: absent, a fraction, or a
    count. *)
Inductive size_arg :=
| SizeNone
| SizeFloat (x : Float64.float)
| SizeInt (z : Z).

Definition size_out_of_range (n_samples : Z) (s : size_arg) : bool :=
  match s with
  | SizeInt z => (n_samples <=? z)%Z || (z <=? 0)%Z
  | SizeFloat x =>
      Float64.leb x (Float64.of_int 0) || Float64.leb (Float64.of_int 1) x
  | SizeNone => false
  end.

(** The count a size argument stands for: a fraction of [n_samples]
    rounded by [rnd], or the count itself. *)
Definition size_count (rnd : Float64.float -> option Z) (n_samples : Z)
    (s : size_arg) : result (option Z) :=
  match s with
  | SizeFloat x =>
      match rnd (Float64.mul x (Float64.of_int n_samples)) with
      | Some z => Ok (Some z)
      | None => Raise (ValueError "cannot convert float to integer")
      end
  | SizeInt z => Ok (Some z)
  | SizeNone => Ok None
  end.

(** [_validate_shuffle_split]: the sizes of the two parts. *)
Definition validate_shuffle_split (n_samples : Z) (test_size train_size : size_arg)
    (default_test_size : size_arg) : result (Z * Z) :=
  let test_size :=
    match test_size, train_size with
    | SizeNone, SizeNone => default_test_size
    | _, _ => test_size
    end in
  if size_out_of_range n_samples test_size
  then Raise (ValueError "test_size is out of range")
  else if size_out_of_range n_samples train_size
  then Raise (ValueError "train_size is out of range")
  else if match train_size, test_size with
          | SizeFloat a, SizeFloat b =>
              Float64.ltb (Float64.of_int 1) (Float64.add a b)
          | _, _ => false
          end
  then Raise (ValueError "The sum of test_size and train_size should be in the (0, 1) range")
  else
    match size_count Float64.ceil n_samples test_size,
          size_count Float64.floor n_samples train_size with
    | Raise e, _ => Raise e
    | _, Raise e => Raise e
    | Ok o_test, Ok o_train =>
        let sizes :=
          match o_train, o_test with
          | None, Some n_test => Some ((n_samples - n_test)%Z, n_test)
          | Some n_train, None => Some (n_train, (n_samples - n_train)%Z)
          | Some n_train, Some n_test => Some (n_train, n_test)
          | None, None => None
          end in
        match sizes with
        | None => Raise (ValueError "Invalid value for test_size")
        | Some (n_train, n_test) =>
            if (n_samples <? n_train + n_test)%Z
            then Raise (ValueError "The sum of train_size and test_size should be smaller than the number of samples")
            else if (n_train =? 0)%Z
            then Raise (ValueError "the resulting train set will be empty")
            else Ok (n_train, n_test)
        end
    end.

(** [check_random_state(seed).permutation(n)]: a fresh generator for an
    integer seed, the global one for [None]. *)
Definition rng_permutation (random_state : option Z) (n : nat) : M (list nat) :=
  match random_state with
  | Some seed => ret (fst (permutation (seeded seed) n))
  | None =>
      fun w =>
        let (p, g) := permutation (np_random w) n in
        (Ok p, mkWorld (fs w) (stdout w) g)
  end.

(** [[a[i] for i in idx]] *)
Fixpoint safe_indexing {A} (a : list A) (idx : list nat) : result (list A) :=
  match idx with
  | [] => Ok []
  | i :: idx' =>
      match nth_error a i with
      | None => Raise IndexError
      | Some x =>
          match safe_indexing a idx' with
          | Ok xs => Ok (x :: xs)
          | Raise e => Raise e
          end
      end
  end.

(** The default [test_size] of [train_test_split]. *)
Definition default_test_size : size_arg := SizeFloat (Float64.literal 25 100).

(** [train_test_split(arr, test_size=.., train_size=.., random_state=..)]
    with the default [shuffle=True, stratify=None]: the sizes are
    validated, [ShuffleSplit] validates them again as counts, draws one
    permutation, takes its first [n_test] indices as the test part and
    the next [n_train] as the train part. *)
Definition train_test_split {A} (arr : list A) (test_size train_size : size_arg)
    (random_state : option Z) : M (list A * list A) :=
  let n_samples := Z.of_nat (List.length arr) in
  sizes <- lift (validate_shuffle_split n_samples test_size train_size
                   default_test_size) ;;
  sizes' <- lift (validate_shuffle_split n_samples
                    (SizeInt (snd sizes)) (SizeInt (fst sizes))
                    (SizeFloat (Float64.literal 1 10))) ;;
  let n_train := Z.to_nat (fst sizes') in
  let n_test := Z.to_nat (snd sizes') in
  perm <- rng_permutation random_state (List.length arr) ;;
  let ind_test := firstn n_test perm in
  let ind_train := firstn n_train (skipn n_test perm) in
  train <- lift (safe_indexing arr ind_train) ;;
  test <- lift (safe_indexing arr ind_test) ;;
  ret (train, test).

(** ** The notebook *)

(** *** Data cleaning *)

(** Lines 92-93: [with Image.open(img_path) as img: img.verify()]. *)
Definition verify_image (img_path : path) : M unit :=
  img <- Image_open img_path ;;
  lift (image_verify img).

(** The message of line 95. *)
Definition removal_line (img_path : path) (e : exn) : string :=
  ("Removing corrupted or non-image file: " ++ path_str img_path
   ++ " (" ++ exn_str e ++ ")")%string.

(** The body of the inner loop of [clean_data]. *)
Definition clean_image (class_path : path) (img_name : string) : M unit :=
  let img_path := join class_path img_name in
  try_except
    (verify_image img_path)
    (fun e =>
       print (removal_line img_path e) ;;
       os_remove img_path).

(** The body of the outer loop of [clean_data]. *)
Definition clean_class (source_dir : path) (class_name : string) : M unit :=
  let class_path := join source_dir class_name in
  d <- os_path_isdir class_path ;;
  if negb d then ret tt
  else
    imgs <- os_listdir class_path ;;
    for_each imgs (clean_image class_path).

Definition clean_data (source_dir : path) : M unit :=
  classes <- os_listdir source_dir ;;
  for_each classes (clean_class source_dir).

(** *** Image standardization *)

(** Lines 150-152: open, resize, save under the same name. *)
Definition convert_image (class_path target_class_dir : path)
    (image_size : nat * nat) (img_name : string) : M unit :=
  img <- Image_open (join class_path img_name) ;;
  img <- lift (image_resize img image_size) ;;
  Image_save img (join target_class_dir img_name).

(** The message of line 154. *)
Definition error_line (img_path : path) (e : exn) : string :=
  ("Error processing " ++ path_str img_path ++ ": " ++ exn_str e)%string.

(** The body of the inner loop of [standardize_images]. *)
Definition standardize_image (class_path target_class_dir : path)
    (image_size : nat * nat) (img_name : string) : M unit :=
  try_except
    (convert_image class_path target_class_dir image_size img_name)
    (fun e => print (error_line (join class_path img_name) e)).

Definition standardize_class (source_dir target_dir : path)
    (image_size : nat * nat) (class_name : string) : M unit :=
  let class_path := join source_dir class_name in
  d <- os_path_isdir class_path ;;
  if negb d then ret tt
  else
    let target_class_dir := join target_dir class_name in
    os_makedirs target_class_dir ;;
    imgs <- os_listdir class_path ;;
    for_each imgs (standardize_image class_path target_class_dir image_size).

Definition standardize_images (source_dir target_dir : path)
    (image_size : nat * nat) : M unit :=
  classes <- os_listdir source_dir ;;
  for_each classes (standardize_class source_dir target_dir image_size).

Definition default_image_size : nat * nat := (224, 224).

(** *** Data splitting *)

(** The test fraction of the second call, as line 213 computes it. *)
Definition second_test_size (train_ratio val_ratio : Float64.float) : Float64.float :=
  Float64.div
    (Float64.sub (Float64.sub (Float64.of_int 1) train_ratio) val_ratio)
    (Float64.add val_ratio (Float64.sub (Float64.of_int 1) train_ratio)).

(** Lines 212-213: the two calls of [train_test_split]. *)
Definition split_images (images : list string) (train_ratio val_ratio : Float64.float)
    : M (list string * list string * list string) :=
  tt' <- train_test_split images SizeNone (SizeFloat train_ratio) (Some 42%Z) ;;
  let train := fst tt' in
  let temp := snd tt' in
  vt <- train_test_split temp
          (SizeFloat (second_test_size train_ratio val_ratio)) SizeNone None ;;
  ret (train, fst vt, snd vt).

(** One of the three copy loops of [split_data]. *)
Definition copy_images (class_path dest_dir : path) (class_name : string)
    (imgs : list string) : M unit :=
  for_each imgs (fun img_name =>
    os_makedirs (join dest_dir class_name) ;;
    shutil_copy (join class_path img_name)
                (join (join dest_dir class_name) img_name)).

Definition split_class (source_dir train_dir val_dir test_dir : path)
    (train_ratio val_ratio : Float64.float) (class_name : string) : M unit :=
  let class_path := join source_dir class_name in
  d <- os_path_isdir class_path ;;
  if negb d then ret tt
  else
    images <- os_listdir class_path ;;
    parts <- split_images images train_ratio val_ratio ;;
    let train := fst (fst parts) in
    let val := snd (fst parts) in
    let test := snd parts in
    copy_images class_path train_dir class_name train ;;
    copy_images class_path val_dir class_name val ;;
    copy_images class_path test_dir class_name test.

Definition split_data (source_dir train_dir val_dir test_dir : path)
    (train_ratio val_ratio : Float64.float) : M unit :=
  classes <- os_listdir source_dir ;;
  for_each classes
    (split_class source_dir train_dir val_dir test_dir train_ratio val_ratio).

Definition default_train_ratio : Float64.float := Float64.literal 7 10.
Definition default_val_ratio : Float64.float := Float64.literal 2 10.

(** *** The statements of the cells *)

Definition data_raw : path := ["data"; "raw"]%string.
Definition data_processed : path := ["data"; "processed"]%string.
Definition data_train : path := ["data"; "train"]%string.
Definition data_val : path := ["data"; "val"]%string.
Definition data_test : path := ["data"; "test"]%string.

(** Lines 99-101. *)
Definition cell_clean : M unit :=
  print "Cleaning raw data..." ;;
  clean_data data_raw ;;
  print "Data cleaning complete!".

(** Lines 157-160. *)
Definition cell_standardize : M unit :=
  print "Standardizing images..." ;;
  os_makedirs data_processed ;;
  standardize_images data_raw data_processed default_image_size ;;
  print "Image standardization complete!".

(** Lines 229-234. *)
Definition cell_split : M unit :=
  print "Splitting data into train, val, test..." ;;
  os_makedirs data_train ;;
  os_makedirs data_val ;;
  os_makedirs data_test ;;
  split_data data_processed data_train data_val data_test
    default_train_ratio default_val_ratio ;;
  print "Data splitting complete!".

(** The code cells run from the top; an exception ends the run. *)
Definition notebook : M unit :=
  cell_clean ;; cell_standardize ;; cell_split.

End Program.

Notation "x <- c1 ;; c2" := (bind c1 (fun x => c2))
  (at level 61, c1 at next level, right associativity).
Notation "c1 ;; c2" := (bind c1 (fun _ => c2))
  (at level 61, right associativity).

(** ** Vocabulary of the properties *)

(** A file, an empty directory, or nothing: what has nothing below it. *)
Definition leaf (o : option node) : bool :=
  match o with
  | Some (Dir (_ :: _)) => false
  | _ => true
  end.

(** The elements of [a] at the indices [idx] that are in range. *)
Definition pick {A} (a : list A) (idx : list nat) : list A :=
  flat_map (fun i => match nth_error a i with Some x => [x] | None => [] end) idx.


Section Vocabulary.

Context {R : RandomState} {P : PIL}.

(** [frame T w w']: every path that is not an ancestor of (or equal to)
    a path of [T] has in [w'] the content it had in [w]. *)
Definition frame (T : path -> Prop) (w w' : World) : Prop :=
  forall q, (forall p, T p -> prefixb q p = false) ->
            fs_get q (fs w') = fs_get q (fs w).

(** Directories stay directories. *)
Definition grows (w w' : World) : Prop :=
  forall q, is_dir (fs_get q (fs w)) = true -> is_dir (fs_get q (fs w')) = true.

Definition effect {A} (T : path -> Prop) (m : M A) : Prop :=
  forall w r w', m w = (r, w') -> frame T w w' /\ grows w w'.

Definition under (d : path) : path -> Prop := fun p => prefixb d p = true.

(** Below the class directory of one of the three target roots. *)
Definition under_targets (tr va te : path) (c : string) : path -> Prop :=
  fun p => under (join tr c) p \/ under (join va c) p \/ under (join te c) p.

(** What the entry [q] has become after its iteration. *)
Definition cleaned (o : option node) (q : path) (u : World) : Prop :=
  match o with
  | Some (File b) =>
      (verifies b = Ok tt /\ fs_get q (fs u) = Some (File b)) \/
      (exists e, verifies b = Raise e /\ fs_get q (fs u) = None /\
                 In (removal_line q e) (stdout u))
  | Some (Dir _) => False
  | None => fs_get q (fs u) = None
  end.

(** The generator untouched and the console only written to. *)
Definition prints_only (w w' : World) : Prop :=
  np_random w' = np_random w /\ exists lines, stdout w' = stdout w ++ lines.

Definition quiet {A} (m : M A) : Prop :=
  forall w r w', m w = (r, w') -> prints_only w w'.

(** Nothing is printed. *)
Definition silent {A} (m : M A) : Prop :=
  forall w r w', m w = (r, w') -> stdout w' = stdout w.

(** Nothing that was there is gone. *)
Definition keeps {A} (m : M A) : Prop :=
  forall w r w', m w = (r, w') ->
    forall q, fs_get q (fs w) <> None -> fs_get q (fs w') <> None.

(** Every entry of the class directories is a file that verifies. *)
Definition all_verify (src : path) (w : World) : Prop :=
  forall c d n,
    fs_get (join src c) (fs w) = Some (Dir d) -> In n (names d) ->
    exists b, fs_get (join (join src c) n) (fs w) = Some (File b) /\
              verifies b = Ok tt.

(** Where the second and the third cell write. *)
Definition derived (p : path) : Prop :=
  under data_processed p \/ under data_train p \/ under data_val p \/
  under data_test p.

End Vocabulary.

(** ** Small instances of the libraries, for running the passes *)

Module Toy.

(** A generator whose state is a counter: even states return
    [range(n)] as it is, odd states return it reversed. *)
Definition toy_permutation (g n : nat) : list nat * nat :=
  (if Nat.even g then seq 0 n else rev (seq 0 n), S g).

#[global] Instance toy_rng : RandomState := {|
  rng := nat;
  seeded := Z.to_nat;
  permutation := toy_permutation
|}.

(** Images are a width and a height, stored as two bytes. *)
Definition toy_open (b : bytes) : result (nat * nat) :=
  match b with
  | [w; h] => Ok (Byte.to_nat w, Byte.to_nat h)
  | _ => Raise (ImageError "cannot identify image file")
  end.

Definition toy_encode (img : nat * nat) (fmt : string) : result bytes :=
  match Byte.of_nat (fst img), Byte.of_nat (snd img) with
  | Some w, Some h => Ok [w; h]
  | _, _ => Raise (ImageError "encoder error")
  end.

(** An encoder that fails on the height has written the width. *)
Definition toy_partial (img : nat * nat) (fmt : string) : bytes :=
  match Byte.of_nat (fst img) with
  | Some w => [w]
  | None => []
  end.

#[global] Instance toy_pil : PIL := {|
  Image := nat * nat;
  image_open := toy_open;
  image_verify := fun _ => Ok tt;
  image_resize := fun _ sz => Ok sz;
  image_size := fun img => img;
  save_format := fun name =>
    if String.eqb name "" then Raise (ValueError "unknown file extension")
    else Ok "PNG"%string;
  save_handler := toy_encode;
  save_partial := toy_partial
|}.

Definition img_10x20 : bytes := ["010"%byte; "020"%byte].
Definition corrupt : bytes := ["255"%byte].

Definition world0 (root : entries_t) : World := mkWorld root [] 0.

(** [data/raw/fox] with a valid image, a corrupt file and another
    valid image, and a stray file next to the class directory. *)
Definition raw_tree : entries_t :=
  [("data"%string,
    Dir [("raw"%string,
          Dir [("fox"%string,
                Dir [("a.jpg"%string, File img_10x20);
                     ("b.jpg"%string, File corrupt);
                     ("c.png"%string, File img_10x20)]);
               ("README"%string, File [])])])].

Definition img_224 : bytes := ["224"%byte; "224"%byte].









(** [data/raw/fox/a.jpg], and an output [data/processed/fox/a.jpg] left
    by an earlier run. *)
Definition stale_tree : entries_t :=
  [("data"%string,
    Dir [("raw"%string,
          Dir [("fox"%string, Dir [("a.jpg"%string, File img_10x20)])]);
         ("processed"%string,
          Dir [("fox"%string, Dir [("a.jpg"%string, File img_224)])])])].

(** [n] image names, [img0], [img00], ... *)
Fixpoint img_names (n : nat) : list string :=
  match n with
  | O => []
  | S n' => img_names n' ++ [("img" ++ String.concat "" (repeat "0" n))%string]
  end.

Definition class_of (n : nat) : node :=
  Dir (map (fun name => (name, File img_224)) (img_names n)).

(** [data/processed] with one class of [n] standardized images, and
    empty [data/train], [data/val], [data/test]. *)
Definition processed_tree (classes : list (string * nat)) : entries_t :=
  [("data"%string,
    Dir [("processed"%string,
          Dir (map (fun c => (fst c, class_of (snd c))) classes));
         ("train"%string, Dir []);
         ("val"%string, Dir []);
         ("test"%string, Dir [])])].

Definition processed : path := ["data"; "processed"]%string.
Definition train : path := ["data"; "train"]%string.
Definition val : path := ["data"; "val"]%string.
Definition test : path := ["data"; "test"]%string.

Definition raw : path := ["data"; "raw"]%string.

(** The notebook's call of [split_data]. *)
Definition run_split : M unit :=
  split_data processed train val test default_train_ratio default_val_ratio.

End Toy.

(** * Properties *)

(** ** Directory entries *)

Lemma get_set_entry_same x v es : get_entry x (set_entry x v es) = v.
Proof.
  induction es as [|[y n] es IH]; simpl.
  - destruct v; simpl; [rewrite String.eqb_refl|]; reflexivity.
  - destruct (String.eqb x y) eqn:E.
    + destruct v; simpl; [rewrite E; reflexivity | exact IH].
    + simpl. rewrite E. exact IH.
Qed.

Lemma get_set_entry_other x y v es :
  x <> y -> get_entry y (set_entry x v es) = get_entry y es.
Proof.
  intros Hxy.
  assert (Hyx : String.eqb y x = false) by (apply String.eqb_neq; congruence).
  induction es as [|[z n] es IH]; simpl.
  - destruct v; simpl; [rewrite Hyx|]; reflexivity.
  - destruct (String.eqb x z) eqn:E.
    + apply String.eqb_eq in E. subst z. rewrite Hyx.
      destruct v; simpl; [rewrite Hyx; reflexivity | exact IH].
    + simpl. destruct (String.eqb y z); [reflexivity | exact IH].
Qed.

Lemma set_get_entry_id x es : set_entry x (get_entry x es) es = es.
Proof.
  induction es as [|[z n] es IH]; simpl; [reflexivity|].
  destruct (String.eqb x z) eqn:E; [reflexivity|].
  rewrite IH. reflexivity.
Qed.

(** A second update of an entry makes the first one forgotten. *)
Lemma set_entry_twice x a v es :
  set_entry x v (set_entry x (Some a) es) = set_entry x v es.
Proof.
  induction es as [|[z n] es IH]; simpl.
  - rewrite String.eqb_refl. destruct v; reflexivity.
  - destruct (String.eqb x z) eqn:E; simpl; rewrite E.
    + reflexivity.
    + rewrite IH. reflexivity.
Qed.

Lemma get_entry_In x es n : get_entry x es = Some n -> In x (names es).
Proof.
  induction es as [|[z m] es IH]; simpl; [discriminate|].
  destruct (String.eqb x z) eqn:E.
  - apply String.eqb_eq in E. auto.
  - auto.
Qed.

Lemma In_get_entry x es : In x (names es) -> exists n, get_entry x es = Some n.
Proof.
  induction es as [|[z m] es IH]; simpl; [tauto|].
  intros [H|H].
  - subst z. rewrite String.eqb_refl. eauto.
  - destruct (String.eqb x z); eauto.
Qed.

(** ** Paths *)

Lemma prefixb_refl p : prefixb p p = true.
Proof. induction p; simpl; [|rewrite String.eqb_refl]; auto. Qed.

Lemma prefixb_app p r : prefixb p (p ++ r) = true.
Proof. induction p; simpl; [|rewrite String.eqb_refl]; auto. Qed.

Lemma prefixb_spec p q : prefixb p q = true -> exists r, q = p ++ r.
Proof.
  revert q. induction p as [|x p IH]; intros q H; simpl in *.
  - exists q. reflexivity.
  - destruct q as [|y q]; [discriminate|].
    apply andb_true_iff in H. destruct H as [E H].
    apply String.eqb_eq in E. subst y.
    destruct (IH _ H) as [r ->]. exists r. reflexivity.
Qed.

Lemma prefixb_trans p q l :
  prefixb p q = true -> prefixb q l = true -> prefixb p l = true.
Proof.
  intros H1 H2. apply prefixb_spec in H1, H2.
  destruct H1 as [r1 ->]. destruct H2 as [r2 ->].
  rewrite <- app_assoc. apply prefixb_app.
Qed.

(** Two prefixes of one path lie on one branch. *)
Lemma prefixb_comparable p q l :
  prefixb p l = true -> prefixb q l = true ->
  prefixb p q = true \/ prefixb q p = true.
Proof.
  revert q l. induction p as [|x p IH]; intros q l Hp Hq; simpl; auto.
  destruct q as [|y q]; simpl; auto.
  destruct l as [|z l]; simpl in *; [discriminate|].
  apply andb_true_iff in Hp. destruct Hp as [E1 Hp].
  apply andb_true_iff in Hq. destruct Hq as [E2 Hq].
  apply String.eqb_eq in E1, E2. subst.
  rewrite String.eqb_refl. simpl. eauto.
Qed.

Lemma apart_under p q l :
  apart p q = true -> prefixb p (q ++ l) = false.
Proof.
  intros H. unfold apart in H. apply andb_true_iff in H. destruct H as [H1 H2].
  apply negb_true_iff in H1, H2.
  destruct (prefixb p (q ++ l)) eqn:E; [|reflexivity].
  destruct (prefixb_comparable _ _ _ E (prefixb_app q l)); congruence.
Qed.

Lemma apart_sym p q : apart p q = apart q p.
Proof. unfold apart. apply andb_comm. Qed.

Lemma apart_app_l p q l : apart p q = true -> apart (p ++ l) q = true.
Proof.
  intros H. pose proof H as H'. rewrite apart_sym in H'.
  pose proof (apart_under _ _ l H') as H2.
  unfold apart in *. rewrite H2. rewrite andb_true_r.
  apply andb_true_iff in H. destruct H as [H1 _].
  apply negb_true_iff in H1. apply negb_true_iff.
  destruct (prefixb (p ++ l) q) eqn:E; [|reflexivity].
  rewrite (prefixb_trans _ _ _ (prefixb_app p l) E) in H1. discriminate.
Qed.

Lemma prefixb_join_ne p x y l : x <> y -> prefixb (p ++ [x]) (p ++ y :: l) = false.
Proof.
  intros Hxy. induction p as [|z p IH]; simpl.
  - apply String.eqb_neq in Hxy. rewrite Hxy. reflexivity.
  - rewrite String.eqb_refl. exact IH.
Qed.

Lemma prefixb_longer p q : (List.length q < List.length p)%nat -> prefixb p q = false.
Proof.
  intros H. destruct (prefixb p q) eqn:E; [|reflexivity].
  apply prefixb_spec in E. destruct E as [r ->].
  rewrite length_app in H. lia.
Qed.

Lemma path_eqb_eq p q : path_eqb p q = true -> p = q.
Proof.
  unfold path_eqb. intros H. apply andb_true_iff in H. destruct H as [H1 H2].
  apply prefixb_spec in H1, H2. destruct H1 as [r ->]. destruct H2 as [r' H2].
  assert (Hl : List.length p = List.length ((p ++ r) ++ r')) by congruence.
  rewrite !length_app in Hl.
  destruct r; [symmetry; apply app_nil_r | simpl in Hl; lia].
Qed.

Lemma path_eqb_refl p : path_eqb p p = true.
Proof. unfold path_eqb. rewrite prefixb_refl. reflexivity. Qed.

(** ** Lookup after update *)

Lemma lookup_None p : lookup p None = None.
Proof. destruct p; reflexivity. Qed.

Lemma lookup_leaf r o : leaf o = true -> r <> [] -> lookup r o = None.
Proof.
  intros Hl Hr. destruct r as [|x r]; [congruence|]. simpl.
  destruct o as [[b|[|e es]]|]; try reflexivity; try discriminate.
  simpl. apply lookup_None.
Qed.

Lemma lookup_app p r o : lookup (p ++ r) o = lookup r (lookup p o).
Proof.
  revert o. induction p as [|x p IH]; intros o; simpl; [reflexivity|].
  destruct o as [[b|es]|]; auto using lookup_None.
  all: symmetry; apply lookup_None.
Qed.

Lemma lookup_put_prefix q r v o :
  r <> [] -> lookup q (put (q ++ r) v o) = put r v (lookup q o).
Proof.
  intros Hr. revert o. induction q as [|x q IH]; intros o; simpl; [reflexivity|].
  destruct o as [[b|es]|]; simpl.
  - destruct r; [congruence | reflexivity].
  - rewrite get_set_entry_same. apply IH.
  - destruct r; [congruence | reflexivity].
Qed.

Lemma lookup_put_apart p q v o :
  apart p q = true -> lookup q (put p v o) = lookup q o.
Proof.
  revert q o. induction p as [|x p IH]; intros q o H.
  - discriminate.
  - destruct q as [|y q]; [unfold apart in H; simpl in H; discriminate|].
    simpl. destruct o as [[b|es]|]; try reflexivity. simpl.
    destruct (String.eqb x y) eqn:E.
    + apply String.eqb_eq in E. subst y. rewrite get_set_entry_same.
      apply IH. unfold apart in *. simpl in H.
      rewrite String.eqb_refl in H. exact H.
    + apply String.eqb_neq in E. rewrite get_set_entry_other by exact E.
      reflexivity.
Qed.

Lemma lookup_put_same_or_id p v o :
  lookup p (put p v o) = v \/ put p v o = o.
Proof.
  revert o. induction p as [|x p IH]; intros o; simpl; auto.
  destruct o as [[b|es]|]; auto. simpl.
  rewrite get_set_entry_same.
  destruct (IH (get_entry x es)) as [H|H]; auto.
  right. rewrite H, set_get_entry_id. reflexivity.
Qed.

(** An update that replaces a leaf by a leaf is seen only from the
    path itself and its ancestors. *)
Lemma lookup_put_frame p q v o :
  prefixb q p = false -> leaf v = true -> leaf (lookup p o) = true ->
  lookup q (put p v o) = lookup q o.
Proof.
  intros Hq Hv Ho.
  destruct (prefixb p q) eqn:Hp.
  - apply prefixb_spec in Hp. destruct Hp as [r ->].
    assert (Hr : r <> []).
    { intros ->. rewrite app_nil_r, prefixb_refl in Hq. discriminate. }
    rewrite !lookup_app. rewrite (lookup_leaf _ _ Ho Hr).
    destruct (lookup_put_same_or_id p v o) as [H|H]; rewrite H.
    + apply lookup_leaf; assumption.
    + apply lookup_leaf; assumption.
  - apply lookup_put_apart. unfold apart. rewrite Hp, Hq. reflexivity.
Qed.

Lemma put_twice p a v o : put p v (put p (Some a) o) = put p v o.
Proof.
  revert o. induction p as [|x p IH]; intros o; simpl; [reflexivity|].
  destruct o as [[b|es]|]; try reflexivity.
  simpl. rewrite get_set_entry_same, IH.
  destruct (put p (Some a) (get_entry x es)) as [n1|] eqn:E.
  - rewrite set_entry_twice. reflexivity.
  - destruct (lookup_put_same_or_id p (Some a) (get_entry x es)) as [H|H];
      rewrite E in H.
    + rewrite lookup_None in H. discriminate.
    + pose proof (set_get_entry_id x es) as Hid.
      rewrite <- H in Hid. rewrite Hid. reflexivity.
Qed.

(** Removing what is not there changes nothing. *)
Lemma put_absent p o : lookup p o = None -> put p None o = o.
Proof.
  revert o. induction p as [|x p IH]; intros o H; simpl in *; [congruence|].
  destruct o as [[b|es]|]; try reflexivity.
  rewrite (IH _ H), set_get_entry_id. reflexivity.
Qed.

Lemma put_is_dir r v o : r <> [] -> is_dir (put r v o) = is_dir o.
Proof.
  intros Hr. destruct r as [|x r]; [congruence|]. simpl.
  destruct o as [[b|es]|]; reflexivity.
Qed.

Lemma fs_set_put p v root :
  p <> [] -> Some (Dir (fs_set p v root)) = put p v (Some (Dir root)).
Proof.
  intros Hp. unfold fs_set. destruct p as [|x p]; [congruence|]. reflexivity.
Qed.

Lemma fs_set_twice p a v root :
  p <> [] -> fs_set p v (fs_set p (Some a) root) = fs_set p v root.
Proof.
  intros Hp.
  assert (H : Some (Dir (fs_set p v (fs_set p (Some a) root)))
              = Some (Dir (fs_set p v root))).
  { rewrite !fs_set_put by exact Hp. apply put_twice. }
  inversion H. reflexivity.
Qed.

Lemma fs_set_absent p root : fs_get p root = None -> fs_set p None root = root.
Proof.
  intros H. unfold fs_set. rewrite put_absent by exact H. reflexivity.
Qed.

Lemma fs_get_app p r root : fs_get (p ++ r) root = lookup r (fs_get p root).
Proof. apply lookup_app. Qed.

Lemma fs_get_set_frame p q v root :
  p <> [] -> prefixb q p = false -> leaf v = true -> leaf (fs_get p root) = true ->
  fs_get q (fs_set p v root) = fs_get q root.
Proof.
  intros Hp Hq Hv Ho. unfold fs_get at 1. rewrite fs_set_put by exact Hp.
  apply lookup_put_frame; assumption.
Qed.

Lemma fs_get_set_prefix q r v root :
  r <> [] -> fs_get q (fs_set (q ++ r) v root) = put r v (fs_get q root).
Proof.
  intros Hr. unfold fs_get at 1. rewrite fs_set_put.
  - apply lookup_put_prefix. exact Hr.
  - destruct q; simpl; [exact Hr | discriminate].
Qed.

Lemma removelast_join (p : path) x : removelast (p ++ [x]) = p.
Proof. apply removelast_last. Qed.

Lemma path_snoc (p : path) : p <> [] -> exists q x, p = q ++ [x].
Proof.
  intros H. destruct (exists_last H) as [q [x ->]]. eauto.
Qed.

(** Writing at [p] below a directory puts the value there. *)
Lemma fs_get_set_same p v root :
  p <> [] -> is_dir (fs_get (removelast p) root) = true ->
  fs_get p (fs_set p v root) = v.
Proof.
  intros Hp Hd. destruct (path_snoc _ Hp) as [q [x ->]].
  rewrite removelast_join in Hd.
  rewrite fs_get_app, fs_get_set_prefix by discriminate.
  destruct (fs_get q root) as [[b|es]|]; try discriminate.
  simpl. apply get_set_entry_same.
Qed.

Lemma fs_set_parent_dir p v root :
  p <> [] ->
  is_dir (fs_get (removelast p) (fs_set p v root))
  = is_dir (fs_get (removelast p) root).
Proof.
  intros Hp. destruct (path_snoc _ Hp) as [q [x ->]].
  rewrite removelast_join.
  rewrite fs_get_set_prefix by discriminate.
  apply put_is_dir. discriminate.
Qed.

(** A leaf replaced by a leaf: other branches keep their content and
    directories stay directories. *)
Lemma fs_set_leaf_dirs p v root q :
  p <> [] -> leaf v = true -> leaf (fs_get p root) = true ->
  is_dir (fs_get p root) = false ->
  is_dir (fs_get q root) = true -> is_dir (fs_get q (fs_set p v root)) = true.
Proof.
  intros Hp Hv Ho Hnd Hq.
  destruct (prefixb q p) eqn:E.
  - apply prefixb_spec in E. destruct E as [r ->].
    destruct r as [|x r].
    + rewrite app_nil_r in Hnd. congruence.
    + rewrite fs_get_set_prefix by discriminate.
      rewrite put_is_dir by discriminate. exact Hq.
  - rewrite fs_get_set_frame; assumption.
Qed.

(** ** Reasoning about runs *)

Section Semantics.

Context {R : RandomState} {P : PIL}.

Lemma bind_inv {A B} (m : M A) (k : A -> M B) w r w' :
  bind m k w = (r, w') ->
  (exists a w1, m w = (Ok a, w1) /\ k a w1 = (r, w')) \/
  (exists e, m w = (Raise e, w') /\ r = Raise e).
Proof.
  unfold bind. destruct (m w) as [[a|e] w1]; intros H.
  - left. eauto.
  - right. inversion H; subst. eauto.
Qed.

Lemma bind_ok {A B} (m : M A) (k : A -> M B) w a w1 :
  m w = (Ok a, w1) -> bind m k w = k a w1.
Proof. unfold bind. intros ->. reflexivity. Qed.

Lemma bind_step {A B} (m : M A) (k : A -> M B) w a w1 r :
  m w = (Ok a, w1) -> k a w1 = r -> bind m k w = r.
Proof. unfold bind. intros -> H. exact H. Qed.

Lemma bind_raise {A B} (m : M A) (k : A -> M B) w e w1 :
  m w = (Raise e, w1) -> bind m k w = (Raise e, w1).
Proof. unfold bind. intros ->. reflexivity. Qed.

Lemma try_except_inv {A} (m : M A) (h : exn -> M A) w r w' :
  try_except m h w = (r, w') ->
  (exists a, m w = (Ok a, w') /\ r = Ok a) \/
  (exists e w1, m w = (Raise e, w1) /\ h e w1 = (r, w')).
Proof.
  unfold try_except. destruct (m w) as [[a|e] w1]; intros H.
  - left. inversion H; subst. eauto.
  - right. eauto.
Qed.

Lemma for_each_cons {A} (x : A) xs body :
  for_each (x :: xs) body = bind (body x) (fun _ => for_each xs body).
Proof. reflexivity. Qed.

(** An invariant of every iteration is an invariant of the loop,
    however the loop ends. *)
Lemma for_each_inv {A} (I : World -> Prop) (xs : list A) body :
  (forall x w r w', In x xs -> I w -> body x w = (r, w') -> I w') ->
  forall w r w', I w -> for_each xs body w = (r, w') -> I w'.
Proof.
  induction xs as [|x xs IH]; intros Hb w r w' HI H.
  - inversion H; subst. exact HI.
  - rewrite for_each_cons in H. apply bind_inv in H.
    destruct H as [(a & w1 & H1 & H2)|(e & H1 & _)].
    + eapply IH; [| |exact H2].
      * intros; eapply Hb; eauto. right; assumption.
      * eapply Hb; eauto. left; reflexivity.
    + eapply Hb; eauto. left; reflexivity.
Qed.

(** What the iteration for [x] establishes, and later iterations keep,
    holds after a loop that ran to its end. *)
Lemma for_each_post {A} (I Q : World -> Prop) (xs : list A) body x :
  In x xs ->
  (forall y w r w', In y xs -> I w -> body y w = (r, w') -> I w') ->
  (forall w w', I w -> body x w = (Ok tt, w') -> Q w') ->
  (forall y w w', In y xs -> I w -> Q w -> body y w = (Ok tt, w') -> Q w') ->
  forall w w', I w -> for_each xs body w = (Ok tt, w') -> Q w'.
Proof.
  intros Hin HI Hx HQ.
  assert (Hkeep : forall ys, incl ys xs -> forall w w',
             I w -> Q w -> for_each ys body w = (Ok tt, w') -> Q w').
  { induction ys as [|y ys IH]; intros Hsub w w' HIw HQw H.
    - inversion H; subst. exact HQw.
    - rewrite for_each_cons in H. apply bind_inv in H.
      destruct H as [(a & w1 & H1 & H2)|(e & H1 & Hr)]; [|discriminate].
      destruct a.
      assert (Hy : In y xs) by (apply Hsub; left; reflexivity).
      eapply IH; [| | |exact H2].
      + intros z Hz. apply Hsub. right. exact Hz.
      + eapply HI; eauto.
      + eapply HQ; eauto. }
  assert (Hgo : forall ys, incl ys xs -> In x ys -> forall w w',
             I w -> for_each ys body w = (Ok tt, w') -> Q w').
  { induction ys as [|y ys IH]; intros Hsub Hxy w w' HIw H; [destruct Hxy|].
    rewrite for_each_cons in H. apply bind_inv in H.
    destruct H as [(a & w1 & H1 & H2)|(e & H1 & Hr)]; [|discriminate].
    destruct a.
    assert (Hy : In y xs) by (apply Hsub; left; reflexivity).
    assert (Hsub' : incl ys xs) by (intros z Hz; apply Hsub; right; exact Hz).
    destruct Hxy as [->|Hxy].
    - eapply Hkeep; [exact Hsub'| | |exact H2].
      + eapply HI; eauto.
      + eapply Hx; eauto.
    - eapply IH; [exact Hsub'|exact Hxy| |exact H2].
      eapply HI; eauto. }
  intros w w' HIw H. eapply Hgo; eauto. apply incl_refl.
Qed.

Lemma for_each_app {A} (xs ys : list A) body w :
  for_each (xs ++ ys) body w =
  match for_each xs body w with
  | (Ok _, w1) => for_each ys body w1
  | (Raise e, w1) => (Raise e, w1)
  end.
Proof.
  revert w. induction xs as [|x xs IH]; intros w; simpl; [reflexivity|].
  unfold bind. destruct (body x w) as [[a|e] w1]; [apply IH | reflexivity].
Qed.

(** A loop whose iterations never raise never raises. *)
Lemma for_each_total {A} (xs : list A) body :
  (forall x w, exists w', body x w = (Ok tt, w')) ->
  forall w, exists w', for_each xs body w = (Ok tt, w').
Proof.
  intros Hb. induction xs as [|x xs IH]; intros w; simpl.
  - eexists. reflexivity.
  - destruct (Hb x w) as [w1 H1]. unfold bind. rewrite H1. apply IH.
Qed.

Lemma frame_refl T w : frame T w w.
Proof. intros q _. reflexivity. Qed.

Lemma grows_refl w : grows w w.
Proof. intros q H. exact H. Qed.

Lemma frame_trans T w1 w2 w3 : frame T w1 w2 -> frame T w2 w3 -> frame T w1 w3.
Proof. intros H1 H2 q Hq. rewrite (H2 q Hq). apply H1. exact Hq. Qed.

Lemma grows_trans w1 w2 w3 : grows w1 w2 -> grows w2 w3 -> grows w1 w3.
Proof. intros H1 H2 q Hq. apply H2, H1, Hq. Qed.

Lemma frame_weaken (T T' : path -> Prop) w w' :
  (forall p, T p -> exists p', T' p' /\ prefixb p p' = true) ->
  frame T w w' -> frame T' w w'.
Proof.
  intros Hsub H q Hq. apply H. intros p Hp.
  destruct (Hsub p Hp) as (p' & Hp' & Hpp').
  destruct (prefixb q p) eqn:E; [|reflexivity].
  rewrite <- (Hq p' Hp'). symmetry. eapply prefixb_trans; eauto.
Qed.

Lemma effect_weaken {A} (T T' : path -> Prop) (m : M A) :
  (forall p, T p -> exists p', T' p' /\ prefixb p p' = true) ->
  effect T m -> effect T' m.
Proof.
  intros Hsub H w r w' Hm. destruct (H w r w' Hm) as [Hf Hg].
  split; [eapply frame_weaken; eauto | exact Hg].
Qed.

Lemma effect_pure {A} T (m : M A) :
  (forall w r w', m w = (r, w') -> fs w' = fs w) -> effect T m.
Proof.
  intros H w r w' Hm. specialize (H w r w' Hm).
  split; intros q Hq; rewrite H; auto.
Qed.

Lemma effect_bind {A B} T (m : M A) (k : A -> M B) :
  effect T m -> (forall a, effect T (k a)) -> effect T (bind m k).
Proof.
  intros Hm Hk w r w' H. apply bind_inv in H.
  destruct H as [(a & w1 & H1 & H2)|(e & H1 & _)].
  - destruct (Hm _ _ _ H1), (Hk a _ _ _ H2).
    split; [eapply frame_trans | eapply grows_trans]; eauto.
  - eapply Hm; eauto.
Qed.

Lemma effect_try {A} T (m : M A) (h : exn -> M A) :
  effect T m -> (forall e, effect T (h e)) -> effect T (try_except m h).
Proof.
  intros Hm Hh w r w' H. apply try_except_inv in H.
  destruct H as [(a & H1 & _)|(e & w1 & H1 & H2)].
  - eapply Hm; eauto.
  - destruct (Hm _ _ _ H1), (Hh e _ _ _ H2).
    split; [eapply frame_trans | eapply grows_trans]; eauto.
Qed.

Lemma effect_for_each {A} T (xs : list A) body :
  (forall x, In x xs -> effect T (body x)) -> effect T (for_each xs body).
Proof.
  intros Hb w r w' H.
  apply (for_each_inv (fun w1 => frame T w w1 /\ grows w w1) xs body) in H; auto.
  - intros x w1 r1 w2 Hx [Hf Hg] H1. destruct (Hb x Hx _ _ _ H1).
    split; [eapply frame_trans | eapply grows_trans]; eauto.
  - split; [apply frame_refl | apply grows_refl].
Qed.

Lemma effect_ret {A} T (a : A) : effect T (ret a).
Proof. apply effect_pure. intros w r w' H. inversion H. reflexivity. Qed.

Lemma effect_raise {A} T e : effect T (@raise R A e).
Proof. apply effect_pure. intros w r w' H. inversion H. reflexivity. Qed.

Lemma effect_lift {A} T (x : result A) : effect T (lift x).
Proof. apply effect_pure. intros w r w' H. inversion H. reflexivity. Qed.

Lemma effect_print T line : effect T (print line).
Proof. apply effect_pure. intros w r w' H. inversion H. reflexivity. Qed.

Lemma effect_isdir T p : effect T (os_path_isdir p).
Proof. apply effect_pure. intros w r w' H. inversion H. reflexivity. Qed.

Lemma effect_exists T p : effect T (os_path_exists p).
Proof. apply effect_pure. intros w r w' H. inversion H. reflexivity. Qed.

Lemma os_listdir_inv p w r w' :
  os_listdir p w = (r, w') ->
  w' = w /\
  match r with
  | Ok l => exists es, fs_get p (fs w) = Some (Dir es) /\ l = names es
  | Raise _ => is_dir (fs_get p (fs w)) = false
  end.
Proof.
  unfold os_listdir. destruct (fs_get p (fs w)) as [[b|es]|];
    intros H; inversion H; subst; split; eauto.
Qed.

Lemma effect_listdir T p : effect T (os_listdir p).
Proof.
  apply effect_pure. intros w r w' H. apply os_listdir_inv in H.
  destruct H as [-> _]. reflexivity.
Qed.

Lemma read_file_inv p w r w' :
  read_file p w = (r, w') ->
  w' = w /\
  match r with
  | Ok b => fs_get p (fs w) = Some (File b)
  | Raise _ => forall b, fs_get p (fs w) <> Some (File b)
  end.
Proof.
  unfold read_file. destruct (fs_get p (fs w)) as [[b|es]|];
    intros H; inversion H; subst; split; auto; congruence.
Qed.

Lemma effect_read T p : effect T (read_file p).
Proof.
  apply effect_pure. intros w r w' H. apply read_file_inv in H.
  destruct H as [-> _]. reflexivity.
Qed.

Lemma check_writable_inv p w r w' :
  check_writable p w = (r, w') ->
  w' = w /\
  (r = Ok tt ->
   p <> [] /\ is_dir (fs_get p (fs w)) = false /\
   is_dir (fs_get (removelast p) (fs w)) = true).
Proof.
  unfold check_writable. intros H.
  destruct (fs_get p (fs w)) as [[b|es]|] eqn:E.
  - inversion H; subst. split; [reflexivity|]. intros _.
    destruct (path_snoc p) as (q & x & ->).
    { intros ->. discriminate. }
    repeat split; [destruct q; discriminate|].
    rewrite removelast_join. rewrite fs_get_app in E.
    destruct (fs_get q (fs w')) as [[b'|es']|]; simpl in *; congruence.
  - inversion H; subst. split; [reflexivity|discriminate].
  - destruct (fs_get (removelast p) (fs w)) as [[b|es]|] eqn:E';
      inversion H; subst; split; try reflexivity; try discriminate.
    intros _. repeat split.
    intros ->. discriminate.
Qed.

Lemma effect_check_writable T p : effect T (check_writable p).
Proof.
  apply effect_pure. intros w r w' H. apply check_writable_inv in H.
  destruct H as [-> _]. reflexivity.
Qed.

(** *** The operations that write *)

Lemma fs_get_root_not_file (root : entries_t) b : fs_get [] root <> Some (File b).
Proof. discriminate. Qed.

Lemma effect_fs_set p v w :
  p <> [] -> leaf v = true -> leaf (fs_get p (fs w)) = true ->
  is_dir (fs_get p (fs w)) = false ->
  frame (eq p) w (with_fs w (fs_set p v (fs w))) /\
  grows w (with_fs w (fs_set p v (fs w))).
Proof.
  intros Hp Hv Ho Hd. split.
  - intros q Hq. simpl. apply fs_get_set_frame; auto.
  - intros q Hq. simpl. apply fs_set_leaf_dirs; auto.
Qed.

Lemma os_remove_inv p w r w' :
  os_remove p w = (r, w') ->
  (r = Ok tt /\ (exists b, fs_get p (fs w) = Some (File b)) /\
   w' = with_fs w (fs_set p None (fs w))) \/
  (exists e, r = Raise e /\ w' = w /\
             forall b, fs_get p (fs w) <> Some (File b)).
Proof.
  unfold os_remove. destruct (fs_get p (fs w)) as [[b|es]|] eqn:E;
    intros H; inversion H; subst.
  - left. eauto.
  - right. eexists. repeat split. congruence.
  - right. eexists. repeat split. congruence.
Qed.

Lemma effect_remove p : effect (eq p) (os_remove p).
Proof.
  intros w r w' H. apply os_remove_inv in H.
  destruct H as [(-> & (b & Hb) & ->)|(e & -> & -> & _)].
  - apply effect_fs_set; try reflexivity.
    + intros ->. discriminate.
    + rewrite Hb. reflexivity.
    + rewrite Hb. reflexivity.
  - split; [apply frame_refl | apply grows_refl].
Qed.

Lemma os_mkdir_inv p w r w' :
  os_mkdir p w = (r, w') ->
  (r = Ok tt /\ fs_get p (fs w) = None /\
   is_dir (fs_get (removelast p) (fs w)) = true /\
   w' = with_fs w (fs_set p (Some (Dir [])) (fs w))) \/
  (exists e, r = Raise e /\ w' = w).
Proof.
  unfold os_mkdir. destruct (fs_get p (fs w)) as [n|] eqn:E.
  - intros H; inversion H; subst. right. eauto.
  - destruct (fs_get (removelast p) (fs w)) as [[b|es]|] eqn:E';
      intros H; inversion H; subst; eauto 10.
Qed.

Lemma effect_mkdir p : effect (eq p) (os_mkdir p).
Proof.
  intros w r w' H. apply os_mkdir_inv in H.
  destruct H as [(-> & Hn & Hd & ->)|(e & -> & ->)].
  - apply effect_fs_set; try reflexivity.
    + intros ->. discriminate.
    + rewrite Hn. reflexivity.
    + rewrite Hn. reflexivity.
  - split; [apply frame_refl | apply grows_refl].
Qed.

Lemma effect_prefix {A} p p' (m : M A) :
  prefixb p p' = true -> effect (eq p) m -> effect (eq p') m.
Proof.
  intros Hp. apply effect_weaken. intros q <-. eauto.
Qed.

Lemma effect_makedirs_rev rname : effect (eq (rev rname)) (makedirs_rev rname).
Proof.
  induction rname as [|x rhead IH].
  - apply effect_ret.
  - cbn [makedirs_rev].
    apply effect_bind; [apply effect_exists|]. intros ex.
    apply effect_bind.
    + destruct (_ && _).
      * apply effect_try.
        -- apply (effect_prefix (rev rhead)); [|exact IH].
           simpl. apply prefixb_app.
        -- intros []; try apply effect_raise. apply effect_ret.
      * apply effect_ret.
    + intros _. apply effect_try; [apply effect_mkdir|].
      intros e. apply effect_bind; [apply effect_isdir|].
      intros []; [apply effect_ret | apply effect_raise].
Qed.

Lemma effect_makedirs p : effect (eq p) (os_makedirs p).
Proof.
  unfold os_makedirs. rewrite <- (rev_involutive p) at 1.
  apply effect_makedirs_rev.
Qed.

(** After [os.makedirs] returns, the directory is there. *)
Lemma makedirs_is_dir p w w' :
  os_makedirs p w = (Ok tt, w') -> is_dir (fs_get p (fs w')) = true.
Proof.
  unfold os_makedirs. rewrite <- (rev_involutive p) at 2.
  destruct (rev p) as [|x rhead]; intros H.
  - inversion H; subst. reflexivity.
  - cbn [makedirs_rev] in H.
    apply bind_inv in H. destruct H as [(ex & w1 & _ & H)|(e & _ & He)];
      [|discriminate].
    apply bind_inv in H. destruct H as [(u & w2 & _ & H)|(e & _ & He)];
      [|discriminate].
    apply try_except_inv in H.
    destruct H as [(a & H & _)|(e & w3 & _ & H)].
    + apply os_mkdir_inv in H.
      destruct H as [(_ & Hn & Hd & ->)|(e & He & _)]; [|discriminate].
      simpl fs. rewrite fs_get_set_same; auto.
      simpl. destruct (rev rhead); discriminate.
    + apply bind_inv in H. destruct H as [(d & w4 & H1 & H2)|(e' & _ & He)];
        [|discriminate].
      inversion H1; subst. destruct (is_dir _) eqn:E; [|discriminate].
      inversion H2; subst. exact E.
Qed.

(** Below an existing directory, a missing directory is created. *)
Lemma makedirs_creates d c w :
  is_dir (fs_get d (fs w)) = true -> fs_get (join d c) (fs w) = None ->
  os_makedirs (join d c) w =
  (Ok tt, with_fs w (fs_set (join d c) (Some (Dir [])) (fs w))).
Proof.
  intros Hd Hn. unfold os_makedirs, join. rewrite rev_app_distr. simpl rev at 1.
  cbn [makedirs_rev app]. rewrite rev_involutive.
  replace (rev (c :: rev d)) with (d ++ [c])
    by (simpl; rewrite rev_involutive; reflexivity).
  unfold bind at 1. unfold os_path_exists at 1.
  destruct (fs_get d (fs w)) as [[b|es]|] eqn:E; try discriminate.
  rewrite andb_false_r.
  unfold bind, ret, try_except, os_mkdir.
  unfold join in Hn. rewrite Hn, removelast_join, E. reflexivity.
Qed.

(** An existing directory is left as it is. *)
Lemma makedirs_existing p w :
  is_dir (fs_get p (fs w)) = true -> os_makedirs p w = (Ok tt, w).
Proof.
  intros Hd. unfold os_makedirs.
  destruct (rev p) as [|x rhead] eqn:Erev; [reflexivity|].
  assert (Hp : p = rev rhead ++ [x]).
  { rewrite <- (rev_involutive p), Erev. reflexivity. }
  clear Erev. subst p.
  cbn [makedirs_rev]. change (rev (x :: rhead)) with (rev rhead ++ [x]).
  assert (Hhead : exists es, fs_get (rev rhead) (fs w) = Some (Dir es)).
  { rewrite fs_get_app in Hd.
    destruct (fs_get (rev rhead) (fs w)) as [[b|es]|]; try discriminate; eauto. }
  destruct Hhead as [es Hes].
  unfold bind at 1. unfold os_path_exists at 1. rewrite Hes.
  rewrite andb_false_r.
  unfold bind, ret, try_except, os_mkdir, os_path_isdir.
  destruct (fs_get (rev rhead ++ [x]) (fs w)) as [[b|es']|] eqn:E;
    try discriminate.
  cbv beta iota. rewrite E. reflexivity.
Qed.

Lemma write_file_inv p b w r w' :
  write_file p b w = (r, w') ->
  (r = Ok tt /\ p <> [] /\ is_dir (fs_get p (fs w)) = false /\
   is_dir (fs_get (removelast p) (fs w)) = true /\
   w' = with_fs w (fs_set p (Some (File b)) (fs w))) \/
  (exists e, r = Raise e /\ w' = w).
Proof.
  unfold write_file. intros H. apply bind_inv in H.
  destruct H as [([] & w1 & H1 & H2)|(e & H1 & ->)].
  - apply check_writable_inv in H1. destruct H1 as [-> H1].
    destruct (H1 eq_refl) as (Hp & Hd & Hpar).
    inversion H2; subst. left. repeat split; auto.
  - apply check_writable_inv in H1. destruct H1 as [-> _]. right. eauto.
Qed.

Lemma write_file_ok p b w :
  p <> [] -> is_dir (fs_get p (fs w)) = false ->
  is_dir (fs_get (removelast p) (fs w)) = true ->
  write_file p b w = (Ok tt, with_fs w (fs_set p (Some (File b)) (fs w))).
Proof.
  intros Hp Hd Hpar.
  assert (Hw : check_writable p w = (Ok tt, w)).
  { unfold check_writable.
    destruct (fs_get p (fs w)) as [[b'|es]|]; try reflexivity; try discriminate.
    destruct (fs_get (removelast p) (fs w)) as [[b'|es]|]; try discriminate.
    reflexivity. }
  unfold write_file. eapply bind_step; [exact Hw|]. reflexivity.
Qed.

Lemma with_fs_id w : with_fs w (fs w) = w.
Proof. destruct w. reflexivity. Qed.

(** A file that has just been written can be written again, and only
    the last content counts. *)
Lemma write_file_again p a b w :
  p <> [] -> is_dir (fs_get (removelast p) (fs w)) = true ->
  write_file p b (with_fs w (fs_set p (Some (File a)) (fs w)))
  = (Ok tt, with_fs w (fs_set p (Some (File b)) (fs w))).
Proof.
  intros Hp Hpar. rewrite write_file_ok.
  - simpl fs. rewrite fs_set_twice by exact Hp. reflexivity.
  - exact Hp.
  - simpl fs. rewrite fs_get_set_same by assumption. reflexivity.
  - simpl fs. rewrite fs_set_parent_dir by exact Hp. exact Hpar.
Qed.

Lemma not_dir_leaf o : is_dir o = false -> leaf o = true.
Proof. destruct o as [[b|[|e es]]|]; simpl; congruence. Qed.

Lemma effect_write p b : effect (eq p) (write_file p b).
Proof.
  intros w r w' H. apply write_file_inv in H.
  destruct H as [(-> & Hp & Hd & Hpar & ->)|(e & -> & ->)].
  - apply effect_fs_set; auto using not_dir_leaf.
  - split; [apply frame_refl | apply grows_refl].
Qed.

Lemma write_file_get p b w w' :
  write_file p b w = (Ok tt, w') -> fs_get p (fs w') = Some (File b).
Proof.
  intros H. apply write_file_inv in H.
  destruct H as [(_ & Hp & Hd & Hpar & ->)|(e & He & _)]; [|discriminate].
  simpl. apply fs_get_set_same; assumption.
Qed.

Lemma basename_join p x : basename (join p x) = x.
Proof. unfold basename, join. apply last_last. Qed.

Lemma effect_copy src dst : effect (under dst) (shutil_copy src dst).
Proof.
  unfold shutil_copy. apply effect_bind; [apply effect_isdir|].
  intros d.
  set (dst' := if d then join dst (basename src) else dst).
  assert (Hd : prefixb dst dst' = true).
  { unfold dst'. destruct d; [apply prefixb_app | apply prefixb_refl]. }
  destruct (path_eqb src dst'); [apply effect_raise|].
  apply effect_bind; [apply effect_read|]. intros data.
  eapply effect_weaken; [|apply effect_write].
  intros p <-. exists dst'. split; [exact Hd | apply prefixb_refl].
Qed.

(** A copy onto a path that is not a directory: the source is a file
    and the destination now holds the same bytes. *)
Lemma shutil_copy_ok src dst w w' :
  shutil_copy src dst w = (Ok tt, w') ->
  is_dir (fs_get dst (fs w)) = false ->
  exists b, fs_get src (fs w) = Some (File b) /\
            fs_get dst (fs w') = Some (File b) /\
            stdout w' = stdout w /\ np_random w' = np_random w.
Proof.
  unfold shutil_copy. intros H Hd.
  apply bind_inv in H. destruct H as [(d & w1 & H1 & H)|(e & _ & He)];
    [|discriminate].
  inversion H1; subst. rewrite Hd in H.
  destruct (path_eqb src dst); [discriminate|].
  apply bind_inv in H. destruct H as [(b & w2 & H2 & H)|(e & _ & He)];
    [|discriminate].
  apply read_file_inv in H2. destruct H2 as [-> Hb].
  exists b. split; [exact Hb|]. split; [eapply write_file_get; eauto|].
  apply write_file_inv in H.
  destruct H as [(_ & _ & _ & _ & ->)|(e & He & _)]; [|discriminate].
  split; reflexivity.
Qed.

Lemma effect_Image_open T p : effect T (Image_open p).
Proof.
  unfold Image_open. apply effect_bind; [apply effect_read|].
  intros. apply effect_lift.
Qed.

Lemma effect_Image_save img p : effect (eq p) (Image_save img p).
Proof.
  unfold Image_save. apply effect_bind; [apply effect_lift|]. intros fmt.
  apply effect_bind; [apply effect_exists|]. intros ex. cbv zeta.
  apply effect_bind; [apply effect_write|]. intros _.
  destruct (save_handler img fmt) as [data|e]; [apply effect_write|].
  apply effect_bind; [apply effect_write|]. intros _.
  apply effect_bind; [|intros _; apply effect_raise].
  destruct (negb ex); [apply effect_remove | apply effect_ret].
Qed.

End Semantics.

(** ** Rounding in binary64

    The sizes of the parts are [floor] and [ceil] of a product of two
    doubles.  The product is rounded to nearest even, so its integer
    part is that of the exact product or one more; that is enough to
    show that the two calls accept every class of at least four
    files. *)

Section Rounding.

Local Open Scope Z_scope.

Lemma digits2_pos_size p : digits2_pos p = Pos.size p.
Proof. induction p; simpl; congruence. Qed.

Lemma Zdigits2_gt a : 0 < a -> a < 2 ^ Zdigits2 a.
Proof.
  destruct a as [|p|p]; try lia. intros _. simpl Zdigits2.
  rewrite digits2_pos_size.
  pose proof (Pos.size_gt p) as H.
  rewrite <- Pos2Z.inj_pow. lia.
Qed.

Lemma Zdigits2_le a j : 0 <= j -> 0 <= a < 2 ^ j -> Zdigits2 a <= j.
Proof.
  intros Hj [Ha Hlt]. destruct a as [|p|p]; try lia.
  - simpl. lia.
  - simpl Zdigits2. rewrite digits2_pos_size.
    pose proof (Pos.size_le p) as H.
    destruct (Z_le_gt_dec (Zpos (Pos.size p)) j) as [|Hgt]; [assumption|].
    exfalso.
    assert (H2 : 2 ^ Zpos (Pos.size p) <= 2 * Zpos p).
    { rewrite <- Pos2Z.inj_pow. change (2 * Zpos p) with (Zpos p~0). lia. }
    assert (H3 : 2 ^ (j + 1) <= 2 ^ Zpos (Pos.size p)) by (apply Z.pow_le_mono_r; lia).
    rewrite Z.pow_add_r in H3 by lia. lia.
Qed.

Lemma Zdigits2_nonneg a : 0 <= Zdigits2 a.
Proof. destruct a; simpl; lia. Qed.

Lemma shr_1_m mrs : 0 <= shr_m mrs -> shr_m (shr_1 mrs) = shr_m mrs / 2.
Proof.
  destruct mrs as [m r s]. simpl. intros Hm.
  rewrite <- Z.div2_div.
  destruct m as [|[p|p|]|p]; try lia; reflexivity.
Qed.

Lemma pow2_xI p : 2 ^ Zpos p~1 = 2 * (2 ^ Zpos p * 2 ^ Zpos p).
Proof.
  rewrite Pos2Z.inj_xI.
  replace (2 * Zpos p + 1) with (Z.succ (Zpos p + Zpos p)) by lia.
  rewrite Z.pow_succ_r by lia. rewrite Z.pow_add_r by lia. reflexivity.
Qed.

Lemma pow2_xO p : 2 ^ Zpos p~0 = 2 ^ Zpos p * 2 ^ Zpos p.
Proof.
  replace (Zpos p~0) with (Zpos p + Zpos p) by lia.
  rewrite Z.pow_add_r by lia. reflexivity.
Qed.

Lemma pow2_pos k : 0 <= k -> 0 < 2 ^ k.
Proof. intros. apply Z.pow_pos_nonneg; lia. Qed.

Lemma iter_pos_shr_m p : forall mrs, 0 <= shr_m mrs ->
  shr_m (iter_pos shr_1 p mrs) = shr_m mrs / 2 ^ Zpos p.
Proof.
  induction p as [p IH|p IH|]; intros mrs Hm; simpl iter_pos.
  - pose proof (pow2_pos (Zpos p) ltac:(lia)) as Hp.
    assert (H1 : 0 <= shr_m (shr_1 mrs)) by (rewrite shr_1_m by lia; apply Z.div_pos; lia).
    assert (H2 : 0 <= shr_m (iter_pos shr_1 p (shr_1 mrs)))
      by (rewrite IH by lia; apply Z.div_pos; lia).
    rewrite IH by lia. rewrite IH by lia. rewrite shr_1_m by lia.
    rewrite !Z.div_div by lia.
    rewrite pow2_xI. f_equal; ring.
  - pose proof (pow2_pos (Zpos p) ltac:(lia)) as Hp.
    assert (H2 : 0 <= shr_m (iter_pos shr_1 p mrs))
      by (rewrite IH by lia; apply Z.div_pos; lia).
    rewrite IH by lia. rewrite IH by lia.
    rewrite !Z.div_div by lia.
    rewrite pow2_xO. f_equal; ring.
  - rewrite shr_1_m by lia. reflexivity.
Qed.

Lemma shr_spec mrs e n : 0 <= shr_m mrs ->
  shr_m (fst (shr mrs e n)) = shr_m mrs / 2 ^ Z.max 0 n /\ snd (shr mrs e n) = e + Z.max 0 n.
Proof.
  intros Hm. destruct n as [|p|p]; simpl.
  - rewrite Z.div_1_r. lia.
  - rewrite iter_pos_shr_m by lia. split; [reflexivity|lia].
  - rewrite Z.div_1_r. lia.
Qed.

Lemma Zdigits2_lower a : 0 < a -> 2 ^ (Zdigits2 a - 1) <= a.
Proof.
  destruct a as [|p|p]; try lia. intros _. simpl Zdigits2.
  rewrite digits2_pos_size.
  pose proof (Pos.size_le p) as H.
  assert (H2 : 2 ^ Zpos (Pos.size p) <= 2 * Zpos p).
  { rewrite <- Pos2Z.inj_pow. change (2 * Zpos p) with (Zpos p~0). lia. }
  replace (Zpos (Pos.size p)) with (Z.succ (Zpos (Pos.size p) - 1)) in H2 by lia.
  rewrite Z.pow_succ_r in H2 by lia. lia.
Qed.

Lemma fexp_eq x : fexp 53 1024 x = Z.max (x - 53) (-1074).
Proof. reflexivity. Qed.

Lemma round_ne_bounds m l : m <= round_nearest_even m l <= m + 1.
Proof.
  destruct l as [|[| |]]; simpl; try lia. destruct (Z.even m); lia.
Qed.

Lemma shr_nonpos mrs e n : n <= 0 -> shr mrs e n = (mrs, e).
Proof. destruct n; simpl; try reflexivity. lia. Qed.

(** No rounding happens when the mantissa fits. *)
Lemma round_aux_exact (M : positive) (e : Z) :
  Zdigits2 (Zpos M) <= 53 -> -1074 <= e <= 971 ->
  binary_round_aux 53 1024 false (Zpos M) e loc_Exact = S754_finite false M e.
Proof.
  intros Hd He. unfold binary_round_aux, shr_fexp.
  assert (Hk : fexp 53 1024 (Zdigits2 (Zpos M) + e) - e <= 0).
  { rewrite fexp_eq. lia. }
  rewrite (shr_nonpos _ _ _ Hk). simpl shr_m. simpl loc_of_shr_record.
  simpl round_nearest_even.
  rewrite (shr_nonpos _ _ _ Hk). simpl shr_m.
  replace (e <=? 1024 - 53) with true by (symmetry; apply Z.leb_le; lia).
  reflexivity.
Qed.

Lemma first_shift_facts d e e1 :
  -1074 <= e <= 0 -> d + e <= 52 ->
  e1 = e + Z.max 0 (Z.max (d + e - 53) (-1074) - e) ->
  0 <= Z.max 0 (Z.max (d + e - 53) (-1074) - e) /\
  e1 = e + Z.max 0 (Z.max (d + e - 53) (-1074) - e) /\
  e1 <= 0 /\
  (Z.max 0 (Z.max (d + e - 53) (-1074) - e) = 0 \/
   Z.max 0 (Z.max (d + e - 53) (-1074) - e) = d - 53).
Proof. intros. lia. Qed.

(** The mantissa after rounding is the truncated one or its successor. *)
Lemma round_aux_bounds (M : positive) (e : Z) :
  -1074 <= e <= 0 -> Zdigits2 (Zpos M) + e <= 52 ->
  exists (m' : positive) (e' : Z),
    binary_round_aux 53 1024 false (Zpos M) e loc_Exact = S754_finite false m' e' /\
    e <= e' <= 0 /\
    Zpos M / 2 ^ (e' - e) <= Zpos m' <= Zpos M / 2 ^ (e' - e) + 1.
Proof.
  intros He Hd. unfold binary_round_aux, shr_fexp.
  pose proof (Zdigits2_gt (Zpos M) (Pos2Z.is_pos M)) as HMlt.
  pose proof (Zdigits2_lower (Zpos M) (Pos2Z.is_pos M)) as HMge.
  assert (Hd1 : 1 <= Zdigits2 (Zpos M)) by (simpl; lia).
  remember (Zdigits2 (Zpos M)) as d eqn:Ed.
  rewrite fexp_eq.
  remember (Z.max (d + e - 53) (-1074) - e) as k1 eqn:Ek1.
  assert (H0 : 0 <= shr_m (shr_record_of_loc (Zpos M) loc_Exact))
    by (simpl; lia).
  pose proof (shr_spec (shr_record_of_loc (Zpos M) loc_Exact) e k1 H0) as H1.
  destruct (shr (shr_record_of_loc (Zpos M) loc_Exact) e k1) as [mrs1 e1].
  simpl fst in H1. simpl snd in H1. simpl shr_m in H1. clear H0.
  destruct H1 as [Hm1 He1].
  remember (Z.max 0 k1) as K1 eqn:EK1.
  assert (HK1 : 0 <= K1 /\ e1 = e + K1 /\ e1 <= 0 /\ (K1 = 0 \/ K1 = d - 53))
    by lia.
  destruct HK1 as (HK1a & HK1b & HK1c & HK1d).
  pose proof (pow2_pos K1 HK1a) as HpK1.
  remember (shr_m mrs1) as m1 eqn:Em1.
  assert (Hm1pos : 1 <= m1).
  { rewrite Hm1. apply Z.div_le_lower_bound; [lia|]. rewrite Z.mul_1_r.
    etransitivity; [|exact HMge]. apply Z.pow_le_mono_r; lia. }
  assert (Hm1lt : m1 < 2 ^ (52 - e1)).
  { rewrite Hm1. apply Z.div_lt_upper_bound; [lia|].
    rewrite <- Z.pow_add_r by lia.
    replace (K1 + (52 - e1)) with (52 - e) by lia.
    eapply Z.lt_le_trans; [exact HMlt|]. apply Z.pow_le_mono_r; lia. }
  pose proof (round_ne_bounds m1 (loc_of_shr_record mrs1)) as Hr.
  remember (round_nearest_even m1 (loc_of_shr_record mrs1)) as m1r eqn:Em1r.
  assert (Hdig : Zdigits2 m1r <= 53 - e1).
  { apply Zdigits2_le; [lia|]. split; [lia|].
    replace (53 - e1) with (Z.succ (52 - e1)) by lia.
    rewrite Z.pow_succ_r by lia. lia. }
  assert (Hm1r : 1 <= m1r) by lia.
  pose proof (Zdigits2_lower m1r ltac:(lia)) as Hrge.
  assert (Hdr1 : 1 <= Zdigits2 m1r).
  { destruct m1r; simpl; lia. }
  rewrite fexp_eq.
  remember (Zdigits2 m1r) as dr eqn:Edr.
  remember (Z.max (dr + e1 - 53) (-1074) - e1) as k2 eqn:Ek2.
  assert (H0 : 0 <= shr_m (shr_record_of_loc m1r loc_Exact)) by (simpl; lia).
  pose proof (shr_spec (shr_record_of_loc m1r loc_Exact) e1 k2 H0) as H2.
  destruct (shr (shr_record_of_loc m1r loc_Exact) e1 k2) as [mrs2 e2].
  simpl fst in H2. simpl snd in H2. simpl shr_m in H2. clear H0.
  destruct H2 as [Hm2 He2].
  remember (Z.max 0 k2) as K2 eqn:EK2.
  assert (HK2 : 0 <= K2 /\ e2 = e1 + K2 /\ e2 <= 0 /\ K2 <= dr - 1) by lia.
  destruct HK2 as (HK2a & HK2b & HK2c & HK2d).
  pose proof (pow2_pos K2 HK2a) as HpK2.
  remember (shr_m mrs2) as m2 eqn:Em2.
  assert (Hm2pos : 1 <= m2).
  { rewrite Hm2. apply Z.div_le_lower_bound; [lia|]. rewrite Z.mul_1_r.
    etransitivity; [|exact Hrge]. apply Z.pow_le_mono_r; lia. }
  assert (Hlow : Zpos M / 2 ^ (e2 - e) <= m2).
  { replace (e2 - e) with (K1 + K2) by lia.
    rewrite Z.pow_add_r by lia. rewrite <- Z.div_div by lia.
    rewrite <- Hm1, Hm2. apply Z.div_le_mono; lia. }
  assert (Hup : m2 <= Zpos M / 2 ^ (e2 - e) + 1).
  { replace (e2 - e) with (K1 + K2) by lia.
    rewrite Z.pow_add_r by lia. rewrite <- Z.div_div by lia.
    rewrite <- Hm1, Hm2.
    etransitivity; [apply (Z.div_le_mono _ (m1 + 1 * 2 ^ K2)); lia|].
    rewrite Z.div_add by lia. lia. }
  destruct m2 as [|p|p]; try lia.
  replace (e2 <=? 1024 - 53) with true by (symmetry; apply Z.leb_le; lia).
  exists p, e2. split; [reflexivity|]. split; lia.
Qed.

Lemma iter_xO m k : Zpos (Pos.iter xO m k) = Zpos m * 2 ^ Zpos k.
Proof.
  induction k as [|k IH] using Pos.peano_ind.
  - simpl. lia.
  - rewrite Pos.iter_succ. rewrite Pos2Z.inj_xO, IH.
    rewrite Pos2Z.inj_succ, Z.pow_succ_r by lia. ring.
Qed.

Lemma shl_align_spec mx ex ex' :
  snd (shl_align mx ex ex') = Z.min ex ex' /\
  Zpos (fst (shl_align mx ex ex')) = Zpos mx * 2 ^ (ex - Z.min ex ex').
Proof.
  unfold shl_align.
  change (IntDef.Z.sub ex' ex) with (ex' - ex).
  destruct (ex' - ex) as [|k|k] eqn:E; simpl fst; simpl snd.
  - replace (Z.min ex ex') with ex by lia. rewrite Z.sub_diag. simpl. lia.
  - replace (Z.min ex ex') with ex by lia. rewrite Z.sub_diag. simpl. lia.
  - replace (Z.min ex ex') with ex' by lia. rewrite iter_xO.
    replace (ex - ex') with (Zpos k) by lia. split; reflexivity.
Qed.

(** A positive integer below [2^53] converts exactly. *)
Lemma of_int_exact (n : Z) :
  0 < n < 2 ^ 53 ->
  exists (mz : positive) (ez : Z),
    Float64.of_int n = S754_finite false mz ez /\
    -52 <= ez <= 0 /\ Zpos mz = n * 2 ^ (- ez).
Proof.
  intros [Hpos Hlt]. destruct n as [|p|p]; try lia.
  unfold Float64.of_int, binary_normalize, binary_round.
  pose proof (Zdigits2_le (Zpos p) 53 ltac:(lia) ltac:(lia)) as Hd.
  assert (Hd1 : 1 <= Zdigits2 (Zpos p)) by (simpl; lia).
  pose proof (Zdigits2_gt (Zpos p) ltac:(lia)) as Hgt.
  change (Zpos (digits2_pos p)) with (Zdigits2 (Zpos p)).
  change (fexp Float64.prec Float64.emax) with (fexp 53 1024).
  rewrite fexp_eq.
  remember (Zdigits2 (Zpos p)) as d eqn:Ed.
  pose proof (shl_align_spec p 0 (Z.max (Z.add d 0 - 53) (-1074))) as Hs.
  change (IntDef.Z.add d 0) with (d + 0).
  destruct (shl_align p 0 (Z.max (d + 0 - 53) (-1074))) as [mz ez].
  simpl fst in Hs. simpl snd in Hs. destruct Hs as [Hez Hmz].
  assert (Hez' : ez = d - 53) by lia.
  exists mz, ez.
  split.
  - apply round_aux_exact; [|lia].
    apply Zdigits2_le; [lia|]. split; [lia|].
    rewrite Hmz. rewrite <- Hez.
    replace 53 with (d + (0 - ez)) by lia.
    rewrite Z.pow_add_r by lia.
    apply Z.mul_lt_mono_pos_r; [apply pow2_pos; lia | exact Hgt].
  - split; [lia|]. rewrite Hmz, <- Hez. f_equal.
Qed.

Lemma shiftl_neg_exp a e : e <= 0 -> Z.shiftl a e = a / 2 ^ (- e).
Proof.
  intros He. rewrite <- (Z.opp_involutive e) at 1.
  rewrite Z.shiftl_opp_r. apply Z.shiftr_div_pow2. lia.
Qed.

(** The product of a fraction below one and a count, rounded: its
    integer part is that of the exact product, or one more. *)
Lemma mul_of_int_bounds (Mx : positive) (ex n : Z) :
  0 < n < 2 ^ 52 -> -1000 <= ex <= 0 -> Zpos Mx < 2 ^ (- ex) ->
  exists (m' : positive) (e' : Z),
    Float64.mul (S754_finite false Mx ex) (Float64.of_int n)
    = S754_finite false m' e' /\
    e' <= 0 /\
    (Zpos Mx * n) / 2 ^ (- ex) <= Zpos m' / 2 ^ (- e')
    <= (Zpos Mx * n) / 2 ^ (- ex) + 1.
Proof.
  intros Hn Hex HMx.
  destruct (of_int_exact n) as (mz & ez & Eof & Hez & Hmz).
  { split; [lia|]. eapply Z.lt_trans; [apply Hn|].
    apply Z.pow_lt_mono_r; lia. }
  rewrite Eof. unfold Float64.mul, SFmul. simpl xorb.
  change (IntDef.Z.add ex ez) with (ex + ez).
  assert (Hprod : Zpos (Mx * mz) = Zpos Mx * n * 2 ^ (- ez)).
  { rewrite Pos2Z.inj_mul, Hmz. ring. }
  pose proof (pow2_pos (- ez) ltac:(lia)) as Hp1.
  pose proof (pow2_pos (- ex) ltac:(lia)) as Hp2.
  destruct (round_aux_bounds (Mx * mz) (ex + ez)) as (m' & e' & Er & He' & Hb).
  { lia. }
  { assert (Hd : Zdigits2 (Zpos (Mx * mz)) <= 52 - (ex + ez)); [|lia].
    apply Zdigits2_le; [lia|]. split; [lia|].
    rewrite Hprod.
    replace (52 - (ex + ez)) with (- ex + 52 + - ez) by lia.
    rewrite !Z.pow_add_r by lia.
    apply Z.mul_lt_mono_pos_r; [exact Hp1|].
    apply Z.mul_lt_mono_nonneg; lia. }
  exists m', e'. split; [exact Er|]. split; [lia|].
  pose proof (pow2_pos (- e') ltac:(lia)) as Hp3.
  pose proof (pow2_pos (e' - (ex + ez)) ltac:(lia)) as Hp4.
  assert (HA : Zpos (Mx * mz) / 2 ^ (e' - (ex + ez)) / 2 ^ (- e')
               = Zpos Mx * n / 2 ^ (- ex)).
  { rewrite Z.div_div by lia. rewrite <- Z.pow_add_r by lia.
    replace (e' - (ex + ez) + - e') with (- ex + - ez) by lia.
    rewrite Z.pow_add_r by lia. rewrite Hprod.
    apply Z.div_mul_cancel_r; lia. }
  rewrite <- HA. split.
  - apply Z.div_le_mono; lia.
  - etransitivity.
    + apply (Z.div_le_mono _ (Zpos (Mx * mz) / 2 ^ (e' - (ex + ez))
                             + 1 * 2 ^ (- e'))); lia.
    + rewrite Z.div_add by lia. lia.
Qed.

Lemma floor_mul_of_int (Mx : positive) (ex n : Z) :
  0 < n < 2 ^ 52 -> -1000 <= ex <= 0 -> Zpos Mx < 2 ^ (- ex) ->
  exists z,
    Float64.floor (Float64.mul (S754_finite false Mx ex) (Float64.of_int n))
    = Some z /\
    (Zpos Mx * n) / 2 ^ (- ex) <= z <= (Zpos Mx * n) / 2 ^ (- ex) + 1.
Proof.
  intros Hn Hex HMx.
  destruct (mul_of_int_bounds Mx ex n Hn Hex HMx) as (m' & e' & E & He' & Hb).
  rewrite E. simpl Float64.floor. eexists. split; [reflexivity|].
  rewrite shiftl_neg_exp by lia. exact Hb.
Qed.

Lemma ceil_mul_of_int (Mx : positive) (ex n : Z) :
  0 < n < 2 ^ 52 -> -1000 <= ex <= 0 -> Zpos Mx < 2 ^ (- ex) ->
  exists z,
    Float64.ceil (Float64.mul (S754_finite false Mx ex) (Float64.of_int n))
    = Some z /\
    1 <= z <= (Zpos Mx * n) / 2 ^ (- ex) + 2.
Proof.
  intros Hn Hex HMx.
  destruct (mul_of_int_bounds Mx ex n Hn Hex HMx) as (m' & e' & E & He' & Hb).
  rewrite E. simpl Float64.ceil. eexists. split; [reflexivity|].
  rewrite shiftl_neg_exp by lia.
  pose proof (pow2_pos (- e') ltac:(lia)) as Hp.
  change (Zneg m') with (- Zpos m').
  assert (H1 : - Zpos m' / 2 ^ (- e') <= -1).
  { apply Z.lt_succ_r. apply Z.div_lt_upper_bound; lia. }
  assert (H2 : - (Zpos m' / 2 ^ (- e')) - 1 <= - Zpos m' / 2 ^ (- e')).
  { apply Z.div_le_lower_bound; [lia|].
    pose proof (Z.mul_div_le (Zpos m') (2 ^ (- e')) ltac:(lia)).
    pose proof (Z.mul_succ_div_gt (Zpos m') (2 ^ (- e')) ltac:(lia)).
    lia. }
  lia.
Qed.

Lemma default_train_ratio_bits :
  default_train_ratio = S754_finite false 6305039478318694 (-53).
Proof. vm_compute. reflexivity. Qed.

Lemma second_test_size_bits :
  second_test_size default_train_ratio default_val_ratio
  = S754_finite false 7205759403792796 (-55).
Proof. vm_compute. reflexivity. Qed.

(** The first call accepts every class of at least four files: at
    least one file for training and at least two left over; the train
    count is the integer part of the exact product, or one more. *)
Lemma train_size_valid n :
  4 <= n < 2 ^ 52 ->
  exists x,
    validate_shuffle_split n SizeNone (SizeFloat default_train_ratio)
      default_test_size = Ok (x, n - x) /\
    1 <= x <= n - 2 /\
    6305039478318694 * n / 2 ^ 53 <= x <= 6305039478318694 * n / 2 ^ 53 + 1.
Proof.
  intros Hn.
  destruct (Z_lt_ge_dec n 7) as [Hsmall|Hbig].
  - assert (Hcase : n = 4 \/ n = 5 \/ n = 6) by lia.
    destruct Hcase as [E|[E|E]]; subst n;
      [exists 2 | exists 3 | exists 4];
      (split; [vm_compute; reflexivity | split; [lia | vm_compute; split; discriminate]]).
  - destruct (floor_mul_of_int 6305039478318694 (-53) n) as (z & Ez & Hz);
      [lia | lia | vm_compute; reflexivity |].
    change (- -53) with 53 in Hz.
    assert (HA1 : 1 <= 6305039478318694 * n / 2 ^ 53).
    { apply Z.div_le_lower_bound; [apply pow2_pos; lia|].
      change (2 ^ 53) with 9007199254740992. lia. }
    assert (HA2 : 6305039478318694 * n / 2 ^ 53 < n - 2).
    { apply Z.div_lt_upper_bound; [apply pow2_pos; lia|].
      change (2 ^ 53) with 9007199254740992. lia. }
    exists z. split; [|split; lia].
    unfold validate_shuffle_split, size_count, size_out_of_range.
    rewrite default_train_ratio_bits.
    replace (Float64.leb (S754_finite false 6305039478318694 (-53)) (Float64.of_int 0)
             || Float64.leb (Float64.of_int 1) (S754_finite false 6305039478318694 (-53)))
      with false by (vm_compute; reflexivity).
    cbv iota beta. rewrite Ez.
    replace (n <? z + (n - z)) with false by (symmetry; apply Z.ltb_ge; lia).
    replace (z =? 0) with false by (symmetry; apply Z.eqb_neq; lia).
    reflexivity.
Qed.

(** The second call accepts every remainder of at least two files; the
    test count is at most the integer part of the exact product plus
    two. *)
Lemma test_size_valid m :
  2 <= m < 2 ^ 52 ->
  exists t,
    validate_shuffle_split m
      (SizeFloat (second_test_size default_train_ratio default_val_ratio))
      SizeNone default_test_size = Ok (m - t, t) /\
    1 <= t <= m - 1 /\
    t <= 7205759403792796 * m / 2 ^ 55 + 2.
Proof.
  intros Hm.
  destruct (Z_lt_ge_dec m 3) as [Hsmall|Hbig].
  - assert (Hcase : m = 2) by lia. subst m.
    exists 1. split; [vm_compute; reflexivity | split; [lia | vm_compute; discriminate]].
  - destruct (ceil_mul_of_int 7205759403792796 (-55) m) as (z & Ez & Hz);
      [lia | lia | vm_compute; reflexivity |].
    change (- -55) with 55 in Hz.
    assert (HA2 : 7205759403792796 * m / 2 ^ 55 < m - 2).
    { apply Z.div_lt_upper_bound; [apply pow2_pos; lia|].
      change (2 ^ 55) with 36028797018963968. lia. }
    exists z. split; [|split; lia].
    unfold validate_shuffle_split, size_count, size_out_of_range.
    rewrite second_test_size_bits.
    replace (Float64.leb (S754_finite false 7205759403792796 (-55)) (Float64.of_int 0)
             || Float64.leb (Float64.of_int 1) (S754_finite false 7205759403792796 (-55)))
      with false by (vm_compute; reflexivity).
    cbv iota beta. rewrite Ez.
    replace (m <? m - z + z) with false by (symmetry; apply Z.ltb_ge; lia).
    replace (m - z =? 0) with false by (symmetry; apply Z.eqb_neq; lia).
    reflexivity.
Qed.

End Rounding.

(** ** The split function *)

Ltac break_match_hyp :=
  match goal with
  | H : context [match ?x with _ => _ end] |- _ => destruct x eqn:?
  end.

Ltac inv_eqs :=
  repeat match goal with
         | H : Some _ = Some _ |- _ => inversion H; clear H
         | H : Ok _ = Ok _ |- _ => inversion H; clear H
         | H : (_, _) = (_, _) |- _ => inversion H; clear H
         end; subst.

Lemma safe_indexing_pick {A} (a : list A) idx l :
  safe_indexing a idx = Ok l -> l = pick a idx /\ List.length l = List.length idx.
Proof.
  revert l. induction idx as [|i idx IH]; intros l H; simpl in *.
  - inversion H. auto.
  - destruct (nth_error a i) as [x|]; [|discriminate].
    destruct (safe_indexing a idx) as [xs|e]; [|discriminate].
    inversion H; subst. destruct (IH xs eq_refl) as [-> Hl].
    simpl. auto.
Qed.

Lemma safe_indexing_in_range {A} (a : list A) idx :
  Forall (fun i => (i < List.length a)%nat) idx ->
  exists l, safe_indexing a idx = Ok l.
Proof.
  induction 1 as [|i idx Hi _ IH]; simpl; [eauto|].
  destruct (nth_error a i) as [x|] eqn:E.
  - destruct IH as [l ->]. eauto.
  - apply nth_error_None in E. lia.
Qed.

Lemma pick_seq {A} (a : list A) : pick a (seq 0 (List.length a)) = a.
Proof.
  assert (H : forall pre, pick (pre ++ a) (seq (List.length pre) (List.length a)) = a).
  { induction a as [|x a IH]; intros pre; [reflexivity|].
    simpl. rewrite nth_error_app2 by lia. rewrite Nat.sub_diag. simpl.
    f_equal. specialize (IH (pre ++ [x])).
    rewrite <- app_assoc, length_app in IH. simpl in IH.
    rewrite Nat.add_1_r in IH. exact IH. }
  apply (H []).
Qed.

Lemma pick_app {A} (a : list A) i1 i2 : pick a (i1 ++ i2) = pick a i1 ++ pick a i2.
Proof. apply flat_map_app. Qed.

Lemma pick_perm {A} (a : list A) i1 i2 :
  Permutation i1 i2 -> Permutation (pick a i1) (pick a i2).
Proof. apply Permutation_flat_map. Qed.

Lemma In_firstn {A} n (l : list A) x : In x (firstn n l) -> In x l.
Proof.
  intros H. rewrite <- (firstn_skipn n l). apply in_or_app. left. exact H.
Qed.

Lemma In_skipn {A} n (l : list A) x : In x (skipn n l) -> In x l.
Proof.
  intros H. rewrite <- (firstn_skipn n l). apply in_or_app. right. exact H.
Qed.

Lemma validate_counts n a b d x y :
  validate_shuffle_split n (SizeInt a) (SizeInt b) d = Ok (x, y) ->
  x = b /\ y = a /\ (0 < a)%Z /\ (0 < b)%Z /\ (a + b <= n)%Z.
Proof.
  unfold validate_shuffle_split, size_out_of_range, size_count.
  intros H. repeat break_match_hyp; try discriminate.
  inversion H; subst. lia.
Qed.

Lemma validate_counts_ok n a b d :
  (0 < a)%Z -> (0 < b)%Z -> (a + b <= n)%Z ->
  validate_shuffle_split n (SizeInt a) (SizeInt b) d = Ok (b, a).
Proof.
  intros Ha Hb Hn.
  unfold validate_shuffle_split, size_out_of_range, size_count.
  replace (n <=? a)%Z with false by (symmetry; apply Z.leb_gt; lia).
  replace (a <=? 0)%Z with false by (symmetry; apply Z.leb_gt; lia).
  replace (n <=? b)%Z with false by (symmetry; apply Z.leb_gt; lia).
  replace (b <=? 0)%Z with false by (symmetry; apply Z.leb_gt; lia).
  simpl.
  replace (n <? b + a)%Z with false by (symmetry; apply Z.ltb_ge; lia).
  replace (b =? 0)%Z with false by (symmetry; apply Z.eqb_neq; lia).
  reflexivity.
Qed.

(** With one of the two sizes left out, the two parts add up to the
    number of samples. *)
Lemma validate_sum n ts trs d x y :
  validate_shuffle_split n ts trs d = Ok (x, y) ->
  ts = SizeNone \/ trs = SizeNone ->
  (x + y = n)%Z.
Proof.
  unfold validate_shuffle_split, size_out_of_range, size_count.
  intros H Hnone.
  destruct Hnone as [-> | ->]; repeat break_match_hyp; try discriminate;
    inv_eqs; lia.
Qed.

Section Split.

Context {R : RandomState} {P : PIL} {L : RandomStateLaws R}.

Lemma rng_permutation_inv rs n w r w' :
  rng_permutation rs n w = (r, w') ->
  exists perm,
    r = Ok perm /\ Permutation perm (seq 0 n) /\
    fs w' = fs w /\ stdout w' = stdout w /\
    (forall seed, rs = Some seed ->
                  w' = w /\ perm = fst (permutation (seeded seed) n)).
Proof.
  unfold rng_permutation. destruct rs as [seed|].
  - intros H. inversion H; subst. eexists. repeat split.
    + apply permutation_perm.
    + inversion H0. reflexivity.
  - destruct (permutation (np_random w) n) as [p g] eqn:E.
    intros H. inversion H; subst. exists p. repeat split; try discriminate.
    pose proof (permutation_perm (np_random w) n) as Hp.
    rewrite E in Hp. exact Hp.
Qed.

(** What a successful call returns. *)
Lemma train_test_split_inv {A} (arr : list A) ts trs rs w a b w' :
  train_test_split arr ts trs rs w = (Ok (a, b), w') ->
  exists n_train n_test perm,
    validate_shuffle_split (Z.of_nat (List.length arr)) ts trs default_test_size
      = Ok (Z.of_nat n_train, Z.of_nat n_test) /\
    (0 < n_train)%nat /\ (0 < n_test)%nat /\
    (n_train + n_test <= List.length arr)%nat /\
    Permutation perm (seq 0 (List.length arr)) /\
    a = pick arr (firstn n_train (skipn n_test perm)) /\
    b = pick arr (firstn n_test perm) /\
    List.length a = n_train /\ List.length b = n_test /\
    fs w' = fs w /\ stdout w' = stdout w /\
    (forall seed, rs = Some seed ->
       w' = w /\ perm = fst (permutation (seeded seed) (List.length arr))).
Proof.
  unfold train_test_split. intros H.
  apply bind_inv in H. destruct H as [([x y] & w1 & H1 & H)|(e & _ & He)];
    [|discriminate].
  inversion H1; subst w1. clear H1. rename H2 into Hv1.
  apply bind_inv in H. destruct H as [([x' y'] & w1 & H1 & H)|(e & _ & He)];
    [|discriminate].
  inversion H1; subst w1. clear H1. rename H2 into Hv2.
  simpl fst in *. simpl snd in *.
  apply validate_counts in Hv2. destruct Hv2 as (-> & -> & Hy & Hx & Hsum).
  apply bind_inv in H. destruct H as [(perm & w1 & H1 & H)|(e & _ & He)];
    [|discriminate].
  apply rng_permutation_inv in H1.
  destruct H1 as (perm' & Hp & Hperm & Hfs & Hout & Hseed).
  inversion Hp; subst perm'. clear Hp.
  apply bind_inv in H. destruct H as [(tr & w2 & H1 & H)|(e & _ & He)];
    [|discriminate].
  inversion H1; subst w2. clear H1. rename H2 into Htr.
  apply bind_inv in H. destruct H as [(te & w2 & H1 & H)|(e & _ & He)];
    [|discriminate].
  inversion H1; subst w2. clear H1. rename H2 into Hte.
  inversion H; subst. clear H.
  apply safe_indexing_pick in Htr, Hte.
  destruct Htr as [Htr Hltr]. destruct Hte as [Hte Hlte].
  assert (Hlen : List.length perm = List.length arr).
  { rewrite (Permutation_length Hperm). apply length_seq. }
  exists (Z.to_nat x), (Z.to_nat y), perm.
  rewrite !Z2Nat.id by lia.
  split; [exact Hv1|].
  split; [lia|]. split; [lia|]. split; [lia|].
  split; [exact Hperm|]. split; [exact Htr|]. split; [exact Hte|].
  split.
  { rewrite Hltr, length_firstn, length_skipn. lia. }
  split.
  { rewrite Hlte, length_firstn. lia. }
  auto.
Qed.

(** A failed validation is what the call raises, before any draw. *)
Lemma train_test_split_raise {A} (arr : list A) ts trs rs w e :
  validate_shuffle_split (Z.of_nat (List.length arr)) ts trs default_test_size
    = Raise e ->
  train_test_split arr ts trs rs w = (Raise e, w).
Proof.
  intros H. unfold train_test_split, bind, lift.
  rewrite H. reflexivity.
Qed.

(** Valid sizes make the call return. *)
Lemma train_test_split_ok {A} (arr : list A) ts trs rs w x y :
  validate_shuffle_split (Z.of_nat (List.length arr)) ts trs default_test_size
    = Ok (x, y) ->
  (0 < x)%Z -> (0 < y)%Z -> (x + y <= Z.of_nat (List.length arr))%Z ->
  exists a b w', train_test_split arr ts trs rs w = (Ok (a, b), w').
Proof.
  intros Hv Hx Hy Hsum. unfold train_test_split.
  unfold bind at 1. unfold lift at 1. rewrite Hv. simpl fst. simpl snd.
  unfold bind at 1. unfold lift at 1.
  rewrite validate_counts_ok by lia. simpl fst. simpl snd.
  unfold bind at 1.
  destruct (rng_permutation rs (List.length arr) w) as [r w1] eqn:E.
  apply rng_permutation_inv in E.
  destruct E as (perm & -> & Hperm & _).
  assert (Hrange : Forall (fun i => (i < List.length arr)%nat) perm).
  { apply Forall_forall. intros i Hi.
    apply (Permutation_in _ Hperm) in Hi. apply in_seq in Hi. lia. }
  assert (Hsub : forall l, incl l perm ->
                   exists r, safe_indexing arr l = Ok r).
  { intros l Hl. apply safe_indexing_in_range.
    apply Forall_forall. intros i Hi.
    rewrite Forall_forall in Hrange. apply Hrange, Hl, Hi. }
  destruct (Hsub (firstn (Z.to_nat x) (skipn (Z.to_nat y) perm))) as [tr Htr].
  { intros i Hi. apply In_firstn in Hi. apply In_skipn in Hi. exact Hi. }
  destruct (Hsub (firstn (Z.to_nat y) perm)) as [te Hte].
  { intros i Hi. apply In_firstn in Hi. exact Hi. }
  unfold bind, lift, ret. rewrite Htr, Hte. eauto.
Qed.

(** The two parts together are the input, rearranged. *)
Lemma train_test_split_perm {A} (arr : list A) ts trs rs w a b w' :
  train_test_split arr ts trs rs w = (Ok (a, b), w') ->
  ts = SizeNone \/ trs = SizeNone ->
  Permutation (a ++ b) arr.
Proof.
  intros H Hnone. apply train_test_split_inv in H.
  destruct H as (n_train & n_test & perm & Hv & Htr & Hte & Hsum & Hperm
                 & -> & -> & _).
  apply validate_sum in Hv; [|exact Hnone].
  assert (Hlen : List.length perm = List.length arr).
  { rewrite (Permutation_length Hperm). apply length_seq. }
  assert (Hall : firstn n_train (skipn n_test perm) = skipn n_test perm).
  { apply firstn_all2. rewrite length_skipn. lia. }
  rewrite Hall. rewrite <- pick_app.
  transitivity (pick arr (seq 0 (List.length arr)));
    [|rewrite pick_seq; reflexivity].
  apply pick_perm.
  etransitivity; [apply Permutation_app_comm|].
  rewrite firstn_skipn. exact Hperm.
Qed.

End Split.

Lemma NoDup_app_disjoint {A} (l1 l2 : list A) :
  NoDup (l1 ++ l2) -> forall x, In x l1 -> ~ In x l2.
Proof.
  induction l1 as [|a l1 IH]; simpl; intros H x Hx; [tauto|].
  inversion H; subst. destruct Hx as [->|Hx].
  - intros Hx2. apply H2. apply in_or_app. right. exact Hx2.
  - apply IH; assumption.
Qed.

Section SplitImages.

Context {R : RandomState} {P : PIL}.

Lemma split_images_inv images tr vr w train val test w' :
  split_images images tr vr w = (Ok (train, val, test), w') ->
  exists temp w1,
    train_test_split images SizeNone (SizeFloat tr) (Some 42%Z) w
      = (Ok (train, temp), w1) /\
    train_test_split temp (SizeFloat (second_test_size tr vr)) SizeNone None w1
      = (Ok (val, test), w').
Proof.
  unfold split_images. intros H.
  apply bind_inv in H. destruct H as [([tr0 temp] & w1 & H1 & H)|(e & _ & He)];
    [|discriminate].
  apply bind_inv in H. destruct H as [([v0 t0] & w2 & H2 & H)|(e & _ & He)];
    [|discriminate].
  inversion H; subst. simpl in *. exists temp, w1. auto.
Qed.

(** A seeded call does not read the world. *)
Lemma train_test_split_seeded {A} (arr : list A) ts trs seed w1 w2 :
  fst (train_test_split arr ts trs (Some seed) w1) =
  fst (train_test_split arr ts trs (Some seed) w2).
Proof.
  unfold train_test_split, bind, lift, rng_permutation, ret.
  repeat match goal with
         | |- context [match ?x with _ => _ end] => destruct x
         end; reflexivity.
Qed.

Lemma split_images_train_seeded images tr vr w1 w2 t1 v1 e1 w1' t2 v2 e2 w2' :
  split_images images tr vr w1 = (Ok (t1, v1, e1), w1') ->
  split_images images tr vr w2 = (Ok (t2, v2, e2), w2') ->
  t1 = t2.
Proof.
  intros H1 H2.
  apply split_images_inv in H1, H2.
  destruct H1 as (temp1 & u1 & H1 & _). destruct H2 as (temp2 & u2 & H2 & _).
  pose proof (train_test_split_seeded images SizeNone (SizeFloat tr) 42%Z w1 w2) as E.
  rewrite H1, H2 in E. simpl in E. congruence.
Qed.

Context {L : RandomStateLaws R}.

Lemma split_images_perm images tr vr w train val test w' :
  split_images images tr vr w = (Ok (train, val, test), w') ->
  Permutation (train ++ val ++ test) images.
Proof.
  intros H. apply split_images_inv in H.
  destruct H as (temp & w1 & H1 & H2).
  apply train_test_split_perm in H1; [|auto].
  apply train_test_split_perm in H2; [|auto].
  rewrite <- H1. apply Permutation_app_head. exact H2.
Qed.

(** The sizes of the three parts are those of the two validations. *)
Lemma split_images_sizes images tr vr w train val test w' :
  split_images images tr vr w = (Ok (train, val, test), w') ->
  exists n_temp,
    validate_shuffle_split (Z.of_nat (List.length images)) SizeNone (SizeFloat tr)
      default_test_size
      = Ok (Z.of_nat (List.length train), Z.of_nat n_temp) /\
    validate_shuffle_split (Z.of_nat n_temp)
      (SizeFloat (second_test_size tr vr)) SizeNone default_test_size
      = Ok (Z.of_nat (List.length val), Z.of_nat (List.length test)).
Proof.
  intros H. apply split_images_inv in H.
  destruct H as (temp & w1 & H1 & H2).
  apply train_test_split_inv in H1, H2.
  destruct H1 as (n1 & m1 & p1 & Hv1 & _ & _ & _ & _ & _ & _ & Hl1 & Hm1 & _).
  destruct H2 as (n2 & m2 & p2 & Hv2 & _ & _ & _ & _ & _ & _ & Hl2 & Hm2 & _).
  exists (List.length temp). subst n1 m1 n2 m2. auto.
Qed.

(** Fewer than four names: one of the two calls raises, and nothing
    has changed. *)
Lemma split_images_small images w :
  (List.length images < 4)%nat ->
  exists msg,
    split_images images default_train_ratio default_val_ratio w
    = (Raise (ValueError msg), w).
Proof.
  intros Hlen. unfold split_images.
  destruct (Nat.lt_ge_cases (List.length images) 2) as [Hsmall|Hbig].
  - assert (Hv : exists msg,
               validate_shuffle_split (Z.of_nat (List.length images)) SizeNone
                 (SizeFloat default_train_ratio) default_test_size
               = Raise (ValueError msg)).
    { destruct images as [|a [|b l]]; [| |simpl in Hsmall; lia];
        eexists; vm_compute; reflexivity. }
    destruct Hv as [msg Hv]. exists msg.
    unfold bind at 1. rewrite (train_test_split_raise _ _ _ _ _ _ Hv).
    reflexivity.
  - assert (Hv : validate_shuffle_split (Z.of_nat (List.length images)) SizeNone
                   (SizeFloat default_train_ratio) default_test_size
                 = Ok (Z.of_nat (List.length images) - 1, 1)%Z).
    { destruct images as [|a [|b [|c [|d l]]]]; simpl in Hlen, Hbig; try lia;
        vm_compute; reflexivity. }
    destruct (train_test_split_ok images SizeNone (SizeFloat default_train_ratio)
                (Some 42%Z) w _ _ Hv) as (tr & temp & w1 & H1); try lia.
    pose proof H1 as H1'. apply train_test_split_inv in H1'.
    destruct H1' as (n1 & m1 & p1 & Hv1 & _ & _ & _ & _ & _ & _ & _ & Hm1 & _
                     & _ & Hseed).
    destruct (Hseed _ eq_refl) as [-> _].
    rewrite Hv in Hv1. inversion Hv1.
    assert (Htemp : List.length temp = 1%nat) by lia.
    unfold bind at 1. rewrite H1. simpl fst. simpl snd.
    assert (Hv2 : exists msg,
               validate_shuffle_split (Z.of_nat (List.length temp))
                 (SizeFloat (second_test_size default_train_ratio default_val_ratio))
                 SizeNone default_test_size
               = Raise (ValueError msg)).
    { rewrite Htemp. eexists. vm_compute. reflexivity. }
    destruct Hv2 as [msg Hv2]. exists msg.
    unfold bind at 1. fold (second_test_size default_train_ratio default_val_ratio).
    rewrite (train_test_split_raise _ _ _ _ _ _ Hv2). reflexivity.
Qed.

(** Four names or more (and fewer than [2^52], so that the count is
    far from the end of the exact doubles): both calls return. *)
Lemma split_images_returns images w :
  (4 <= List.length images)%nat ->
  (Z.of_nat (List.length images) < 2 ^ 52)%Z ->
  exists train val test w',
    split_images images default_train_ratio default_val_ratio w
    = (Ok (train, val, test), w').
Proof.
  intros Hlen Hlt.
  destruct (train_size_valid (Z.of_nat (List.length images)))
    as (x & Hv & Hx & _); [lia|].
  destruct (train_test_split_ok images SizeNone (SizeFloat default_train_ratio)
              (Some 42%Z) w _ _ Hv) as (tr & temp & w1 & H1); try lia.
  pose proof H1 as H1'. apply train_test_split_inv in H1'.
  destruct H1' as (n1 & m1 & p1 & Hv1 & _ & _ & _ & _ & _ & _ & _ & Hm1 & _).
  rewrite Hv in Hv1. inversion Hv1 as [[Ex Em]]. clear Hv1.
  destruct (test_size_valid (Z.of_nat (List.length temp)))
    as (t & Hv2 & Ht & _); [lia|].
  destruct (train_test_split_ok temp
              (SizeFloat (second_test_size default_train_ratio default_val_ratio))
              SizeNone None w1 _ _ Hv2) as (va & te & w2 & H2); try lia.
  exists tr, va, te, w2. unfold split_images.
  eapply bind_step; [exact H1|]. simpl fst. simpl snd.
  eapply bind_step; [exact H2|]. reflexivity.
Qed.

(** The sizes with the default ratios: seven tenths for training, and
    for testing a fifth of the remaining three tenths, six hundredths,
    each up to the rounding. *)
Lemma split_images_bounds images w train val test w' :
  (4 <= List.length images)%nat ->
  (Z.of_nat (List.length images) < 2 ^ 52)%Z ->
  split_images images default_train_ratio default_val_ratio w
  = (Ok (train, val, test), w') ->
  (7 * Z.of_nat (List.length images) - 11
   <= 10 * Z.of_nat (List.length train)
   <= 7 * Z.of_nat (List.length images) + 10)%Z /\
  (100 * Z.of_nat (List.length test)
   <= 6 * Z.of_nat (List.length images) + 222)%Z /\
  (List.length train + List.length val + List.length test
   = List.length images)%nat.
Proof.
  intros Hlen Hlt H.
  pose proof (Permutation_length (split_images_perm _ _ _ _ _ _ _ _ H)) as Hsum.
  rewrite !length_app in Hsum.
  apply split_images_sizes in H. destruct H as (n_temp & Hv1 & Hv2).
  destruct (train_size_valid (Z.of_nat (List.length images)))
    as (x & Hv & Hx & Hbx); [lia|].
  rewrite Hv in Hv1. inversion Hv1 as [[Ex Em]]. clear Hv1.
  destruct (test_size_valid (Z.of_nat n_temp)) as (t & Hvt & Ht & Hbt); [lia|].
  rewrite Hvt in Hv2. inversion Hv2 as [[Ev Et]]. clear Hv2.
  rewrite <- Ex, <- Et.
  pose proof (Z.mul_div_le (6305039478318694 * Z.of_nat (List.length images))
                (2 ^ 53) ltac:(lia)) as H1.
  pose proof (Z.mul_succ_div_gt (6305039478318694 * Z.of_nat (List.length images))
                (2 ^ 53) ltac:(lia)) as H2.
  pose proof (Z.mul_div_le (7205759403792796 * Z.of_nat n_temp)
                (2 ^ 55) ltac:(lia)) as H3.
  change (2 ^ 52)%Z with 4503599627370496%Z in *.
  change (2 ^ 53)%Z with 9007199254740992%Z in *.
  change (2 ^ 55)%Z with 36028797018963968%Z in *.
  split; [|split]; lia.
Qed.

End SplitImages.

(** ** The small instances satisfy the library laws *)

Lemma toy_rng_laws : RandomStateLaws Toy.toy_rng.
Proof.
  constructor. intros g n. simpl. unfold Toy.toy_permutation.
  destruct (Nat.even g); simpl.
  - reflexivity.
  - symmetry. apply Permutation_rev.
Qed.

Lemma toy_pil_laws : PILLaws Toy.toy_pil.
Proof.
  constructor.
  - intros img sz img' H. simpl in H. inversion H. reflexivity.
  - intros [w h] fmt b H. simpl in *. unfold Toy.toy_encode in H. simpl in H.
    destruct (Byte.of_nat w) as [bw|] eqn:Ew; [|discriminate].
    destruct (Byte.of_nat h) as [bh|] eqn:Eh; [|discriminate].
    inversion H; subst. exists (w, h). split; [|reflexivity].
    unfold Toy.toy_open.
    rewrite (Byte.to_of_nat w Ew), (Byte.to_of_nat h Eh). reflexivity.
Qed.

(** ** The split of one class (lines 211-213) *)

(** Fewer than two names: the first call raises. *)
Lemma split_images_tiny {R : RandomState} {P : PIL} (images : list string) (w : World) :
  (List.length images < 2)%nat ->
  exists msg,
    split_images images default_train_ratio default_val_ratio w
    = (Raise (ValueError msg), w).
Proof.
  intros Hlen.
  assert (Hv : exists msg,
             validate_shuffle_split (Z.of_nat (List.length images)) SizeNone
               (SizeFloat default_train_ratio) default_test_size
             = Raise (ValueError msg)).
  { destruct images as [|a [|b l]]; [| |simpl in Hlen; lia];
      eexists; vm_compute; reflexivity. }
  destruct Hv as [msg Hv]. exists msg.
  unfold split_images, bind.
  rewrite (train_test_split_raise _ _ _ _ _ _ Hv). reflexivity.
Qed.

(** The lists of a class are those of the split function on the
    listing of its directory, and they are what the three copy loops
    receive. *)
Lemma split_class_lists {R : RandomState} {P : PIL}
    (src tr va te : path) (trr vr : Float64.float) (c : string)
    (w w1 : World) (es : entries_t) (train val test : list string) :
  fs_get (join src c) (fs w) = Some (Dir es) ->
  split_images (names es) trr vr w = (Ok (train, val, test), w1) ->
  split_class src tr va te trr vr c w
  = (copy_images (join src c) tr c train ;;
     copy_images (join src c) va c val ;;
     copy_images (join src c) te c test) w1.
Proof.
  intros Hdir Hsplit. unfold split_class. cbv zeta.
  eapply bind_step; [unfold os_path_isdir; rewrite Hdir; reflexivity|].
  simpl negb. cbv iota.
  eapply bind_step; [unfold os_listdir; rewrite Hdir; reflexivity|].
  eapply bind_step; [exact Hsplit|]. reflexivity.
Qed.

(** C1, as amended: with the default ratios, on the listing of a class
    of at least four names (and fewer than [2^52]) the two calls of the
    split function return, and on a listing of fewer than four names
    they raise [ValueError] and produce no lists; whenever they return,
    the train, validation and test lists are a rearrangement of the
    listing, so that every listed name is in one of them, and, a
    listing having no repeated name, no name is in two of them; these
    are the lists that the copy loops of the class receive. *)
Theorem split_images_partition :
  forall (R : RandomState) (P : PIL) (L : RandomStateLaws R)
         (images : list string) (w : World),
    ((List.length images < 4)%nat ->
     exists msg,
       split_images images default_train_ratio default_val_ratio w
       = (Raise (ValueError msg), w)) /\
    ((4 <= List.length images)%nat ->
     (Z.of_nat (List.length images) < 2 ^ 52)%Z ->
     exists train val test w',
       split_images images default_train_ratio default_val_ratio w
       = (Ok (train, val, test), w')) /\
    (forall train_ratio val_ratio train val test w',
       split_images images train_ratio val_ratio w = (Ok (train, val, test), w') ->
       Permutation (train ++ val ++ test) images /\
       (forall x, In x images <-> In x train \/ In x val \/ In x test) /\
       (NoDup images ->
        (forall x, In x train -> ~ In x val) /\
        (forall x, In x train -> ~ In x test) /\
        (forall x, In x val -> ~ In x test)) /\
       (forall source_dir train_dir val_dir test_dir class_name es,
          fs_get (join source_dir class_name) (fs w) = Some (Dir es) ->
          names es = images ->
          split_class source_dir train_dir val_dir test_dir
            train_ratio val_ratio class_name w
          = (copy_images (join source_dir class_name) train_dir class_name train ;;
             copy_images (join source_dir class_name) val_dir class_name val ;;
             copy_images (join source_dir class_name) test_dir class_name test) w')).
Proof.
  intros R P L images w. split; [|split].
  - apply split_images_small.
  - apply split_images_returns.
  - intros tr vr train val test w' H.
    pose proof (split_images_perm _ _ _ _ _ _ _ _ H) as Hperm.
    split; [exact Hperm|]. split; [|split].
    + intros x. split.
      * intros Hx. apply (Permutation_in _ (Permutation_sym Hperm)) in Hx.
        apply in_app_or in Hx. destruct Hx as [Hx|Hx]; [auto|].
        apply in_app_or in Hx. tauto.
      * intros Hx. apply (Permutation_in _ Hperm).
        apply in_or_app. destruct Hx as [Hx|[Hx|Hx]]; [auto| |];
          right; apply in_or_app; auto.
    + intros Hnd.
      assert (Hnd' : NoDup (train ++ val ++ test)).
      { eapply Permutation_NoDup; [apply Permutation_sym; exact Hperm | exact Hnd]. }
      repeat split.
      * intros x Hx Hv. apply (NoDup_app_disjoint _ _ Hnd' x Hx).
        apply in_or_app. auto.
      * intros x Hx Hv. apply (NoDup_app_disjoint _ _ Hnd' x Hx).
        apply in_or_app. auto.
      * apply NoDup_app_remove_l in Hnd'. apply NoDup_app_disjoint. exact Hnd'.
    + intros src trd vad ted c es Hdir Hnames. subst images.
      apply (split_class_lists _ _ _ _ _ _ _ _ _ es); assumption.
Qed.

Lemma split_images_partition_witness :
  split_images (R := Toy.toy_rng) (Toy.img_names 4)
    default_train_ratio default_val_ratio (Toy.world0 [])
  = (Ok (["img000"; "img0000"], ["img00"], ["img0"])%string,
     @mkWorld Toy.toy_rng [] [] 1%nat) /\
  Permutation (["img000"%string; "img0000"%string] ++ ["img00"%string]
                 ++ ["img0"%string])
              (Toy.img_names 4) /\
  (exists train val test w',
     split_images (R := Toy.toy_rng) (Toy.img_names 5)
       default_train_ratio default_val_ratio (Toy.world0 [])
     = (Ok (train, val, test), w')) /\
  (exists msg,
     split_images (R := Toy.toy_rng) (Toy.img_names 3)
       default_train_ratio default_val_ratio (Toy.world0 [])
     = (Raise (ValueError msg), Toy.world0 [])).
Proof.
  split; [vm_compute; reflexivity|].
  split; [|split].
  - refine (proj1 (proj2 (proj2 (split_images_partition Toy.toy_rng Toy.toy_pil
                                   toy_rng_laws (Toy.img_names 4) (Toy.world0 [])))
                     default_train_ratio default_val_ratio _ _ _ _ _)).
    vm_compute. reflexivity.
  - apply (proj1 (proj2 (split_images_partition Toy.toy_rng Toy.toy_pil
                           toy_rng_laws (Toy.img_names 5) (Toy.world0 [])))).
    + simpl. lia.
    + vm_compute. reflexivity.
  - apply (proj1 (split_images_partition Toy.toy_rng Toy.toy_pil
                    toy_rng_laws (Toy.img_names 3) (Toy.world0 []))).
    simpl. lia.
Defined.

(** C1 as stated fails on a class of two images (the scenario of the
    specification): the notebook's call raises, no part of the split is
    produced and nothing is copied. *)
Lemma split_data_two_images_raises :
  Toy.run_split (Toy.world0 (Toy.processed_tree [("fox"%string, 2%nat)]))
  = (Raise (ValueError "the resulting train set will be empty"),
     Toy.world0 (Toy.processed_tree [("fox"%string, 2%nat)])) /\
  ~ (exists train val test w',
        split_images (R := Toy.toy_rng) (Toy.img_names 2)
          default_train_ratio default_val_ratio
          (Toy.world0 (Toy.processed_tree [("fox"%string, 2%nat)]))
        = (Ok (train, val, test), w')).
Proof.
  split; [vm_compute; reflexivity|].
  intros (train & val & test & w' & H). vm_compute in H. discriminate.
Qed.

(** C2: with the default ratios the parts of a class of [N] files
    (at least four, fewer than [2^52]) have about [0.70 N], [0.24 N]
    and [0.06 N] names, not [0.70 N], [0.20 N] and [0.10 N]: ten times
    the train count is within 11 of [7 N], and a hundred times the test
    count is at most [6 N + 222], because the second call takes
    [0.1 / 0.5] of the remaining three tenths, rounded up.  At
    [N = 100] the parts have 70, 23 and 7 names, not 70, 20 and 10. *)
Theorem split_sizes_with_default_ratios :
  forall (R : RandomState) (P : PIL) (L : RandomStateLaws R)
         (images : list string) (w w' : World) (train val test : list string),
    split_images images default_train_ratio default_val_ratio w
    = (Ok (train, val, test), w') ->
    ((4 <= List.length images)%nat ->
     (Z.of_nat (List.length images) < 2 ^ 52)%Z ->
     (7 * Z.of_nat (List.length images) - 11
      <= 10 * Z.of_nat (List.length train)
      <= 7 * Z.of_nat (List.length images) + 10)%Z /\
     (100 * Z.of_nat (List.length test)
      <= 6 * Z.of_nat (List.length images) + 222)%Z /\
     (List.length train + List.length val + List.length test
      = List.length images)%nat) /\
    (List.length images = 100%nat ->
     List.length train = 70%nat /\ List.length val = 23%nat /\
     List.length test = 7%nat).
Proof.
  intros R P L images w w' train val test H. split.
  - intros Hlen Hlt. eapply split_images_bounds; eauto.
  - intros Hlen.
    apply split_images_sizes in H. destruct H as (n_temp & Hv1 & Hv2).
    rewrite Hlen in Hv1.
    assert (E1 : validate_shuffle_split (Z.of_nat 100) SizeNone
                   (SizeFloat default_train_ratio) default_test_size
                 = Ok (70, 30)%Z) by (vm_compute; reflexivity).
    rewrite E1 in Hv1. inversion Hv1.
    assert (Htemp : n_temp = 30%nat) by lia. subst n_temp.
    assert (E2 : validate_shuffle_split (Z.of_nat 30)
                   (SizeFloat (second_test_size default_train_ratio default_val_ratio))
                   SizeNone default_test_size
                 = Ok (23, 7)%Z) by (vm_compute; reflexivity).
    rewrite E2 in Hv2. inversion Hv2. lia.
Qed.

Lemma split_sizes_with_default_ratios_witness :
  List.length (Toy.img_names 100) = 100%nat /\
  (exists train val test w',
     split_images (R := Toy.toy_rng) (Toy.img_names 100)
       default_train_ratio default_val_ratio (Toy.world0 [])
     = (Ok (train, val, test), w') /\
     (List.length train = 70%nat /\ List.length val = 23%nat /\
      List.length test = 7%nat) /\
     (100 * Z.of_nat (List.length test) <= 822)%Z).
Proof.
  split; [vm_compute; reflexivity|].
  destruct (split_images (R := Toy.toy_rng) (Toy.img_names 100)
              default_train_ratio default_val_ratio (Toy.world0 []))
    as [[[[train val] test]|e] w'] eqn:E.
  - exists train, val, test, w'. split; [reflexivity|].
    pose proof (split_sizes_with_default_ratios Toy.toy_rng Toy.toy_pil
                  toy_rng_laws (Toy.img_names 100) (Toy.world0 []) w'
                  train val test E) as [Hgen H100].
    split.
    + apply H100. vm_compute. reflexivity.
    + assert (Hl : List.length (Toy.img_names 100) = 100%nat)
        by (vm_compute; reflexivity).
      destruct Hgen as (_ & Ht & _).
      * rewrite Hl. lia.
      * rewrite Hl. vm_compute. reflexivity.
      * rewrite Hl in Ht. exact Ht.
  - vm_compute in E. discriminate.
Defined.

(** C5: the train list of a class is the same in any two runs, whatever
    the state of the global generator, because the first call is seeded
    with 42; the validation and test lists need not be: there are two
    generator states for which they differ on the same listing. *)
Theorem train_assignment_reproducible :
  (forall (R : RandomState) (P : PIL) (images : list string)
          (train_ratio val_ratio : Float64.float) (w1 w2 w1' w2' : World)
          (train1 val1 test1 train2 val2 test2 : list string),
      split_images images train_ratio val_ratio w1
      = (Ok (train1, val1, test1), w1') ->
      split_images images train_ratio val_ratio w2
      = (Ok (train2, val2, test2), w2') ->
      train1 = train2) /\
  (exists (w1 w2 w1' w2' : @World Toy.toy_rng)
          (train val1 test1 val2 test2 : list string),
      fs w1 = fs w2 /\
      split_images (Toy.img_names 10) default_train_ratio default_val_ratio w1
      = (Ok (train, val1, test1), w1') /\
      split_images (Toy.img_names 10) default_train_ratio default_val_ratio w2
      = (Ok (train, val2, test2), w2') /\
      val1 <> val2 /\ test1 <> test2).
Proof.
  split.
  - intros R P images tr vr w1 w2 w1' w2' t1 v1 e1 t2 v2 e2 H1 H2.
    eapply split_images_train_seeded; eauto.
  - exists (@mkWorld Toy.toy_rng [] [] 0%nat), (@mkWorld Toy.toy_rng [] [] 1%nat).
    do 7 eexists. split; [reflexivity|].
    split; [vm_compute; reflexivity|].
    split; [vm_compute; reflexivity|].
    split; discriminate.
Qed.

Lemma train_assignment_reproducible_witness :
  split_images (R := Toy.toy_rng) (Toy.img_names 4)
    default_train_ratio default_val_ratio (@mkWorld Toy.toy_rng [] [] 0%nat)
  = (Ok (["img000"%string; "img0000"%string], ["img00"%string], ["img0"%string]),
     @mkWorld Toy.toy_rng [] [] 1%nat) /\
  split_images (R := Toy.toy_rng) (Toy.img_names 4)
    default_train_ratio default_val_ratio (@mkWorld Toy.toy_rng [] [] 1%nat)
  = (Ok (["img000"%string; "img0000"%string], ["img0"%string], ["img00"%string]),
     @mkWorld Toy.toy_rng [] [] 2%nat) /\
  ["img000"%string; "img0000"%string] = ["img000"%string; "img0000"%string].
Proof.
  split; [vm_compute; reflexivity|].
  split; [vm_compute; reflexivity|].
  refine (proj1 train_assignment_reproducible Toy.toy_rng Toy.toy_pil
            (Toy.img_names 4) default_train_ratio default_val_ratio
            (@mkWorld Toy.toy_rng [] [] 0%nat) (@mkWorld Toy.toy_rng [] [] 1%nat)
            _ _ _ _ _ _ _ _ _ _); vm_compute; reflexivity.
Defined.

(** ** Classes too small to split *)

Lemma split_class_tiny {R : RandomState} {P : PIL}
    (src tr va te : path) (c : string) (w : World) (es : entries_t) :
  fs_get (join src c) (fs w) = Some (Dir es) ->
  (List.length es < 2)%nat ->
  exists msg,
    split_class src tr va te default_train_ratio default_val_ratio c w
    = (Raise (ValueError msg), w).
Proof.
  intros Hdir Hlen.
  destruct (split_images_tiny (names es) w) as [msg Hmsg].
  { unfold names. rewrite length_map. exact Hlen. }
  exists msg. unfold split_class. cbv zeta.
  eapply bind_step; [unfold os_path_isdir; rewrite Hdir; reflexivity|].
  simpl negb. cbv iota.
  eapply bind_step; [unfold os_listdir; rewrite Hdir; reflexivity|].
  apply bind_raise. exact Hmsg.
Qed.

(** C8: when a class directory holds fewer than two entries, the call
    of the split function raises [ValueError]; [split_data] ends with
    that exception in the state the classes listed before had left:
    nothing is copied for this class or for a class listed after it. *)
Theorem split_data_small_class_halts :
  forall (R : RandomState) (P : PIL)
         (source_dir train_dir val_dir test_dir : path) (w w1 : World)
         (root_entries class_entries : entries_t)
         (before after : list string) (class_name : string),
    fs_get source_dir (fs w) = Some (Dir root_entries) ->
    names root_entries = before ++ class_name :: after ->
    for_each before
      (split_class source_dir train_dir val_dir test_dir
         default_train_ratio default_val_ratio) w = (Ok tt, w1) ->
    fs_get (join source_dir class_name) (fs w1) = Some (Dir class_entries) ->
    (List.length class_entries < 2)%nat ->
    exists msg,
      split_data source_dir train_dir val_dir test_dir
        default_train_ratio default_val_ratio w
      = (Raise (ValueError msg), w1).
Proof.
  intros R P src tr va te w w1 root_es es before after class_name Hroot Hnames Hpre Hdir Hlen.
  destruct (split_class_tiny src tr va te class_name w1 es Hdir Hlen) as [msg Hmsg].
  exists msg. unfold split_data.
  eapply bind_step; [unfold os_listdir; rewrite Hroot, Hnames; reflexivity|].
  rewrite for_each_app, Hpre. rewrite for_each_cons.
  apply bind_raise. exact Hmsg.
Qed.

Lemma split_data_small_class_halts_witness :
  exists w1 : @World Toy.toy_rng,
    for_each ["big"%string]
      (split_class Toy.processed Toy.train Toy.val Toy.test
         default_train_ratio default_val_ratio)
      (Toy.world0 (Toy.processed_tree
                     [("big"%string, 4%nat); ("small"%string, 1%nat);
                      ("other"%string, 4%nat)]))
    = (Ok tt, w1) /\
    fs_get (Toy.train ++ ["big"%string; "img000"%string]) (fs w1)
    = Some (File Toy.img_224) /\
    fs_get (Toy.train ++ ["other"%string]) (fs w1) = None /\
    exists msg,
      Toy.run_split
        (Toy.world0 (Toy.processed_tree
                       [("big"%string, 4%nat); ("small"%string, 1%nat);
                        ("other"%string, 4%nat)]))
      = (Raise (ValueError msg), w1).
Proof.
  eexists. split; [vm_compute; reflexivity|].
  split; [vm_compute; reflexivity|].
  split; [vm_compute; reflexivity|].
  eapply (split_data_small_class_halts Toy.toy_rng Toy.toy_pil
            Toy.processed Toy.train Toy.val Toy.test _ _ _ _
            ["big"%string] ["other"%string] "small"%string).
  - vm_compute. reflexivity.
  - vm_compute. reflexivity.
  - vm_compute. reflexivity.
  - vm_compute. reflexivity.
  - vm_compute. lia.
Defined.

(** ** Image standardization *)

Section Standardize.

Context {R : RandomState} {P : PIL}.

Lemma Image_open_inv p w r w' :
  Image_open p w = (r, w') ->
  w' = w /\
  match r with
  | Ok img => exists b, fs_get p (fs w) = Some (File b) /\ image_open b = Ok img
  | Raise _ => True
  end.
Proof.
  unfold Image_open. intros H. apply bind_inv in H.
  destruct H as [(b & w1 & H1 & H2)|(e & H1 & ->)].
  - apply read_file_inv in H1. destruct H1 as [-> Hb].
    inversion H2; subst. split; [reflexivity|].
    destruct (image_open b) eqn:E; eauto.
  - apply read_file_inv in H1. destruct H1 as [-> _]. auto.
Qed.

Lemma Image_save_inv img p w r w' :
  Image_save img p w = (r, w') ->
  (r = Ok tt /\
   exists fmt data,
     save_format (basename p) = Ok fmt /\ save_handler img fmt = Ok data /\
     p <> [] /\ is_dir (fs_get p (fs w)) = false /\
     is_dir (fs_get (removelast p) (fs w)) = true /\
     w' = with_fs w (fs_set p (Some (File data)) (fs w))) \/
  (exists e, r = Raise e /\ w' = w) \/
  (exists e fmt old,
     r = Raise e /\
     save_format (basename p) = Ok fmt /\ save_handler img fmt = Raise e /\
     fs_get p (fs w) = Some (File old) /\ p <> [] /\
     is_dir (fs_get (removelast p) (fs w)) = true /\
     w' = with_fs w (fs_set p (Some (File (save_partial img fmt))) (fs w))).
Proof.
  unfold Image_save. intros H.
  apply bind_inv in H. destruct H as [(fmt & w1 & H1 & H)|(e & H1 & ->)];
    [|inversion H1; subst; eauto].
  inversion H1; subst w1. clear H1. rename H2 into Hfmt.
  apply bind_inv in H. destruct H as [(ex & w1 & H1 & H)|(e & H1 & _)];
    [|discriminate].
  inversion H1; subst w1. clear H1. rename H2 into Hex.
  cbv zeta in H.
  apply bind_inv in H. destruct H as [([] & w1 & H1 & H)|(e & H1 & ->)].
  2:{ apply write_file_inv in H1.
      destruct H1 as [(Hr & _)|(e' & _ & ->)]; [discriminate|]. eauto. }
  apply write_file_inv in H1.
  destruct H1 as [(_ & Hp & Hd & Hpar & ->)|(e' & Hr & _)]; [|discriminate].
  destruct (save_handler img fmt) as [data|e] eqn:Hh.
  - rewrite write_file_again in H by assumption. inversion H; subst.
    left. split; [reflexivity|]. exists fmt, data. auto 10.
  - apply bind_inv in H. destruct H as [([] & w2 & H1 & H)|(e' & H1 & _)];
      rewrite write_file_again in H1 by assumption; [|discriminate].
    inversion H1; subst w2. clear H1.
    destruct (fs_get p (fs w)) as [[old|es]|] eqn:Hslot; [| discriminate |].
    + subst ex. simpl negb in H. cbv iota in H.
      inversion H; subst. right. right. exists e, fmt, old. auto 10.
    + subst ex. simpl negb in H. cbv iota in H.
      unfold bind, os_remove, raise in H. simpl fs in H.
      rewrite fs_get_set_same in H by assumption.
      unfold with_fs in H. simpl in H.
      rewrite fs_set_twice, fs_set_absent in H by assumption.
      inversion H; subst. right. left. exists e.
      split; [reflexivity|]. destruct w; reflexivity.
Qed.

(** The three steps of a conversion either all succeed, and the
    encoded image is written, or one fails.  Nothing has changed then,
    unless it is the encoder that failed on a file that was there
    before the call: that file holds what the encoder had written. *)
Lemma convert_image_inv cp tcd sz n w r w' :
  convert_image cp tcd sz n w = (r, w') ->
  (r = Ok tt /\
   exists b img img' fmt data,
     fs_get (join cp n) (fs w) = Some (File b) /\
     image_open b = Ok img /\ image_resize img sz = Ok img' /\
     save_format n = Ok fmt /\ save_handler img' fmt = Ok data /\
     is_dir (fs_get (join tcd n) (fs w)) = false /\
     is_dir (fs_get tcd (fs w)) = true /\
     w' = with_fs w (fs_set (join tcd n) (Some (File data)) (fs w))) \/
  (exists e, r = Raise e /\ w' = w) \/
  (exists e b img img' fmt old,
     r = Raise e /\
     fs_get (join cp n) (fs w) = Some (File b) /\
     image_open b = Ok img /\ image_resize img sz = Ok img' /\
     save_format n = Ok fmt /\ save_handler img' fmt = Raise e /\
     fs_get (join tcd n) (fs w) = Some (File old) /\
     is_dir (fs_get tcd (fs w)) = true /\
     w' = with_fs w
            (fs_set (join tcd n) (Some (File (save_partial img' fmt))) (fs w))).
Proof.
  unfold convert_image. intros H.
  apply bind_inv in H. destruct H as [(img & w1 & H1 & H)|(e & H1 & ->)].
  2:{ apply Image_open_inv in H1. destruct H1 as [-> _]. eauto. }
  apply Image_open_inv in H1. destruct H1 as (-> & b & Hb & Himg).
  apply bind_inv in H. destruct H as [(img' & w1 & H1 & H)|(e & H1 & ->)];
    [|inversion H1; subst; eauto].
  inversion H1; subst w1. clear H1. rename H2 into Hres.
  apply Image_save_inv in H.
  destruct H as [(-> & fmt & data & Hfmt & Hdata & Hp & Hd & Hpar & ->)
                |[H|(e & fmt & old & -> & Hfmt & Hh & Hold & Hp & Hpar & ->)]].
  - left. split; [reflexivity|]. exists b, img, img', fmt, data.
    rewrite basename_join in Hfmt. unfold join in Hpar.
    rewrite removelast_join in Hpar. auto 10.
  - right. left. exact H.
  - right. right. exists e, b, img, img', fmt, old.
    rewrite basename_join in Hfmt. unfold join in Hpar.
    rewrite removelast_join in Hpar. auto 12.
Qed.

Lemma convert_image_ok cp tcd sz n w b img img' fmt data :
  fs_get (join cp n) (fs w) = Some (File b) ->
  image_open b = Ok img -> image_resize img sz = Ok img' ->
  save_format n = Ok fmt -> save_handler img' fmt = Ok data ->
  is_dir (fs_get (join tcd n) (fs w)) = false ->
  is_dir (fs_get tcd (fs w)) = true ->
  convert_image cp tcd sz n w
  = (Ok tt, with_fs w (fs_set (join tcd n) (Some (File data)) (fs w))).
Proof.
  intros Hb Himg Hres Hfmt Hdata Hd Hpar.
  unfold convert_image.
  eapply bind_step.
  { unfold Image_open. eapply bind_step.
    - unfold read_file. rewrite Hb. reflexivity.
    - unfold lift. rewrite Himg. reflexivity. }
  eapply bind_step; [unfold lift; rewrite Hres; reflexivity|].
  unfold Image_save. rewrite basename_join.
  eapply bind_step; [unfold lift; rewrite Hfmt; reflexivity|].
  eapply bind_step; [reflexivity|]. cbv zeta.
  assert (Hp : join tcd n <> []) by (unfold join; destruct tcd; discriminate).
  assert (Hpar' : is_dir (fs_get (removelast (join tcd n)) (fs w)) = true).
  { unfold join. rewrite removelast_join. exact Hpar. }
  eapply bind_step; [apply write_file_ok; assumption|].
  rewrite Hdata. apply write_file_again; assumption.
Qed.

(** The loop body returns normally whatever the conversion does. *)
Lemma standardize_image_inv cp tcd sz n w r w' :
  standardize_image cp tcd sz n w = (r, w') ->
  r = Ok tt /\
  (convert_image cp tcd sz n w = (Ok tt, w') \/
   exists e w1,
     convert_image cp tcd sz n w = (Raise e, w1) /\
     w' = mkWorld (fs w1) (stdout w1 ++ [error_line (join cp n) e])
            (np_random w1)).
Proof.
  unfold standardize_image. intros H. apply try_except_inv in H.
  destruct H as [([] & H1 & ->)|(e & w1 & H1 & H2)].
  - auto.
  - inversion H2; subst. split; [reflexivity|]. right. eauto.
Qed.

Lemma standardize_image_total cp tcd sz n w :
  exists w', standardize_image cp tcd sz n w = (Ok tt, w').
Proof.
  destruct (standardize_image cp tcd sz n w) as [r w'] eqn:E.
  pose proof E as E'. apply standardize_image_inv in E'.
  destruct E' as [-> _]. eauto.
Qed.

End Standardize.

(** The world after a failed conversion differs from the one before at
    most in the file system. *)
Lemma convert_image_raise_world {R : RandomState} {P : PIL}
    (cp tcd : path) (sz : nat * nat) (n : string) (w w1 : World) (e : exn) :
  convert_image cp tcd sz n w = (Raise e, w1) ->
  stdout w1 = stdout w /\ np_random w1 = np_random w /\
  (is_file (fs_get (join tcd n) (fs w)) = false -> w1 = w).
Proof.
  intros H. apply convert_image_inv in H.
  destruct H as [(Hr & _)
                |[(e' & _ & ->)
                 |(e' & b & i1 & i2 & f & old & _ & _ & _ & _ & _ & _ & Hold & _ & ->)]].
  - discriminate.
  - auto.
  - simpl. repeat split. rewrite Hold. discriminate.
Qed.

(** C6, as amended: when the conversion of a file raises (at opening,
    resizing or saving), the loop body catches the exception and
    returns normally; one line naming the file and the exception is
    printed; the loop goes on with the remaining names, and no loop
    over the files of a class is ever aborted.  The file system is as
    before, so that the source file is untouched and no output exists
    for it, when opening or resizing is what failed, and also when
    saving failed, provided that no file was at the output path before
    the call. *)
Theorem standardize_failure_is_skipped :
  forall (R : RandomState) (P : PIL)
         (class_path target_class_dir : path) (image_size : nat * nat)
         (img_name : string) (rest : list string) (w w1 : World) (e : exn),
    convert_image class_path target_class_dir image_size img_name w
    = (Raise e, w1) ->
    let w' := mkWorld (fs w1)
                (stdout w ++ [error_line (join class_path img_name) e])
                (np_random w) in
    standardize_image class_path target_class_dir image_size img_name w
    = (Ok tt, w') /\
    for_each (img_name :: rest)
      (standardize_image class_path target_class_dir image_size) w
    = for_each rest
        (standardize_image class_path target_class_dir image_size) w' /\
    (is_file (fs_get (join target_class_dir img_name) (fs w)) = false ->
     fs w1 = fs w) /\
    (forall (e0 : exn) (w0 : World),
        (img <- Image_open (join class_path img_name) ;;
         lift (image_resize img image_size)) w = (Raise e0, w0) ->
        fs w1 = fs w) /\
    (forall (imgs : list string) (w0 : World),
        exists w2,
          for_each imgs
            (standardize_image class_path target_class_dir image_size) w0
          = (Ok tt, w2)).
Proof.
  intros R P cp tcd sz n rest w w1 e H w'.
  destruct (convert_image_raise_world _ _ _ _ _ _ _ H) as (Hout & Hrng & Hfresh).
  assert (Hstd : standardize_image cp tcd sz n w = (Ok tt, w')).
  { unfold standardize_image, try_except. rewrite H.
    unfold print, w'. rewrite Hout, Hrng. reflexivity. }
  split; [exact Hstd|]. split; [|split; [|split]].
  - rewrite for_each_cons. unfold bind. rewrite Hstd. reflexivity.
  - intros Hslot. rewrite (Hfresh Hslot). reflexivity.
  - intros e0 w0 H0. unfold convert_image in H.
    unfold bind in H, H0.
    destruct (Image_open (join cp n) w) as [[img|e1] u] eqn:Eo.
    + apply Image_open_inv in Eo. destruct Eo as [-> _].
      unfold lift in H, H0.
      destruct (image_resize img sz) as [img'|e2]; [discriminate|].
      inversion H. reflexivity.
    + apply Image_open_inv in Eo. destruct Eo as [-> _].
      inversion H. reflexivity.
  - intros imgs w0. apply for_each_total. intros x w2.
    apply standardize_image_total.
Qed.

(** C6 as stated fails for a file whose output is already there when
    the encoder is what raises: the failure is caught and logged and
    the pass goes on, but [save] had opened the output for writing, and
    the output of the earlier run has become what the encoder had
    written by then. *)
Lemma stale_output_is_overwritten :
  fs_get (join (join Toy.processed "fox") "a.jpg") Toy.stale_tree
  = Some (File Toy.img_224) /\
  convert_image (R := Toy.toy_rng) (join Toy.raw "fox") (join Toy.processed "fox")
    (224, 300)%nat "a.jpg" (Toy.world0 Toy.stale_tree)
  = (Raise (ImageError "encoder error"),
     Toy.world0
       (fs_set (join (join Toy.processed "fox") "a.jpg")
          (Some (File ["224"%byte])) Toy.stale_tree)) /\
  exists w' : @World Toy.toy_rng,
    standardize_images Toy.raw Toy.processed (224, 300)%nat
      (Toy.world0 Toy.stale_tree)
    = (Ok tt, w') /\
    stdout w' = ["Error processing data/raw/fox/a.jpg: encoder error"%string] /\
    fs_get (join (join Toy.raw "fox") "a.jpg") (fs w')
    = Some (File Toy.img_10x20) /\
    fs_get (join (join Toy.processed "fox") "a.jpg") (fs w')
    = Some (File ["224"%byte]).
Proof.
  split; [vm_compute; reflexivity|].
  split; [vm_compute; reflexivity|].
  eexists. split; [vm_compute; reflexivity|].
  split; [vm_compute; reflexivity|].
  split; vm_compute; reflexivity.
Qed.

(** ** A whole run of [standardize_images] *)

Lemma prefixb_same_length p q :
  List.length p = List.length q -> prefixb p q = true -> p = q.
Proof.
  intros Hl H. apply prefixb_spec in H. destruct H as [r ->].
  rewrite length_app in Hl. destruct r; [symmetry; apply app_nil_r|].
  simpl in Hl. lia.
Qed.

Lemma join_join p x y : join (join p x) y = p ++ [x; y].
Proof. unfold join. rewrite <- app_assoc. reflexivity. Qed.

Lemma length_join p x : List.length (join p x) = S (List.length p).
Proof. unfold join. rewrite length_app. simpl. lia. Qed.

Lemma join_inj p x q y : List.length p = List.length q ->
  join p x = join q y -> p = q /\ x = y.
Proof.
  unfold join. intros Hl H. apply app_inj_tail in H. exact H.
Qed.

(** Writing a file into a slot that held no directory: paths of the
    same depth keep their kind, and other slots of that depth their
    content. *)
Lemma fs_set_file_slot p q d root :
  p <> [] -> is_dir (fs_get p root) = false ->
  is_dir (fs_get (removelast p) root) = true ->
  List.length q = List.length p ->
  (q = p /\ fs_get q (fs_set p (Some (File d)) root) = Some (File d)) \/
  (q <> p /\ fs_get q (fs_set p (Some (File d)) root) = fs_get q root).
Proof.
  intros Hp Hd Hpar Hl.
  destruct (list_eq_dec string_dec q p) as [->|Hne].
  - left. split; [reflexivity|]. apply fs_get_set_same; assumption.
  - right. split; [exact Hne|]. apply fs_get_set_frame; auto.
    + destruct (prefixb q p) eqn:E; [|reflexivity].
      apply prefixb_same_length in E; [contradiction | exact Hl].
    + destruct (fs_get p root) as [[b|[|e es]]|]; simpl in *; congruence.
Qed.

Section StandardizeRun.

Context {R : RandomState} {P : PIL}.

Lemma effect_convert_image cp tcd sz n :
  effect (eq (join tcd n)) (convert_image cp tcd sz n).
Proof.
  unfold convert_image.
  apply effect_bind; [apply effect_Image_open|]. intros img.
  apply effect_bind; [apply effect_lift|]. intros img'.
  apply effect_Image_save.
Qed.

Lemma effect_standardize_image cp tcd sz n :
  effect (eq (join tcd n)) (standardize_image cp tcd sz n).
Proof.
  unfold standardize_image. apply effect_try; [apply effect_convert_image|].
  intros e. apply effect_print.
Qed.

Lemma effect_standardize_class src tgt sz c :
  effect (under (join tgt c)) (standardize_class src tgt sz c).
Proof.
  unfold standardize_class.
  apply effect_bind; [apply effect_isdir|]. intros d.
  destruct (negb d); [apply effect_ret|].
  apply effect_bind.
  { eapply effect_weaken; [|apply effect_makedirs].
    intros p <-. exists (join tgt c). split; [apply prefixb_refl|apply prefixb_refl]. }
  intros _. apply effect_bind; [apply effect_listdir|]. intros imgs.
  apply effect_for_each. intros n _.
  eapply effect_weaken; [|apply effect_standardize_image].
  intros p <-. exists (join (join tgt c) n).
  split; [apply prefixb_app | apply prefixb_refl].
Qed.

Variables (src tgt : path) (sz : nat * nat).
Variables (c n : string) (b data : bytes) (fmt : string) (img img' : Image).

Hypothesis Hapart : apart src tgt = true.
Hypothesis Himg : image_open b = Ok img.
Hypothesis Hres : image_resize img sz = Ok img'.
Hypothesis Hfmt : save_format n = Ok fmt.
Hypothesis Hdata : save_handler img' fmt = Ok data.

(** The source file is in place and its output slot holds no
    directory. *)
Let K (w : World) : Prop :=
  fs_get (join (join src c) n) (fs w) = Some (File b) /\
  is_dir (fs_get (join (join tgt c) n) (fs w)) = false.

(** The output is in place. *)
Let Q (w : World) : Prop :=
  fs_get (join (join tgt c) n) (fs w) = Some (File data).

Lemma src_file_outside l : prefixb (join (join src c) n) (tgt ++ l) = false.
Proof.
  rewrite join_join. apply apart_under.
  apply apart_app_l. exact Hapart.
Qed.

(** Writing the output of [n'] in class [y]. *)
Lemma slot_write_keeps y n' d' w :
  K w ->
  is_dir (fs_get (join (join tgt y) n') (fs w)) = false ->
  is_dir (fs_get (join tgt y) (fs w)) = true ->
  (y = c -> n' = n -> d' = data) ->
  K (with_fs w (fs_set (join (join tgt y) n') (Some (File d')) (fs w))) /\
  (Q w ->
   Q (with_fs w (fs_set (join (join tgt y) n') (Some (File d')) (fs w)))).
Proof using Hapart.
  intros [Hsrc Hslot] Hnd Hpar Hsame.
  assert (Hp : join (join tgt y) n' <> [])
    by (unfold join; destruct (tgt ++ [y]); discriminate).
  assert (Hpar' : is_dir (fs_get (removelast (join (join tgt y) n')) (fs w)) = true).
  { unfold join at 1. rewrite removelast_join. exact Hpar. }
  assert (Hl : List.length (join (join tgt c) n) = List.length (join (join tgt y) n')).
  { rewrite !length_join. reflexivity. }
  unfold K, Q. simpl fs.
  split; [split|].
  - rewrite fs_get_set_frame; auto.
    + rewrite (join_join tgt y n'). apply src_file_outside.
    + apply not_dir_leaf. exact Hnd.
  - destruct (fs_set_file_slot _ _ d' (fs w) Hp Hnd Hpar' Hl) as [[_ E]|[_ E]];
      rewrite E; [reflexivity | exact Hslot].
  - intros HQ.
    destruct (fs_set_file_slot _ _ d' (fs w) Hp Hnd Hpar' Hl) as [[E1 E]|[_ E]];
      rewrite E; [|exact HQ].
    apply join_inj in E1; [|rewrite !length_join; reflexivity].
    destruct E1 as [E1 En].
    apply join_inj in E1; [|reflexivity]. destruct E1 as [_ Ey].
    rewrite (Hsame (eq_sym Ey) (eq_sym En)). reflexivity.
Qed.

Lemma std_image_keeps y n' w r w' :
  K w -> standardize_image (join src y) (join tgt y) sz n' w = (r, w') ->
  K w' /\ (Q w -> Q w').
Proof using Hapart Himg Hres Hfmt Hdata.
  intros HK H. pose proof HK as [Hsrc Hslot].
  apply standardize_image_inv in H.
  destruct H as [-> [H|(e & w1 & H & ->)]]; apply convert_image_inv in H.
  - destruct H as [(_ & b' & i1 & i2 & f' & d' & Hb' & Hi1 & Hi2 & Hf' & Hd'
                    & Hnd & Hpar & ->)|[(e & He & _)|(e & H)]];
      [|discriminate|decompose record H; discriminate].
    apply slot_write_keeps; auto.
    intros -> ->.
    rewrite Hsrc in Hb'. inversion Hb'; subst b'.
    rewrite Himg in Hi1. inversion Hi1; subst i1.
    rewrite Hres in Hi2. inversion Hi2; subst i2.
    rewrite Hfmt in Hf'. inversion Hf'; subst f'.
    rewrite Hdata in Hd'. inversion Hd'. reflexivity.
  - destruct H as [(Hr & _)
                  |[(e' & _ & ->)
                   |(e' & b' & i1 & i2 & f' & old & _ & Hb' & Hi1 & Hi2 & Hf'
                     & Hd' & Hold & Hpar & ->)]].
    + discriminate.
    + unfold K, Q. simpl. auto.
    + change (K (with_fs w (fs_set (join (join tgt y) n')
                              (Some (File (save_partial i2 f'))) (fs w))) /\
              (Q w -> Q (with_fs w (fs_set (join (join tgt y) n')
                              (Some (File (save_partial i2 f'))) (fs w))))).
      apply slot_write_keeps; auto.
      * rewrite Hold. reflexivity.
      * intros -> ->.
        rewrite Hsrc in Hb'. inversion Hb'; subst b'.
        rewrite Himg in Hi1. inversion Hi1; subst i1.
        rewrite Hres in Hi2. inversion Hi2; subst i2.
        rewrite Hfmt in Hf'. inversion Hf'; subst f'.
        rewrite Hdata in Hd'. discriminate.
Qed.

Lemma makedirs_keeps y w r w' :
  K w -> os_makedirs (join tgt y) w = (r, w') -> K w' /\ (Q w -> Q w').
Proof using Hapart.
  intros [Hsrc Hslot] H. apply effect_makedirs in H. destruct H as [Hf _].
  assert (E1 : fs_get (join (join src c) n) (fs w')
               = fs_get (join (join src c) n) (fs w)).
  { apply Hf. intros p <-. unfold join at 3. apply src_file_outside. }
  assert (E2 : fs_get (join (join tgt c) n) (fs w')
               = fs_get (join (join tgt c) n) (fs w)).
  { apply Hf. intros p <-. apply prefixb_longer. rewrite !length_join. lia. }
  unfold K, Q. rewrite E1, E2. auto.
Qed.

Lemma std_class_keeps y w r w' :
  K w -> standardize_class src tgt sz y w = (r, w') -> K w' /\ (Q w -> Q w').
Proof using Hapart Himg Hres Hfmt Hdata.
  intros HK H. unfold standardize_class in H.
  apply bind_inv in H. destruct H as [(d & w1 & H1 & H)|(e & H1 & _)];
    [|inversion H1].
  inversion H1; subst w1 d. clear H1.
  destruct (negb _); [inversion H; subst; auto|].
  apply bind_inv in H. destruct H as [([] & w1 & H1 & H)|(e & H1 & _)];
    [|eapply makedirs_keeps; eauto].
  destruct (makedirs_keeps _ _ _ _ HK H1) as [HK1 HQ1].
  apply bind_inv in H. destruct H as [(imgs & w2 & H2 & H)|(e & H2 & _)].
  2:{ apply os_listdir_inv in H2. destruct H2 as [-> _]. auto. }
  apply os_listdir_inv in H2. destruct H2 as [-> _].
  apply (for_each_inv (fun u => K u /\ (Q w -> Q u))) in H; auto.
  intros n' u r' u' _ [HKu HQu] Hn'.
  destruct (std_image_keeps _ _ _ _ _ HKu Hn') as [HKu' HQu']. auto.
Qed.

Lemma std_class_establishes w w' :
  K w -> standardize_class src tgt sz c w = (Ok tt, w') -> Q w'.
Proof using Hapart Himg Hres Hfmt Hdata.
  intros HK H. unfold standardize_class in H.
  apply bind_inv in H. destruct H as [(d & w1 & H1 & H)|(e & _ & He)];
    [|discriminate].
  inversion H1; subst w1 d. clear H1.
  assert (Hsrc := proj1 HK). unfold join at 1 in Hsrc. rewrite fs_get_app in Hsrc.
  destruct (fs_get (join src c) (fs w)) as [[b0|es]|] eqn:Ec; try discriminate.
  simpl in H.
  apply bind_inv in H. destruct H as [([] & w1 & H1 & H)|(e & _ & He)];
    [|discriminate].
  destruct (makedirs_keeps _ _ _ _ HK H1) as [HK1 _].
  pose proof (makedirs_is_dir _ _ _ H1) as Hdir1.
  apply bind_inv in H. destruct H as [(imgs & w2 & H2 & H)|(e & _ & He)];
    [|discriminate].
  apply os_listdir_inv in H2. destruct H2 as (-> & es' & Hes' & ->).
  assert (Hin : In n (names es')).
  { destruct HK1 as [Hs _]. unfold join at 1 in Hs. rewrite fs_get_app, Hes' in Hs.
    simpl in Hs. destruct (get_entry n es') eqn:E; [|discriminate].
    eapply get_entry_In; eauto. }
  revert H.
  apply (for_each_post
           (fun u => K u /\ is_dir (fs_get (join tgt c) (fs u)) = true) Q
           (names es') _ n Hin); auto.
  - intros n' u r' u' _ [HKu Hd] Hn'.
    split; [eapply std_image_keeps; eauto|].
    apply effect_standardize_image in Hn'. destruct Hn' as [_ Hg].
    apply Hg. exact Hd.
  - intros u u' [[Hs Hslot] Hd] Hn'.
    unfold standardize_image, try_except in Hn'.
    rewrite (convert_image_ok _ _ _ _ _ _ _ _ _ _ Hs Himg Hres Hfmt Hdata Hslot Hd)
      in Hn'.
    inversion Hn'; subst u'. unfold Q. simpl fs.
    apply fs_get_set_same.
    + unfold join. destruct ((tgt ++ [c])); discriminate.
    + unfold join at 1. rewrite removelast_join. exact Hd.
  - intros n' u u' _ [HKu _] HQu Hn'.
    eapply std_image_keeps; eauto.
Qed.

Lemma standardize_run_output w w' :
  K w -> standardize_images src tgt sz w = (Ok tt, w') -> Q w'.
Proof using Hapart Himg Hres Hfmt Hdata.
  intros HK H. unfold standardize_images in H.
  apply bind_inv in H. destruct H as [(classes & w1 & H1 & H)|(e & _ & He)];
    [|discriminate].
  apply os_listdir_inv in H1. destruct H1 as (-> & es & Hes & ->).
  assert (Hin : In c (names es)).
  { destruct HK as [Hs _]. unfold join in Hs. rewrite <- app_assoc in Hs.
    rewrite fs_get_app, Hes in Hs. simpl in Hs.
    destruct (get_entry c es) eqn:E; [|discriminate].
    eapply get_entry_In; eauto. }
  revert H. apply (for_each_post K Q (names es) _ c Hin); auto.
  - intros y u r u' _ HKu Hy. eapply std_class_keeps; eauto.
  - intros u u' HKu Hc. eapply std_class_establishes; eauto.
  - intros y u u' _ HKu HQu Hy. eapply std_class_keeps; eauto.
Qed.

End StandardizeRun.

(** C3: a conversion that returns has written, under the name of the
    source file and in the class directory of the same name under the
    target root, a file that decodes to an image whose size is exactly
    the configured size.  In a run of [standardize_images] that
    returns, with the target root outside the source root, every file
    of a class directory that opens, resizes and encodes, and whose
    place in the target holds no directory, has that output at the end
    of the run. *)
Theorem standardize_images_output :
  forall (R : RandomState) (P : PIL) (PL : PILLaws P)
         (source_dir target_dir : path) (size : nat * nat)
         (class_name img_name : string),
    (forall (w w' : World),
        convert_image (join source_dir class_name) (join target_dir class_name)
          size img_name w = (Ok tt, w') ->
        exists data out,
          fs_get (join (join target_dir class_name) img_name) (fs w')
          = Some (File data) /\
          image_open data = Ok out /\ image_size out = size) /\
    (forall (w w' : World) (b data : bytes) (fmt : string) (img img' : Image),
        apart source_dir target_dir = true ->
        standardize_images source_dir target_dir size w = (Ok tt, w') ->
        fs_get (join (join source_dir class_name) img_name) (fs w)
        = Some (File b) ->
        image_open b = Ok img ->
        image_resize img size = Ok img' ->
        save_format img_name = Ok fmt ->
        save_handler img' fmt = Ok data ->
        is_dir (fs_get (join (join target_dir class_name) img_name) (fs w))
        = false ->
        fs_get (join (join target_dir class_name) img_name) (fs w')
        = Some (File data) /\
        exists out, image_open data = Ok out /\ image_size out = size).
Proof.
  intros R P PL src tgt sz c n. split.
  - intros w w' H. apply convert_image_inv in H.
    destruct H as [(_ & b & img & img' & fmt & data & Hb & Himg & Hres & Hfmt
                    & Hdata & Hnd & Hpar & ->)
                  |[(e & He & _)|(e & H)]];
      [|discriminate|decompose record H; discriminate].
    destruct (save_open_size _ _ _ Hdata) as (out & Hout & Hsz).
    exists data, out. split; [|split; [exact Hout|]].
    + simpl fs. apply fs_get_set_same.
      * unfold join. destruct (tgt ++ [c]); discriminate.
      * unfold join at 1. rewrite removelast_join. exact Hpar.
    + rewrite Hsz. eapply resize_size; eauto.
  - intros w w' b data fmt img img' Hapart Hrun Hsrc Himg Hres Hfmt Hdata Hslot.
    split.
    + eapply (standardize_run_output src tgt sz c n b data fmt img img'); eauto.
    + destruct (save_open_size _ _ _ Hdata) as (out & Hout & Hsz).
      exists out. split; [exact Hout|].
      rewrite Hsz. eapply resize_size; eauto.
Qed.

(** ** Footprints of the three passes *)

Section Footprints.

Context {R : RandomState} {P : PIL}.

Lemma effect_verify_image T p : effect T (verify_image p).
Proof.
  unfold verify_image. apply effect_bind; [apply effect_Image_open|].
  intros. apply effect_lift.
Qed.

Lemma effect_clean_image cp n : effect (eq (join cp n)) (clean_image cp n).
Proof.
  unfold clean_image. apply effect_try; [apply effect_verify_image|].
  intros e. apply effect_bind; [apply effect_print|].
  intros _. apply effect_remove.
Qed.

Lemma effect_clean_class src c : effect (under (join src c)) (clean_class src c).
Proof.
  unfold clean_class.
  apply effect_bind; [apply effect_isdir|]. intros d.
  destruct (negb d); [apply effect_ret|].
  apply effect_bind; [apply effect_listdir|]. intros imgs.
  apply effect_for_each. intros n _.
  eapply effect_weaken; [|apply effect_clean_image].
  intros p <-. exists (join (join src c) n).
  split; [apply prefixb_app | apply prefixb_refl].
Qed.

Lemma effect_rng_permutation T rs n : effect T (rng_permutation rs n).
Proof.
  apply effect_pure. unfold rng_permutation. intros w r w' H.
  destruct rs.
  - inversion H. reflexivity.
  - destruct (permutation (np_random w) n). inversion H. reflexivity.
Qed.

Lemma effect_train_test_split {A} T (arr : list A) ts trs rs :
  effect T (train_test_split arr ts trs rs).
Proof.
  unfold train_test_split.
  apply effect_bind; [apply effect_lift|]. intros sizes.
  apply effect_bind; [apply effect_lift|]. intros sizes'.
  apply effect_bind; [apply effect_rng_permutation|]. intros perm.
  apply effect_bind; [apply effect_lift|]. intros tr.
  apply effect_bind; [apply effect_lift|]. intros te.
  apply effect_ret.
Qed.

Lemma effect_split_images T images tr vr : effect T (split_images images tr vr).
Proof.
  unfold split_images.
  apply effect_bind; [apply effect_train_test_split|]. intros tt'.
  apply effect_bind; [apply effect_train_test_split|]. intros vt.
  apply effect_ret.
Qed.

Lemma effect_copy_images cp d c imgs :
  effect (under (join d c)) (copy_images cp d c imgs).
Proof.
  unfold copy_images. apply effect_for_each. intros n _.
  apply effect_bind.
  - eapply effect_weaken; [|apply effect_makedirs].
    intros p <-. exists (join d c). split; apply prefixb_refl.
  - intros _. eapply effect_weaken; [|apply effect_copy].
    intros p Hp. exists p. split; [|apply prefixb_refl].
    unfold under in *. eapply prefixb_trans; [|exact Hp]. apply prefixb_app.
Qed.

Lemma effect_split_class src tr va te trr vr c :
  effect (under_targets tr va te c) (split_class src tr va te trr vr c).
Proof.
  unfold split_class.
  apply effect_bind; [apply effect_isdir|]. intros d.
  destruct (negb d); [apply effect_ret|].
  apply effect_bind; [apply effect_listdir|]. intros imgs.
  apply effect_bind; [apply effect_split_images|]. intros parts.
  apply effect_bind.
  { eapply effect_weaken; [|apply effect_copy_images].
    intros p Hp. exists p. split; [left; exact Hp | apply prefixb_refl]. }
  intros _. apply effect_bind.
  { eapply effect_weaken; [|apply effect_copy_images].
    intros p Hp. exists p. split; [right; left; exact Hp | apply prefixb_refl]. }
  intros _.
  eapply effect_weaken; [|apply effect_copy_images].
  intros p Hp. exists p. split; [right; right; exact Hp | apply prefixb_refl].
Qed.

(** What lies apart from a directory is out of reach of writes below
    it. *)
Lemma frame_under_apart d w w' q l :
  frame (under d) w w' -> apart q d = true ->
  fs_get (q ++ l) (fs w') = fs_get (q ++ l) (fs w).
Proof.
  intros Hf Ha. apply Hf. intros p Hp. apply prefixb_spec in Hp.
  destruct Hp as [r ->]. apply apart_under. apply apart_app_l. exact Ha.
Qed.

Lemma frame_under_sibling d x y w w' l :
  frame (under (join d x)) w w' -> x <> y ->
  fs_get (join d y ++ l) (fs w') = fs_get (join d y ++ l) (fs w).
Proof.
  intros Hf Hxy. apply Hf. intros p Hp. apply prefixb_spec in Hp.
  destruct Hp as [r ->].
  destruct (prefixb (join d y ++ l) (join d x ++ r)) eqn:E; [|reflexivity].
  assert (E' : prefixb (join d y) (join d x ++ r) = true).
  { eapply prefixb_trans; [apply prefixb_app | exact E]. }
  unfold join in E'. rewrite <- app_assoc in E'. simpl in E'.
  rewrite prefixb_join_ne in E' by congruence. discriminate.
Qed.

End Footprints.

(** ** Entries of the source root that are not directories *)

Section Skipped.

Context {R : RandomState} {P : PIL}.

Lemma clean_class_skip src y w :
  is_dir (fs_get (join src y) (fs w)) = false ->
  clean_class src y w = (Ok tt, w).
Proof.
  intros H. unfold clean_class. cbv zeta.
  eapply bind_step; [unfold os_path_isdir; rewrite H; reflexivity|].
  reflexivity.
Qed.

Lemma standardize_class_skip src tgt sz y w :
  is_dir (fs_get (join src y) (fs w)) = false ->
  standardize_class src tgt sz y w = (Ok tt, w).
Proof.
  intros H. unfold standardize_class. cbv zeta.
  eapply bind_step; [unfold os_path_isdir; rewrite H; reflexivity|].
  reflexivity.
Qed.

Lemma split_class_skip src tr va te trr vr y w :
  is_dir (fs_get (join src y) (fs w)) = false ->
  split_class src tr va te trr vr y w = (Ok tt, w).
Proof.
  intros H. unfold split_class. cbv zeta.
  eapply bind_step; [unfold os_path_isdir; rewrite H; reflexivity|].
  reflexivity.
Qed.

(** A loop over the entries of the source root whose body skips what
    is not a directory and writes only at paths that a file [f] of
    the root and the paths [qs] do not lead to, leaves [f] and [qs]
    as they were. *)
Lemma skip_loop_keeps (body : string -> M unit) (T : string -> path -> Prop)
    src f b (qs : list path) classes :
  (forall y, effect (T y) (body y)) ->
  (forall y w, is_dir (fs_get (join src y) (fs w)) = false ->
               body y w = (Ok tt, w)) ->
  (forall y p, y <> f -> T y p -> prefixb (join src f) p = false) ->
  (forall y p q, y <> f -> T y p -> In q qs -> prefixb q p = false) ->
  forall w r w',
    fs_get (join src f) (fs w) = Some (File b) ->
    for_each classes body w = (r, w') ->
    fs_get (join src f) (fs w') = Some (File b) /\
    forall q, In q qs -> fs_get q (fs w') = fs_get q (fs w).
Proof.
  intros Heff Hskip Hsrc Hqs w r w' Hf H.
  apply (for_each_inv
           (fun u => fs_get (join src f) (fs u) = Some (File b) /\
                     forall q, In q qs -> fs_get q (fs u) = fs_get q (fs w))
           classes body) in H; auto.
  intros y u r1 u' _ [Hfu Hqu] Hy.
  destruct (string_dec y f) as [->|Hne].
  - rewrite Hskip in Hy by (rewrite Hfu; reflexivity).
    inversion Hy; subst. auto.
  - destruct (Heff y _ _ _ Hy) as [Hfr _]. split.
    + rewrite <- Hfu. apply Hfr. intros p Hp. eapply Hsrc; eauto.
    + intros q Hq. rewrite <- (Hqu q Hq). apply Hfr.
      intros p Hp. eapply Hqs; eauto.
Qed.

Lemma sibling_outside d x y p :
  x <> y -> under (join d x) p -> prefixb (join d y) p = false.
Proof.
  intros Hxy Hp. apply prefixb_spec in Hp. destruct Hp as [r ->].
  unfold join. rewrite <- app_assoc. simpl.
  apply prefixb_join_ne. congruence.
Qed.

Lemma apart_outside src d y f p :
  apart src d = true -> under (join d y) p -> prefixb (join src f) p = false.
Proof.
  intros Ha Hp. apply prefixb_spec in Hp. destruct Hp as [r ->].
  unfold join. rewrite <- app_assoc. apply apart_under.
  apply apart_app_l. exact Ha.
Qed.

End Skipped.

(** C9: an entry of the source root that is a file and not a directory
    is skipped by the loop body of each pass, which returns at once with
    the world as it was (no validation, no message, no directory, no
    split); and whatever a run does for the other entries, the file is
    there with its bytes afterwards, and nothing appears under its name
    in a target root ([clean_data] always; [standardize_images] and
    [split_data] with target roots that lie outside the source root
    and outside each other). *)
Theorem root_files_are_skipped :
  forall (R : RandomState) (P : PIL)
         (source_dir target_dir train_dir val_dir test_dir : path)
         (size : nat * nat) (train_ratio val_ratio : Float64.float)
         (name : string) (b : bytes) (w : World),
    fs_get (join source_dir name) (fs w) = Some (File b) ->
    (clean_class source_dir name w = (Ok tt, w) /\
     forall r w',
       clean_data source_dir w = (r, w') ->
       fs_get (join source_dir name) (fs w') = Some (File b)) /\
    (standardize_class source_dir target_dir size name w = (Ok tt, w) /\
     (apart source_dir target_dir = true ->
      forall r w',
        standardize_images source_dir target_dir size w = (r, w') ->
        fs_get (join source_dir name) (fs w') = Some (File b) /\
        fs_get (join target_dir name) (fs w')
        = fs_get (join target_dir name) (fs w))) /\
    (split_class source_dir train_dir val_dir test_dir train_ratio val_ratio
       name w = (Ok tt, w) /\
     (apart source_dir train_dir = true ->
      apart source_dir val_dir = true ->
      apart source_dir test_dir = true ->
      apart train_dir val_dir = true ->
      apart train_dir test_dir = true ->
      apart val_dir test_dir = true ->
      forall r w',
        split_data source_dir train_dir val_dir test_dir train_ratio val_ratio w
        = (r, w') ->
        fs_get (join source_dir name) (fs w') = Some (File b) /\
        fs_get (join train_dir name) (fs w') = fs_get (join train_dir name) (fs w) /\
        fs_get (join val_dir name) (fs w') = fs_get (join val_dir name) (fs w) /\
        fs_get (join test_dir name) (fs w') = fs_get (join test_dir name) (fs w))).
Proof.
  intros R P src tgt tr va te sz trr vr f b w Hf.
  assert (Hnd : is_dir (fs_get (join src f) (fs w)) = false)
    by (rewrite Hf; reflexivity).
  split; [|split].
  - split; [apply clean_class_skip; exact Hnd|].
    intros r w' H. unfold clean_data in H.
    apply bind_inv in H. destruct H as [(classes & w1 & H1 & H)|(e & H1 & _)].
    2:{ apply os_listdir_inv in H1. destruct H1 as [-> _]. exact Hf. }
    apply os_listdir_inv in H1. destruct H1 as [-> _].
    refine (proj1 (skip_loop_keeps (clean_class src)
                     (fun y => under (join src y)) src f b [] classes
                     _ _ _ _ w r w' Hf H)).
    + intros y. apply effect_clean_class.
    + intros y u. apply clean_class_skip.
    + intros y p Hne Hp. eapply sibling_outside; eauto.
    + intros y p q _ _ [].
  - split; [apply standardize_class_skip; exact Hnd|].
    intros Ha r w' H. unfold standardize_images in H.
    apply bind_inv in H. destruct H as [(classes & w1 & H1 & H)|(e & H1 & _)].
    2:{ apply os_listdir_inv in H1. destruct H1 as [-> _]. auto. }
    apply os_listdir_inv in H1. destruct H1 as [-> _].
    assert (Hk := skip_loop_keeps (standardize_class src tgt sz)
                    (fun y => under (join tgt y)) src f b [join tgt f] classes).
    destruct (Hk) with (w := w) (r := r) (w' := w') as [H1 H2]; auto.
    + intros y. apply effect_standardize_class.
    + intros y u. apply standardize_class_skip.
    + intros y p _ Hp. exact (apart_outside src tgt y f p Ha Hp).
    + intros y p q Hne Hp [<-|[]]. exact (sibling_outside _ y f p Hne Hp).
    + split; [exact H1|]. apply H2. left. reflexivity.
  - split; [apply split_class_skip; exact Hnd|].
    intros Ha1 Ha2 Ha3 Htv Htt Hvt r w' H. unfold split_data in H.
    apply bind_inv in H. destruct H as [(classes & w1 & H1 & H)|(e & H1 & _)].
    2:{ apply os_listdir_inv in H1. destruct H1 as [-> _]. auto. }
    apply os_listdir_inv in H1. destruct H1 as [-> _].
    assert (Hk := skip_loop_keeps (split_class src tr va te trr vr)
                    (fun y => under_targets tr va te y) src f b
                    [join tr f; join va f; join te f] classes).
    assert (Hvt' : apart va tr = true) by (rewrite apart_sym; exact Htv).
    assert (Htt' : apart te tr = true) by (rewrite apart_sym; exact Htt).
    assert (Hvt'' : apart te va = true) by (rewrite apart_sym; exact Hvt).
    destruct (Hk) with (w := w) (r := r) (w' := w') as [H1 H2]; auto.
    + intros y. apply effect_split_class.
    + intros y u. apply split_class_skip.
    + intros y p _ [Hp|[Hp|Hp]];
        [ exact (apart_outside src tr y f p Ha1 Hp)
        | exact (apart_outside src va y f p Ha2 Hp)
        | exact (apart_outside src te y f p Ha3 Hp) ].
    + intros y p q Hne [Hp|[Hp|Hp]] [<-|[<-|[<-|[]]]];
        first [ exact (sibling_outside _ y f p Hne Hp)
              | exact (apart_outside _ _ y f p Htv Hp)
              | exact (apart_outside _ _ y f p Htt Hp)
              | exact (apart_outside _ _ y f p Hvt Hp)
              | exact (apart_outside _ _ y f p Hvt' Hp)
              | exact (apart_outside _ _ y f p Htt' Hp)
              | exact (apart_outside _ _ y f p Hvt'' Hp) ].
    + split; [exact H1|]. repeat split; apply H2; simpl; auto.
Qed.

(** ** The copy loops of [split_data] *)

Section CopyLoop.

Context {R : RandomState} {P : PIL}.

Lemma shutil_copy_inv src dst w r w' :
  shutil_copy src dst w = (r, w') ->
  is_dir (fs_get dst (fs w)) = false ->
  (r = Ok tt /\
   exists b, fs_get src (fs w) = Some (File b) /\ dst <> [] /\
             is_dir (fs_get (removelast dst) (fs w)) = true /\
             w' = with_fs w (fs_set dst (Some (File b)) (fs w))) \/
  (exists e, r = Raise e /\ w' = w).
Proof.
  unfold shutil_copy. intros H Hd.
  apply bind_inv in H. destruct H as [(d & w1 & H1 & H)|(e & H1 & _)];
    [|inversion H1].
  inversion H1; subst w1 d. clear H1. rewrite Hd in H.
  destruct (path_eqb src dst); [inversion H; subst; eauto|].
  apply bind_inv in H. destruct H as [(b & w2 & H2 & H)|(e & H2 & ->)].
  2:{ apply read_file_inv in H2. destruct H2 as [-> _]. eauto. }
  apply read_file_inv in H2. destruct H2 as [-> Hb].
  apply write_file_inv in H.
  destruct H as [(-> & Hp & _ & Hpar & ->)|(e & -> & ->)]; [|eauto].
  left. split; [reflexivity|]. exists b. auto.
Qed.

Variables (cp d : path) (c : string) (imgs : list string) (w0 : World).

Hypothesis Hapart : apart cp d = true.

(** The source class directory is as at the start, and no slot of the
    loop holds a directory. *)
Let I (u : World) : Prop :=
  (forall l, fs_get (cp ++ l) (fs u) = fs_get (cp ++ l) (fs w0)) /\
  (forall n', In n' imgs ->
              is_dir (fs_get (join (join d c) n') (fs u)) = false).

Let body (n : string) : M unit :=
  os_makedirs (join d c) ;;
  shutil_copy (join cp n) (join (join d c) n).

Lemma cp_outside l r : prefixb (cp ++ l) (join d c ++ r) = false.
Proof using Hapart.
  unfold join. rewrite <- app_assoc. apply apart_under.
  apply apart_app_l. exact Hapart.
Qed.

Lemma copy_makedirs_keeps u r u' :
  I u -> os_makedirs (join d c) u = (r, u') ->
  I u' /\ forall n, fs_get (join (join d c) n) (fs u')
                    = fs_get (join (join d c) n) (fs u).
Proof using Hapart.
  intros [Hsrc Hslots] H. apply effect_makedirs in H. destruct H as [Hf _].
  assert (E : forall n, fs_get (join (join d c) n) (fs u')
                        = fs_get (join (join d c) n) (fs u)).
  { intros n. apply Hf. intros p <-. apply prefixb_longer.
    rewrite !length_join. lia. }
  split; [|exact E]. split.
  - intros l. rewrite <- Hsrc. apply Hf. intros p <-.
    rewrite <- (app_nil_r (join d c)). apply cp_outside.
  - intros n' Hn'. rewrite E. auto.
Qed.

Lemma copy_step_keeps n' u r u' :
  In n' imgs -> I u ->
  shutil_copy (join cp n') (join (join d c) n') u = (r, u') ->
  I u' /\
  forall n b, fs_get (join cp n) (fs w0) = Some (File b) ->
    (r = Ok tt -> n = n' -> fs_get (join (join d c) n) (fs u') = Some (File b)) /\
    (fs_get (join (join d c) n) (fs u) = Some (File b) ->
     fs_get (join (join d c) n) (fs u') = Some (File b)).
Proof using Hapart.
  intros Hin [Hsrc Hslots] H.
  apply shutil_copy_inv in H; [|apply Hslots; exact Hin].
  destruct H as [(-> & b' & Hb' & Hp & Hpar & ->)|(e & -> & ->)].
  2:{ split; [split; assumption|]. intros n b Hb.
      split; [discriminate | auto]. }
  assert (Hslot : forall n,
             (n = n' /\ fs_get (join (join d c) n)
                          (fs_set (join (join d c) n') (Some (File b')) (fs u))
                        = Some (File b')) \/
             (n <> n' /\ fs_get (join (join d c) n)
                           (fs_set (join (join d c) n') (Some (File b')) (fs u))
                         = fs_get (join (join d c) n) (fs u))).
  { intros n.
    destruct (fs_set_file_slot (join (join d c) n') (join (join d c) n) b' (fs u))
      as [[E1 E2]|[E1 E2]]; auto.
    - rewrite !length_join. reflexivity.
    - left. split; [|exact E2]. apply join_inj in E1; [tauto | reflexivity].
    - right. split; [|exact E2]. intros ->. apply E1. reflexivity. }
  unfold I. simpl fs. split; [split|].
  - intros l. rewrite <- Hsrc. apply fs_get_set_frame; auto.
    + unfold join at 1. apply cp_outside.
    + apply not_dir_leaf. apply Hslots. exact Hin.
  - intros n Hn. destruct (Hslot n) as [[_ E]|[_ E]]; rewrite E; auto.
  - intros n b Hb. split.
    + intros _ ->. destruct (Hslot n') as [[_ E]|[E _]]; [|congruence].
      rewrite E. unfold join at 1 in Hb'. rewrite Hsrc in Hb'.
      unfold join at 1 in Hb. congruence.
    + intros Hq. destruct (Hslot n) as [[-> E]|[_ E]]; rewrite E; [|exact Hq].
      unfold join at 1 in Hb'. rewrite Hsrc in Hb'.
      unfold join at 1 in Hb. congruence.
Qed.

Lemma copy_body_keeps n' u r u' :
  In n' imgs -> I u -> body n' u = (r, u') ->
  I u' /\
  forall n b, fs_get (join cp n) (fs w0) = Some (File b) ->
    (r = Ok tt -> n = n' -> fs_get (join (join d c) n) (fs u') = Some (File b)) /\
    (fs_get (join (join d c) n) (fs u) = Some (File b) ->
     fs_get (join (join d c) n) (fs u') = Some (File b)).
Proof using Hapart.
  intros Hin HI H. unfold body in H.
  apply bind_inv in H. destruct H as [([] & u1 & H1 & H)|(e & H1 & ->)].
  - destruct (copy_makedirs_keeps _ _ _ HI H1) as [HI1 E].
    destruct (copy_step_keeps _ _ _ _ Hin HI1 H) as [HI' Hq].
    split; [exact HI'|]. intros n b Hb. destruct (Hq n b Hb) as [Hq1 Hq2].
    split; [exact Hq1|]. intros Hu. apply Hq2. rewrite E. exact Hu.
  - destruct (copy_makedirs_keeps _ _ _ HI H1) as [HI1 E].
    split; [exact HI1|]. intros n b Hb. split; [discriminate|].
    rewrite E. auto.
Qed.

Hypothesis Hslots0 :
  forall n, In n imgs -> is_dir (fs_get (join (join d c) n) (fs w0)) = false.

(** After a copy loop that ran to its end, every name of the list is
    a file of the source class directory, still there, and its bytes
    are in the class directory of the target. *)
Lemma copy_images_copies w' n :
  copy_images cp d c imgs w0 = (Ok tt, w') -> In n imgs ->
  exists b,
    fs_get (join cp n) (fs w0) = Some (File b) /\
    fs_get (join cp n) (fs w') = Some (File b) /\
    fs_get (join (join d c) n) (fs w') = Some (File b).
Proof using Hapart Hslots0.
  intros H Hin. unfold copy_images in H. fold body in H.
  assert (HI0 : I w0) by (split; auto).
  assert (HI' : I w').
  { revert H. apply (for_each_inv I imgs body); auto.
    intros n' u r u' Hn' HIu Hb. eapply copy_body_keeps; eauto. }
  assert (Hsrc : exists b, fs_get (join cp n) (fs w0) = Some (File b)).
  { (* the iteration for [n] returned, so the source was a file *)
    revert H.
    apply (for_each_post I
             (fun _ => exists b, fs_get (join cp n) (fs w0) = Some (File b))
             imgs body n Hin); auto.
    - intros n' u r u' Hn' HIu Hb. eapply copy_body_keeps; eauto.
    - intros u u' HIu Hb. unfold body in Hb.
      apply bind_inv in Hb. destruct Hb as [([] & u1 & H1 & H2)|(e & _ & He)];
        [|discriminate].
      destruct (copy_makedirs_keeps _ _ _ HIu H1) as [[Hs1 Hsl1] _].
      apply shutil_copy_inv in H2; [|apply Hsl1; exact Hin].
      destruct H2 as [(_ & b & Hb & _)|(e & He & _)]; [|discriminate].
      exists b. unfold join at 1 in Hb. rewrite Hs1 in Hb. exact Hb. }
  destruct Hsrc as [b Hb]. exists b. split; [exact Hb|]. split.
  - unfold join at 1. rewrite (proj1 HI'). exact Hb.
  - revert H.
    apply (for_each_post I
             (fun u => fs_get (join (join d c) n) (fs u) = Some (File b))
             imgs body n Hin); auto.
    + intros n' u r u' Hn' HIu Hbd. eapply copy_body_keeps; eauto.
    + intros u u' HIu Hbd.
      destruct (copy_body_keeps _ _ _ _ Hin HIu Hbd) as [_ Hq].
      apply (proj1 (Hq n b Hb)); reflexivity.
    + intros n' u u' Hn' HIu HQ Hbd.
      destruct (copy_body_keeps _ _ _ _ Hn' HIu Hbd) as [_ Hq].
      apply (proj2 (Hq n b Hb)). exact HQ.
Qed.

End CopyLoop.

Lemma effect_split_data {R : RandomState} {P : PIL} src tr va te trr vr :
  effect (fun p => under tr p \/ under va p \/ under te p)
         (split_data src tr va te trr vr).
Proof.
  unfold split_data. apply effect_bind; [apply effect_listdir|].
  intros classes. apply effect_for_each. intros y _.
  eapply effect_weaken; [|apply effect_split_class].
  intros p Hp. exists p. split; [|apply prefixb_refl].
  unfold under_targets, under, join in *.
  destruct Hp as [Hp|[Hp|Hp]]; [left | right; left | right; right];
    (eapply prefixb_trans; [apply prefixb_app | exact Hp]).
Qed.

(** C7: with the three target roots outside the source root, the tree
    under the source root is after [split_data] what it was before,
    however the run ends: no file of it is deleted or changed; and a
    copy loop that ran to its end has left every file of its list in
    the source class directory and put the same bytes under the same
    name in the class directory of its target root (which [os.makedirs]
    has created), when no directory was in the way. *)
Theorem split_data_copies_and_keeps_source :
  forall (R : RandomState) (P : PIL)
         (source_dir train_dir val_dir test_dir : path)
         (train_ratio val_ratio : Float64.float),
    apart source_dir train_dir = true ->
    apart source_dir val_dir = true ->
    apart source_dir test_dir = true ->
    (forall w r w',
        split_data source_dir train_dir val_dir test_dir train_ratio val_ratio w
        = (r, w') ->
        fs_get source_dir (fs w') = fs_get source_dir (fs w)) /\
    (forall dest_dir class_name imgs w w' img_name,
        In dest_dir [train_dir; val_dir; test_dir] ->
        (forall n, In n imgs ->
           is_dir (fs_get (join (join dest_dir class_name) n) (fs w)) = false) ->
        copy_images (join source_dir class_name) dest_dir class_name imgs w
        = (Ok tt, w') ->
        In img_name imgs ->
        exists b,
          fs_get (join (join source_dir class_name) img_name) (fs w)
          = Some (File b) /\
          fs_get (join (join source_dir class_name) img_name) (fs w')
          = Some (File b) /\
          fs_get (join (join dest_dir class_name) img_name) (fs w')
          = Some (File b) /\
          is_dir (fs_get (join dest_dir class_name) (fs w')) = true).
Proof.
  intros R P src tr va te trr vr Ha1 Ha2 Ha3. split.
  - intros w r w' H. apply effect_split_data in H. destruct H as [Hf _].
    apply Hf. intros p [Hp|[Hp|Hp]]; apply prefixb_spec in Hp;
      destruct Hp as [l ->]; apply apart_under; assumption.
  - intros d c imgs w w' n Hd Hslots H Hin.
    assert (Ha : apart (join src c) d = true).
    { unfold join. apply apart_app_l.
      destruct Hd as [<-|[<-|[<-|[]]]]; assumption. }
    destruct (copy_images_copies (join src c) d c imgs w Ha Hslots w' n H Hin)
      as (b & Hb1 & Hb2 & Hb3).
    exists b. repeat split; try assumption.
    unfold join at 1 in Hb3. rewrite fs_get_app in Hb3.
    destruct (fs_get (join d c) (fs w')) as [[b'|es]|]; try discriminate.
    reflexivity.
Qed.

(** ** Creation of the class directories *)

Section ClassDirs.

Context {R : RandomState} {P : PIL}.

(** A copy loop creates the class directory exactly when its list is
    not empty. *)
Lemma copy_images_creates cp d c imgs w r w' :
  is_dir (fs_get d (fs w)) = true ->
  fs_get (join d c) (fs w) = None ->
  copy_images cp d c imgs w = (r, w') ->
  (is_dir (fs_get (join d c) (fs w')) = true <-> imgs <> []).
Proof.
  intros Hd Hn H. destruct imgs as [|n rest].
  - inversion H; subst. rewrite Hn. simpl. split; [discriminate | congruence].
  - split; [discriminate|]. intros _.
    unfold copy_images in H. rewrite for_each_cons in H.
    assert (Hgrow : exists w1,
               is_dir (fs_get (join d c) (fs w1)) = true /\ grows w1 w').
    { apply bind_inv in H. destruct H as [([] & w2 & H1 & H2)|(e & H1 & _)].
      - apply bind_inv in H1.
        destruct H1 as [([] & w1 & H0 & H1)|(e & H0 & He)]; [|discriminate].
        exists w1. split; [eapply makedirs_is_dir; eauto|].
        apply effect_copy in H1. destruct H1 as [_ Hg1].
        eapply grows_trans; [exact Hg1|].
        change (copy_images cp d c rest w2 = (r, w')) in H2.
        apply effect_copy_images in H2. apply H2.
      - apply bind_inv in H1.
        destruct H1 as [([] & w1 & H0 & H1)|(e' & H0 & He)].
        + exists w1. split; [eapply makedirs_is_dir; eauto|].
          apply effect_copy in H1. apply H1.
        + rewrite (makedirs_creates d c w Hd Hn) in H0. discriminate. }
    destruct Hgrow as (w1 & Hdir & Hg). apply Hg. exact Hdir.
Qed.

Lemma standardize_class_creates src tgt sz c w w' :
  is_dir (fs_get (join src c) (fs w)) = true ->
  standardize_class src tgt sz c w = (Ok tt, w') ->
  is_dir (fs_get (join tgt c) (fs w')) = true.
Proof.
  intros Hd H. unfold standardize_class in H.
  apply bind_inv in H. destruct H as [(d & w1 & H1 & H)|(e & _ & He)];
    [|discriminate].
  inversion H1; subst w1 d. clear H1. rewrite Hd in H. simpl in H.
  apply bind_inv in H. destruct H as [([] & w1 & H1 & H)|(e & _ & He)];
    [|discriminate].
  apply makedirs_is_dir in H1.
  apply bind_inv in H. destruct H as [(imgs & w2 & H2 & H)|(e & _ & He)];
    [|discriminate].
  apply os_listdir_inv in H2. destruct H2 as [-> _].
  eapply (effect_for_each (under (join tgt c))) in H.
  - destruct H as [_ Hg]. apply Hg. exact H1.
  - intros n _. eapply effect_weaken; [|apply effect_standardize_image].
    intros p <-. exists (join (join tgt c) n).
    split; [apply prefixb_app | apply prefixb_refl].
Qed.

Lemma standardize_images_creates src tgt sz c w w' :
  is_dir (fs_get (join src c) (fs w)) = true ->
  standardize_images src tgt sz w = (Ok tt, w') ->
  is_dir (fs_get (join tgt c) (fs w')) = true.
Proof.
  intros Hd H. unfold standardize_images in H.
  apply bind_inv in H. destruct H as [(classes & w1 & H1 & H)|(e & _ & He)];
    [|discriminate].
  apply os_listdir_inv in H1. destruct H1 as (-> & es & Hes & ->).
  assert (Hin : In c (names es)).
  { unfold join in Hd. rewrite fs_get_app, Hes in Hd. simpl in Hd.
    destruct (get_entry c es) eqn:E; [|discriminate].
    eapply get_entry_In; eauto. }
  revert H.
  apply (for_each_post
           (fun u => is_dir (fs_get (join src c) (fs u)) = true)
           (fun u => is_dir (fs_get (join tgt c) (fs u)) = true)
           (names es) _ c Hin); auto.
  - intros y u r u' _ Hu Hy. apply effect_standardize_class in Hy.
    apply Hy. exact Hu.
  - intros u u' Hu Hc. eapply standardize_class_creates; eauto.
  - intros y u u' _ _ HQ Hy. apply effect_standardize_class in Hy.
    apply Hy. exact HQ.
Qed.

End ClassDirs.

(** *** The three class directories of a class in [split_data] *)

Section ClassDirsSplit.

Context {R : RandomState} {P : PIL} {L : RandomStateLaws R}.

(** The parts that the split function returns are not empty. *)
Lemma split_images_parts images trr vr u train val test u1 :
  split_images images trr vr u = (Ok (train, val, test), u1) ->
  train <> [] /\ val <> [] /\ test <> [].
Proof.
  intros H. apply split_images_inv in H. destruct H as (temp & w1 & H1 & H2).
  apply train_test_split_inv in H1, H2.
  destruct H1 as (n1 & m1 & p1 & _ & Hn1 & _ & _ & _ & _ & _ & Hl1 & _).
  destruct H2 as (n2 & m2 & p2 & _ & Hn2 & Hm2 & _ & _ & _ & _ & Hl2 & Hk2 & _).
  repeat split; intros ->; simpl in *; lia.
Qed.

(** A copy loop that returns has made the class directory, unless its
    list is empty. *)
Lemma copy_images_made cp d c imgs u u' :
  copy_images cp d c imgs u = (Ok tt, u') -> imgs <> [] ->
  is_dir (fs_get (join d c) (fs u')) = true.
Proof.
  intros H Hne. destruct imgs as [|n rest]; [congruence|].
  unfold copy_images in H. rewrite for_each_cons in H.
  apply bind_inv in H. destruct H as [([] & u2 & H1 & H2)|(e & _ & He)];
    [|discriminate].
  apply bind_inv in H1. destruct H1 as [([] & u1 & H0 & H1)|(e & _ & He)];
    [|discriminate].
  apply makedirs_is_dir in H0.
  apply effect_copy in H1. destruct H1 as [_ Hg1].
  change (copy_images cp d c rest u2 = (Ok tt, u')) in H2.
  apply effect_copy_images in H2. destruct H2 as [_ Hg2].
  apply Hg2, Hg1. exact H0.
Qed.

(** A class directory of the source, in a run of the loop body that
    returns. *)
Lemma split_class_made src tr va te trr vr c u u' :
  is_dir (fs_get (join src c) (fs u)) = true ->
  split_class src tr va te trr vr c u = (Ok tt, u') ->
  is_dir (fs_get (join tr c) (fs u')) = true /\
  is_dir (fs_get (join va c) (fs u')) = true /\
  is_dir (fs_get (join te c) (fs u')) = true.
Proof.
  intros Hd H. unfold split_class in H. cbv zeta in H.
  apply bind_inv in H. destruct H as [(d & u0 & H0 & H)|(e & _ & He)];
    [|discriminate].
  inversion H0; subst u0 d. clear H0. rewrite Hd in H. simpl in H.
  apply bind_inv in H. destruct H as [(imgs & u0 & H0 & H)|(e & _ & He)];
    [|discriminate].
  apply os_listdir_inv in H0. destruct H0 as [-> _].
  apply bind_inv in H.
  destruct H as [([[train val] test] & u1 & Hsp & H)|(e & _ & He)];
    [|discriminate].
  destruct (split_images_parts _ _ _ _ _ _ _ _ Hsp) as (Ht & Hv & He).
  simpl fst in H. simpl snd in H.
  apply bind_inv in H. destruct H as [([] & u2 & H2 & H)|(e & _ & He')];
    [|discriminate].
  apply bind_inv in H. destruct H as [([] & u3 & H3 & H4)|(e & _ & He')];
    [|discriminate].
  pose proof (copy_images_made _ _ _ _ _ _ H2 Ht) as D2.
  pose proof (copy_images_made _ _ _ _ _ _ H3 Hv) as D3.
  pose proof (copy_images_made _ _ _ _ _ _ H4 He) as D4.
  apply effect_copy_images in H3, H4.
  destruct H3 as [_ G3]. destruct H4 as [_ G4].
  split; [apply G4, G3; exact D2|]. split; [apply G4; exact D3 | exact D4].
Qed.

(** A whole run that returns. *)
Lemma split_data_made src tr va te trr vr c w w' :
  is_dir (fs_get (join src c) (fs w)) = true ->
  split_data src tr va te trr vr w = (Ok tt, w') ->
  is_dir (fs_get (join tr c) (fs w')) = true /\
  is_dir (fs_get (join va c) (fs w')) = true /\
  is_dir (fs_get (join te c) (fs w')) = true.
Proof.
  intros Hd H. unfold split_data in H.
  apply bind_inv in H. destruct H as [(classes & w1 & H1 & H)|(e & _ & He)];
    [|discriminate].
  apply os_listdir_inv in H1. destruct H1 as (-> & es & Hes & ->).
  assert (Hin : In c (names es)).
  { unfold join in Hd. rewrite fs_get_app, Hes in Hd. simpl in Hd.
    destruct (get_entry c es) eqn:E; [|discriminate].
    eapply get_entry_In; eauto. }
  revert H.
  apply (for_each_post
           (fun u => is_dir (fs_get (join src c) (fs u)) = true)
           (fun u => is_dir (fs_get (join tr c) (fs u)) = true /\
                     is_dir (fs_get (join va c) (fs u)) = true /\
                     is_dir (fs_get (join te c) (fs u)) = true)
           (names es) _ c Hin); auto.
  - intros y u r u' _ Hu Hy. apply effect_split_class in Hy.
    apply Hy. exact Hu.
  - intros u u' Hu Hc. eapply split_class_made; eauto.
  - intros y u u' _ _ (Q1 & Q2 & Q3) Hy. apply effect_split_class in Hy.
    destruct Hy as [_ Hg]. auto.
Qed.

Variables (src tr va te : path) (trr vr : Float64.float) (c : string).

Hypothesis Htv : apart tr va = true.
Hypothesis Htt : apart tr te = true.
Hypothesis Hvt : apart va te = true.

(** A copy loop leaves the class directories of the other roots as
    they are. *)
Lemma copy_images_elsewhere cp d d' imgs u r u' :
  apart d' d = true ->
  copy_images cp d c imgs u = (r, u') ->
  fs_get (join d' c) (fs u') = fs_get (join d' c) (fs u).
Proof.
  intros Ha H. apply effect_copy_images in H. destruct H as [Hf _].
  apply Hf. intros p Hp. apply prefixb_spec in Hp. destruct Hp as [l ->].
  unfold join. rewrite <- app_assoc.
  apply apart_under. apply apart_app_l. exact Ha.
Qed.

(** The loop body on a class directory of the source, where the three
    roots are directories without a directory of the class: which of
    the three class directories are there afterwards. *)
Lemma split_class_dirs es u r u' :
  (forall d, In d [tr; va; te] ->
             is_dir (fs_get d (fs u)) = true /\
             fs_get (join d c) (fs u) = None) ->
  fs_get (join src c) (fs u) = Some (Dir es) ->
  split_class src tr va te trr vr c u = (r, u') ->
  match split_images (names es) trr vr u with
  | (Raise e, _) =>
      r = Raise e /\
      forall d, In d [tr; va; te] -> fs_get (join d c) (fs u') = None
  | (Ok (train, val, test), u1) =>
      train <> [] /\ val <> [] /\ test <> [] /\
      is_dir (fs_get (join tr c) (fs u')) = true /\
      (is_dir (fs_get (join va c) (fs u')) = true <->
       exists u2, copy_images (join src c) tr c train u1 = (Ok tt, u2)) /\
      (is_dir (fs_get (join te c) (fs u')) = true <->
       exists u2 u3,
         copy_images (join src c) tr c train u1 = (Ok tt, u2) /\
         copy_images (join src c) va c val u2 = (Ok tt, u3))
  end.
Proof using Htv Htt Hvt L.
  intros Hroots Hes H.
  assert (Htv' : apart va tr = true) by (rewrite apart_sym; exact Htv).
  assert (Htt' : apart te tr = true) by (rewrite apart_sym; exact Htt).
  assert (Hvt' : apart te va = true) by (rewrite apart_sym; exact Hvt).
  destruct (Hroots tr (or_introl eq_refl)) as [Dtr Ntr].
  destruct (Hroots va (or_intror (or_introl eq_refl))) as [Dva Nva].
  destruct (Hroots te (or_intror (or_intror (or_introl eq_refl)))) as [Dte Nte].
  unfold split_class in H. cbv zeta in H.
  apply bind_inv in H. destruct H as [(d & u0 & H0 & H)|(e & H0 & _)];
    [|inversion H0].
  inversion H0; subst u0 d. clear H0. rewrite Hes in H. simpl in H.
  apply bind_inv in H. destruct H as [(imgs & u0 & H0 & H)|(e & H0 & _)].
  2:{ unfold os_listdir in H0. rewrite Hes in H0. discriminate. }
  unfold os_listdir in H0. rewrite Hes in H0. inversion H0; subst u0 imgs.
  clear H0.
  destruct (split_images (names es) trr vr u) as [[[[train val] test]|e] u1]
    eqn:Hsp.
  2:{ unfold bind in H. rewrite Hsp in H. inversion H; subst r u'.
      split; [reflexivity|].
      apply (effect_split_images (fun _ => False)) in Hsp.
      destruct Hsp as [Hf _].
      intros d Hd. rewrite Hf by (intros p []). apply Hroots. exact Hd. }
  rewrite (bind_ok _ _ _ _ _ Hsp) in H. simpl fst in H. simpl snd in H.
  destruct (split_images_parts _ _ _ _ _ _ _ _ Hsp) as (Ht & Hv & He).
  apply (effect_split_images (fun _ => False)) in Hsp. destruct Hsp as [Hf _].
  assert (Hsame : forall q, fs_get q (fs u1) = fs_get q (fs u))
    by (intros q; apply Hf; intros p []).
  split; [exact Ht|]. split; [exact Hv|]. split; [exact He|].
  destruct (copy_images (join src c) tr c train u1) as [r1 u2] eqn:E1.
  assert (C1 : is_dir (fs_get (join tr c) (fs u2)) = true).
  { apply (copy_images_creates _ _ _ _ _ _ _
             ltac:(rewrite Hsame; exact Dtr) ltac:(rewrite Hsame; exact Ntr) E1).
    exact Ht. }
  pose proof (copy_images_elsewhere _ _ va _ _ _ _ Htv' E1) as Eva.
  pose proof (copy_images_elsewhere _ _ te _ _ _ _ Htt' E1) as Ete.
  rewrite Hsame in Eva, Ete.
  pose proof (proj2 (effect_copy_images _ _ _ _ _ _ _ E1)) as G1.
  destruct r1 as [[]|e1].
  2:{ unfold bind in H. rewrite E1 in H. inversion H; subst r u'.
      split; [exact C1|]. split.
      - rewrite Eva, Nva. split; [discriminate|]. intros [x Hx]. discriminate.
      - rewrite Ete, Nte. split; [discriminate|].
        intros (x & y & Hx & _). discriminate. }
  rewrite (bind_ok _ _ _ _ _ E1) in H.
  destruct (copy_images (join src c) va c val u2) as [r2 u3] eqn:E2.
  assert (C2 : is_dir (fs_get (join va c) (fs u3)) = true).
  { apply (copy_images_creates _ _ _ _ _ _ _
             ltac:(apply G1; rewrite Hsame; exact Dva)
             ltac:(rewrite Eva; exact Nva) E2).
    exact Hv. }
  pose proof (copy_images_elsewhere _ _ te _ _ _ _ Hvt' E2) as Ete2.
  rewrite Ete in Ete2.
  pose proof (proj2 (effect_copy_images _ _ _ _ _ _ _ E2)) as G2.
  destruct r2 as [[]|e2].
  2:{ unfold bind in H. rewrite E2 in H. inversion H; subst r u'.
      split; [apply G2; exact C1|]. split.
      - split; [eauto | intros _; exact C2].
      - rewrite Ete2, Nte. split; [discriminate|].
        intros (x & y & Hx & Hy). inversion Hx; subst x.
        rewrite E2 in Hy. discriminate. }
  rewrite (bind_ok _ _ _ _ _ E2) in H.
  assert (C3 : is_dir (fs_get (join te c) (fs u')) = true).
  { apply (copy_images_creates _ _ _ _ _ _ _
             ltac:(apply G2, G1; rewrite Hsame; exact Dte)
             ltac:(rewrite Ete2; exact Nte) H).
    exact He. }
  pose proof (proj2 (effect_copy_images _ _ _ _ _ _ _ H)) as G3.
  split; [apply G3, G2; exact C1|]. split.
  - split; [eauto | intros _; apply G3; exact C2].
  - split; [eauto | intros _; exact C3].
Qed.

End ClassDirsSplit.

(** C10: in a run of [split_data] that returns, every class directory
    of the source has its directory under each of the three target
    roots, each of the three lists of the class holding a name.  The
    directory is made by its own copy loop: the loop body of
    [split_data], on a class directory of the source and where the
    three roots (outside each other) are directories without a
    directory of the class, makes none of the three when the split
    function raises and no list is produced; when the lists are
    produced, none of them is empty, the directory under the train
    root is there afterwards, the one under the validation root is
    there exactly when the train loop returned, and the one under the
    test root exactly when the train and the validation loop returned.
    A copy loop, started where the target root is a directory without
    the class directory, leaves the class directory there exactly when
    its list of files is not empty, however the loop ends.  A run of
    [standardize_images] that returns has made the target class
    directory of every class directory of the source, whether or not a
    file of the class was converted. *)
Theorem class_directory_creation :
  forall (R : RandomState) (P : PIL) (L : RandomStateLaws R),
    (forall (source_dir train_dir val_dir test_dir : path)
            (train_ratio val_ratio : Float64.float)
            (class_name : string) (w w' : World),
        is_dir (fs_get (join source_dir class_name) (fs w)) = true ->
        split_data source_dir train_dir val_dir test_dir train_ratio val_ratio w
        = (Ok tt, w') ->
        is_dir (fs_get (join train_dir class_name) (fs w')) = true /\
        is_dir (fs_get (join val_dir class_name) (fs w')) = true /\
        is_dir (fs_get (join test_dir class_name) (fs w')) = true) /\
    (forall (source_dir train_dir val_dir test_dir : path)
            (train_ratio val_ratio : Float64.float)
            (class_name : string) (es : entries_t) (w w' : World)
            (r : result unit),
        apart train_dir val_dir = true ->
        apart train_dir test_dir = true ->
        apart val_dir test_dir = true ->
        (forall d, In d [train_dir; val_dir; test_dir] ->
                   is_dir (fs_get d (fs w)) = true /\
                   fs_get (join d class_name) (fs w) = None) ->
        fs_get (join source_dir class_name) (fs w) = Some (Dir es) ->
        split_class source_dir train_dir val_dir test_dir train_ratio val_ratio
          class_name w = (r, w') ->
        match split_images (names es) train_ratio val_ratio w with
        | (Raise e, _) =>
            r = Raise e /\
            forall d, In d [train_dir; val_dir; test_dir] ->
                      fs_get (join d class_name) (fs w') = None
        | (Ok (train, val, test), w1) =>
            train <> [] /\ val <> [] /\ test <> [] /\
            is_dir (fs_get (join train_dir class_name) (fs w')) = true /\
            (is_dir (fs_get (join val_dir class_name) (fs w')) = true <->
             exists w2,
               copy_images (join source_dir class_name) train_dir class_name
                 train w1 = (Ok tt, w2)) /\
            (is_dir (fs_get (join test_dir class_name) (fs w')) = true <->
             exists w2 w3,
               copy_images (join source_dir class_name) train_dir class_name
                 train w1 = (Ok tt, w2) /\
               copy_images (join source_dir class_name) val_dir class_name
                 val w2 = (Ok tt, w3))
        end) /\
    (forall (class_path dest_dir : path) (class_name : string)
            (imgs : list string) (w : World) r w',
        is_dir (fs_get dest_dir (fs w)) = true ->
        fs_get (join dest_dir class_name) (fs w) = None ->
        copy_images class_path dest_dir class_name imgs w = (r, w') ->
        (is_dir (fs_get (join dest_dir class_name) (fs w')) = true
         <-> imgs <> [])) /\
    (forall (source_dir target_dir : path) (size : nat * nat)
            (class_name : string) (w w' : World),
        is_dir (fs_get (join source_dir class_name) (fs w)) = true ->
        standardize_images source_dir target_dir size w = (Ok tt, w') ->
        is_dir (fs_get (join target_dir class_name) (fs w')) = true).
Proof.
  intros R P L. split; [|split; [|split]].
  - intros src tr va te trr vr c w w' Hd H.
    eapply split_data_made; eauto.
  - intros src tr va te trr vr c es w w' r Htv Htt Hvt Hroots Hes H.
    exact (split_class_dirs src tr va te trr vr c Htv Htt Hvt es w r w'
             Hroots Hes H).
  - intros cp d c imgs w r w'. apply copy_images_creates.
  - intros src tgt sz c w w'. apply standardize_images_creates.
Qed.

(** ** Data cleaning *)

Lemma fs_get_parent_dir p root x :
  p <> [] -> fs_get p root = Some x -> is_dir (fs_get (removelast p) root) = true.
Proof.
  intros Hp H. destruct (path_snoc _ Hp) as (q & y & ->).
  rewrite removelast_join. rewrite fs_get_app in H.
  destruct (fs_get q root) as [[b|es]|]; simpl in H; try discriminate.
  reflexivity.
Qed.

(** Removing a file: paths of the same depth are untouched. *)
Lemma fs_remove_slot p q b root :
  fs_get p root = Some (File b) -> List.length q = List.length p ->
  (q = p /\ fs_get q (fs_set p None root) = None) \/
  (q <> p /\ fs_get q (fs_set p None root) = fs_get q root).
Proof.
  intros Hb Hl.
  assert (Hp : p <> []) by (intros ->; discriminate).
  destruct (list_eq_dec string_dec q p) as [->|Hne].
  - left. split; [reflexivity|]. apply fs_get_set_same; [exact Hp|].
    eapply fs_get_parent_dir; eauto.
  - right. split; [exact Hne|]. apply fs_get_set_frame; auto.
    + destruct (prefixb q p) eqn:E; [|reflexivity].
      apply prefixb_same_length in E; [contradiction | exact Hl].
    + rewrite Hb. reflexivity.
Qed.

Section Clean.

Context {R : RandomState} {P : PIL}.

Lemma verify_image_inv p w r w' :
  verify_image p w = (r, w') ->
  w' = w /\
  ((exists b, fs_get p (fs w) = Some (File b) /\ r = verifies b) \/
   ((forall b, fs_get p (fs w) <> Some (File b)) /\ exists e, r = Raise e)).
Proof.
  unfold verify_image. intros H. apply bind_inv in H.
  destruct H as [(img & w1 & H1 & H2)|(e & H1 & ->)].
  - apply Image_open_inv in H1. destruct H1 as (-> & b & Hb & Himg).
    inversion H2; subst. split; [reflexivity|]. left. exists b.
    split; [exact Hb|]. unfold verifies. rewrite Himg. reflexivity.
  - unfold Image_open in H1. apply bind_inv in H1.
    destruct H1 as [(b & w1 & H1 & H2)|(e' & H1 & He)].
    + apply read_file_inv in H1. destruct H1 as [-> Hb].
      inversion H2; subst. split; [reflexivity|]. left. exists b.
      split; [exact Hb|]. unfold verifies. rewrite H0. reflexivity.
    + apply read_file_inv in H1. destruct H1 as [-> Hb]. inversion He; subst.
      split; [reflexivity|]. right. split; [exact Hb | eauto].
Qed.

(** The three ways an iteration of the inner loop can go: the file
    verifies and stays; it does not, is reported and removed; or the
    entry is not a file, is reported, and [os.remove] raises. *)
Lemma clean_image_inv cp n w r w' :
  clean_image cp n w = (r, w') ->
  (exists b, fs_get (join cp n) (fs w) = Some (File b) /\
             verifies b = Ok tt /\ r = Ok tt /\ w' = w) \/
  (exists b e, fs_get (join cp n) (fs w) = Some (File b) /\
               verifies b = Raise e /\ r = Ok tt /\
               w' = mkWorld (fs_set (join cp n) None (fs w))
                      (stdout w ++ [removal_line (join cp n) e])
                      (np_random w)) \/
  (exists e e', (forall b, fs_get (join cp n) (fs w) <> Some (File b)) /\
                r = Raise e' /\
                w' = mkWorld (fs w)
                       (stdout w ++ [removal_line (join cp n) e])
                       (np_random w)).
Proof.
  unfold clean_image. intros H. apply try_except_inv in H.
  destruct H as [([] & H1 & ->)|(e & w1 & H1 & H2)].
  - apply verify_image_inv in H1.
    destruct H1 as [-> [(b & Hb & Hd)|(_ & e & He)]]; [|discriminate].
    left. exists b. symmetry in Hd. auto.
  - apply verify_image_inv in H1. destruct H1 as [-> Hcase].
    apply bind_inv in H2.
    destruct H2 as [([] & w2 & Hp & Hrm)|(e' & Hp & _)]; [|inversion Hp].
    inversion Hp; subst w2. clear Hp.
    apply os_remove_inv in Hrm. simpl fs in Hrm.
    destruct Hrm as [(-> & (b & Hb) & ->)|(e' & -> & -> & Hnf)].
    + destruct Hcase as [(b' & Hb' & Hd)|(Hnf & _)]; [|destruct (Hnf b Hb)].
      right. left. exists b, e. rewrite Hb in Hb'. inversion Hb'; subst b'.
      symmetry in Hd. auto.
    + right. right. exists e, e'. auto.
Qed.

Variables (src : path) (c n : string) (o : option node).

Let q : path := join (join src c) n.

Let J (u : World) : Prop := fs_get q (fs u) = o \/ cleaned o q u.

Lemma clean_image_J y n' u r u' :
  J u -> clean_image (join src y) n' u = (r, u') ->
  J u' /\ (cleaned o q u -> cleaned o q u') /\
  (r = Ok tt -> y = c -> n' = n -> cleaned o q u').
Proof.
  intros HJ H. apply clean_image_inv in H.
  destruct H as [(b & Hb & Hd & -> & ->)
                |[(b & e & Hb & Hd & -> & ->)|(e & e' & Hnf & -> & ->)]].
  - split; [exact HJ|]. split; [auto|]. intros _ -> ->.
    destruct HJ as [Hpre|Hpost]; [|exact Hpost].
    fold q in Hb. rewrite Hb in Hpre. subst o. simpl. auto.
  - assert (Hl : List.length q = List.length (join (join src y) n')).
    { unfold q. rewrite !length_join. reflexivity. }
    destruct (fs_remove_slot _ q b (fs u) Hb Hl) as [[E1 E2]|[E1 E2]].
    + (* the entry itself is removed *)
      rewrite <- E1 in Hb.
      assert (Hpost : fs_get q (fs u) = o -> cleaned o q
                (mkWorld (fs_set (join (join src y) n') None (fs u))
                   (stdout u ++ [removal_line (join (join src y) n') e])
                   (np_random u))).
      { intros Hpre. rewrite Hb in Hpre. subst o. simpl. right.
        exists e. split; [exact Hd|]. split; [exact E2|].
        rewrite <- E1. apply in_or_app. right. left. reflexivity. }
      assert (Hno : cleaned o q u -> False).
      { unfold cleaned. destruct o as [[b0|es]|]; auto.
        - intros [[Hd0 Hq]|(e0 & _ & Hq & _)]; rewrite Hb in Hq;
            [inversion Hq; subst b0; congruence | discriminate].
        - rewrite Hb. discriminate. }
      split; [|split].
      * destruct HJ as [Hpre|Hp]; [right; auto | destruct (Hno Hp)].
      * intros Hp. destruct (Hno Hp).
      * intros _ _ _. destruct HJ as [Hpre|Hp]; [auto | destruct (Hno Hp)].
    + (* another entry is removed *)
      assert (Hkeep : cleaned o q u -> cleaned o q
                (mkWorld (fs_set (join (join src y) n') None (fs u))
                   (stdout u ++ [removal_line (join (join src y) n') e])
                   (np_random u))).
      { unfold cleaned. simpl fs. simpl stdout. rewrite E2.
        destruct o as [[b0|es]|]; auto.
        intros [H|(e0 & H1 & H2 & H3)]; [left; exact H|].
        right. exists e0. split; [exact H1|]. split; [exact H2|].
        apply in_or_app. left. exact H3. }
      split; [|split].
      * destruct HJ as [Hpre|Hp]; [left; simpl; rewrite E2; exact Hpre | right; auto].
      * exact Hkeep.
      * intros _ -> ->. destruct E1. reflexivity.
  - assert (Hkeep : cleaned o q u -> cleaned o q
              (mkWorld (fs u)
                 (stdout u ++ [removal_line (join (join src y) n') e])
                 (np_random u))).
    { unfold cleaned. simpl fs. simpl stdout.
      destruct o as [[b0|es]|]; auto.
      intros [H|(e0 & H1 & H2 & H3)]; [left; exact H|].
      right. exists e0. split; [exact H1|]. split; [exact H2|].
      apply in_or_app. left. exact H3. }
    split; [|split].
    + destruct HJ as [Hpre|Hp]; [left; exact Hpre | right; auto].
    + exact Hkeep.
    + discriminate.
Qed.

Lemma clean_class_J y u r u' :
  J u -> clean_class src y u = (r, u') ->
  J u' /\ (cleaned o q u -> cleaned o q u').
Proof.
  intros HJ H. unfold clean_class in H.
  apply bind_inv in H. destruct H as [(d & u1 & H1 & H)|(e & H1 & _)];
    [|inversion H1].
  inversion H1; subst u1 d. clear H1.
  destruct (negb _); [inversion H; subst; auto|].
  apply bind_inv in H. destruct H as [(imgs & u1 & H1 & H)|(e & H1 & _)].
  2:{ apply os_listdir_inv in H1. destruct H1 as [-> _]. auto. }
  apply os_listdir_inv in H1. destruct H1 as [-> _].
  apply (for_each_inv (fun x => J x /\ (cleaned o q u -> cleaned o q x))) in H;
    auto.
  intros n' x r' x' _ [HJx HQx] Hn'.
  destruct (clean_image_J _ _ _ _ _ HJx Hn') as (HJ' & HQ' & _). auto.
Qed.

Lemma clean_class_establishes u u' :
  J u -> clean_class src c u = (Ok tt, u') -> cleaned o q u'.
Proof.
  intros HJ H.
  destruct HJ as [Hpre|Hpost];
    [|eapply (proj2 (clean_class_J _ _ _ _ (or_intror Hpost) H)); exact Hpost].
  unfold clean_class in H.
  apply bind_inv in H. destruct H as [(d & u1 & H1 & H)|(e & _ & He)];
    [|discriminate].
  inversion H1; subst u1 d. clear H1.
  destruct (fs_get (join src c) (fs u)) as [[b0|es]|] eqn:Ec; simpl in H.
  - inversion H; subst u'.
    assert (Hnone : fs_get q (fs u) = None).
    { unfold q. unfold join at 1. rewrite fs_get_app, Ec. reflexivity. }
    rewrite <- Hpre. rewrite Hnone at 1. exact Hnone.
  - apply bind_inv in H. destruct H as [(imgs & u1 & H1 & H)|(e & _ & He)];
      [|discriminate].
    apply os_listdir_inv in H1. destruct H1 as (-> & es' & Hes' & ->).
    rewrite Ec in Hes'. inversion Hes'; subst es'.
    destruct (get_entry n es) as [v|] eqn:En.
    + assert (Hin : In n (names es)) by (eapply get_entry_In; eauto).
      revert H.
      apply (for_each_post J (cleaned o q) (names es) _ n Hin).
      * intros n' x r' x' _ HJx Hn'.
        exact (proj1 (clean_image_J _ _ _ _ _ HJx Hn')).
      * intros x x' HJx Hn'.
        exact (proj2 (proj2 (clean_image_J _ _ _ _ _ HJx Hn'))
                 eq_refl eq_refl eq_refl).
      * intros n' x x' _ HJx HQx Hn'.
        exact (proj1 (proj2 (clean_image_J _ _ _ _ _ HJx Hn')) HQx).
      * left. exact Hpre.
    + assert (Hnone : fs_get q (fs u) = None).
      { unfold q. unfold join at 1. rewrite fs_get_app, Ec. simpl.
        rewrite En. reflexivity. }
      assert (Hpost : cleaned o q u).
      { rewrite <- Hpre. rewrite Hnone at 1. exact Hnone. }
      apply (for_each_inv (fun x => J x /\ cleaned o q x)) in H.
      * apply H.
      * intros n' x r' x' _ [HJx HQx] Hn'.
        destruct (clean_image_J _ _ _ _ _ HJx Hn') as (HJ' & HQ' & _). auto.
      * split; [left; exact Hpre | exact Hpost].
  - inversion H; subst u'.
    assert (Hnone : fs_get q (fs u) = None).
    { unfold q. unfold join at 1. rewrite fs_get_app, Ec. reflexivity. }
    rewrite <- Hpre. rewrite Hnone at 1. exact Hnone.
Qed.

Lemma clean_data_cleaned w w' :
  fs_get q (fs w) = o -> clean_data src w = (Ok tt, w') -> cleaned o q w'.
Proof.
  intros Hpre H. unfold clean_data in H.
  apply bind_inv in H. destruct H as [(classes & w1 & H1 & H)|(e & _ & He)];
    [|discriminate].
  apply os_listdir_inv in H1. destruct H1 as (-> & es & Hes & ->).
  destruct (get_entry c es) as [v|] eqn:Ec.
  - assert (Hin : In c (names es)) by (eapply get_entry_In; eauto).
    revert H. apply (for_each_post J (cleaned o q) (names es) _ c Hin).
    + intros y u r u' _ HJu Hy. eapply clean_class_J; eauto.
    + intros u u' HJu Hc. eapply clean_class_establishes; eauto.
    + intros y u u' _ HJu HQu Hy.
      apply (proj2 (clean_class_J _ _ _ _ HJu Hy)). exact HQu.
    + left. exact Hpre.
  - assert (Hnone : fs_get q (fs w) = None).
    { unfold q. rewrite join_join, fs_get_app, Hes. simpl. rewrite Ec.
      reflexivity. }
    assert (Hpost : cleaned o q w).
    { rewrite <- Hpre. rewrite Hnone at 1. exact Hnone. }
    apply (for_each_inv (fun x => J x /\ cleaned o q x)) in H.
    + apply H.
    + intros y u r u' _ [HJu HQu] Hy.
      destruct (clean_class_J _ _ _ _ HJu Hy) as (HJ' & HQ'). auto.
    + split; [left; exact Hpre | exact Hpost].
Qed.


End Clean.

(** *** [clean_data] returns *)

Section CleanReturns.

Context {R : RandomState} {P : PIL}.

(** A loop returns when each iteration returns and hands over to the
    next what it needs. *)
Lemma for_each_returns {A} (I : list A -> World -> Prop) (body : A -> M unit) :
  (forall x rest u, I (x :: rest) u ->
                    exists u', body x u = (Ok tt, u') /\ I rest u') ->
  forall xs w, I xs w -> exists w', for_each xs body w = (Ok tt, w') /\ I [] w'.
Proof.
  intros Hb. induction xs as [|x xs IH]; intros w HI.
  - exists w. split; [reflexivity | exact HI].
  - destruct (Hb _ _ _ HI) as (u' & Hx & HI').
    destruct (IH _ HI') as (w' & Hr & HI'').
    exists w'. split; [|exact HI''].
    rewrite for_each_cons. eapply bind_step; eauto.
Qed.

(** What is still to be visited in a class directory: files, under
    distinct names. *)
Let todo (cp : path) (rest : list string) (u : World) : Prop :=
  NoDup rest /\
  forall n, In n rest -> is_file (fs_get (join cp n) (fs u)) = true.





End CleanReturns.


(** ** The passes run on small trees *)



Lemma standardize_images_output_witness :
  (exists w' : @World Toy.toy_rng,
     standardize_images Toy.raw Toy.processed default_image_size
       (Toy.world0 Toy.raw_tree) = (Ok tt, w') /\
     fs_get (join (join Toy.processed "fox") "a.jpg") (fs w')
     = Some (File Toy.img_224) /\
     exists out, Toy.toy_open Toy.img_224 = Ok out /\ out = (224, 224)%nat) /\
  (let w := snd (os_makedirs (R := Toy.toy_rng) (join Toy.processed "fox")
                   (Toy.world0 Toy.raw_tree)) in
   exists w' data out,
     convert_image (join Toy.raw "fox") (join Toy.processed "fox")
       default_image_size "c.png" w = (Ok tt, w') /\
     fs_get (join (join Toy.processed "fox") "c.png") (fs w')
     = Some (File data) /\
     Toy.toy_open data = Ok out /\ out = (224, 224)%nat).
Proof.
  split.
  - eexists. split; [vm_compute; reflexivity|].
    apply (proj2 (standardize_images_output Toy.toy_rng Toy.toy_pil toy_pil_laws
                    Toy.raw Toy.processed default_image_size
                    "fox"%string "a.jpg"%string)
             (Toy.world0 Toy.raw_tree) _
             Toy.img_10x20 Toy.img_224 "PNG"%string
             (10, 20)%nat (224, 224)%nat);
      vm_compute; reflexivity.
  - intros w.
    destruct (convert_image (join Toy.raw "fox") (join Toy.processed "fox")
                default_image_size "c.png" w) as [r w'] eqn:E.
    assert (Er : r = Ok tt) by (vm_compute in E; congruence).
    subst r.
    destruct (proj1 (standardize_images_output Toy.toy_rng Toy.toy_pil
                       toy_pil_laws Toy.raw Toy.processed default_image_size
                       "fox"%string "c.png"%string) w w' E)
      as (data & out & Hget & Hopen & Hsize).
    exists w', data, out. auto.
Defined.

Lemma standardize_failure_is_skipped_witness :
  convert_image (R := Toy.toy_rng) (join Toy.raw "fox") (join Toy.processed "fox")
    default_image_size "b.jpg" (Toy.world0 Toy.raw_tree)
  = (Raise (ImageError "cannot identify image file"), Toy.world0 Toy.raw_tree) /\
  standardize_image (R := Toy.toy_rng) (join Toy.raw "fox")
    (join Toy.processed "fox") default_image_size "b.jpg"
    (Toy.world0 Toy.raw_tree)
  = (Ok tt,
     mkWorld Toy.raw_tree
       ["Error processing data/raw/fox/b.jpg: cannot identify image file"%string]
       0%nat) /\
  (let w := snd (os_makedirs (R := Toy.toy_rng) (join Toy.processed "fox")
                   (Toy.world0 Toy.raw_tree)) in
   exists w1,
     convert_image (join Toy.raw "fox") (join Toy.processed "fox")
       (300, 300)%nat "a.jpg" w
     = (Raise (ImageError "encoder error"), w1) /\
     is_file (fs_get (join (join Toy.processed "fox") "a.jpg") (fs w)) = false /\
     fs w1 = fs w).
Proof.
  split; [vm_compute; reflexivity|]. split.
  - exact (proj1 (standardize_failure_is_skipped Toy.toy_rng Toy.toy_pil
                    (join Toy.raw "fox") (join Toy.processed "fox")
                    default_image_size "b.jpg"%string []
                    (Toy.world0 Toy.raw_tree) (Toy.world0 Toy.raw_tree)
                    (ImageError "cannot identify image file") eq_refl)).
  - intros w.
    destruct (convert_image (join Toy.raw "fox") (join Toy.processed "fox")
                (300, 300)%nat "a.jpg" w) as [r w1] eqn:E.
    assert (Er : r = Raise (ImageError "encoder error"))
      by (vm_compute in E; congruence).
    subst r. exists w1. split; [reflexivity|].
    split; [vm_compute; reflexivity|].
    apply (proj1 (proj2 (proj2
             (standardize_failure_is_skipped Toy.toy_rng Toy.toy_pil
                (join Toy.raw "fox") (join Toy.processed "fox")
                (300, 300)%nat "a.jpg"%string [] w w1
                (ImageError "encoder error") E)))).
    vm_compute. reflexivity.
Defined.

Lemma split_data_copies_and_keeps_source_witness :
  exists (r : result unit) (w' : @World Toy.toy_rng),
    Toy.run_split (Toy.world0 (Toy.processed_tree [("fox"%string, 4%nat)]))
    = (r, w') /\
    fs_get Toy.processed (fs w')
    = fs_get Toy.processed (Toy.processed_tree [("fox"%string, 4%nat)]) /\
    fs_get (join (join Toy.train "fox") "img000") (fs w')
    = Some (File Toy.img_224).
Proof.
  do 2 eexists. split; [vm_compute; reflexivity|]. split.
  - apply (proj1 (split_data_copies_and_keeps_source Toy.toy_rng Toy.toy_pil
                    Toy.processed Toy.train Toy.val Toy.test
                    default_train_ratio default_val_ratio
                    eq_refl eq_refl eq_refl)
             (Toy.world0 (Toy.processed_tree [("fox"%string, 4%nat)])) (Ok tt)).
    vm_compute. reflexivity.
  - vm_compute. reflexivity.
Defined.

Lemma root_files_are_skipped_witness :
  fs_get (join Toy.raw "README") Toy.raw_tree = Some (File []) /\
  clean_class (R := Toy.toy_rng) Toy.raw "README" (Toy.world0 Toy.raw_tree)
  = (Ok tt, Toy.world0 Toy.raw_tree) /\
  forall r w',
    standardize_images (R := Toy.toy_rng) Toy.raw Toy.processed
      default_image_size (Toy.world0 Toy.raw_tree) = (r, w') ->
    fs_get (join Toy.raw "README") (fs w') = Some (File []) /\
    fs_get (join Toy.processed "README") (fs w') = None.
Proof.
  pose proof (root_files_are_skipped Toy.toy_rng Toy.toy_pil
                Toy.raw Toy.processed Toy.train Toy.val Toy.test
                default_image_size default_train_ratio default_val_ratio
                "README"%string [] (Toy.world0 Toy.raw_tree) eq_refl) as H.
  split; [vm_compute; reflexivity|].
  destruct H as [[H1 _] [[_ H2] _]].
  split; [exact H1|].
  intros r w' Hrun. exact (H2 eq_refl r w' Hrun).
Defined.

Lemma class_directory_creation_witness :
  (exists w' : @World Toy.toy_rng,
      Toy.run_split (Toy.world0 (Toy.processed_tree [("fox"%string, 5%nat)]))
      = (Ok tt, w') /\
      is_dir (fs_get (join Toy.train "fox") (fs w')) = true /\
      is_dir (fs_get (join Toy.val "fox") (fs w')) = true /\
      is_dir (fs_get (join Toy.test "fox") (fs w')) = true) /\
  (forall r w',
      split_class (R := Toy.toy_rng) Toy.processed Toy.train Toy.val Toy.test
        default_train_ratio default_val_ratio "fox"
        (Toy.world0 (Toy.processed_tree [("fox"%string, 2%nat)])) = (r, w') ->
      fs_get (join Toy.train "fox") (fs w') = None /\
      fs_get (join Toy.val "fox") (fs w') = None /\
      fs_get (join Toy.test "fox") (fs w') = None) /\
  (let fox := [("img0"%string, File Toy.img_224);
               ("img00"%string, File Toy.img_224);
               ("img000"%string, Dir []);
               ("img0000"%string, File Toy.img_224);
               ("img00000"%string, File Toy.img_224)] in
   let tree := [("data"%string,
                 Dir [("processed"%string, Dir [("fox"%string, Dir fox)]);
                      ("train"%string, Dir []);
                      ("val"%string, Dir []);
                      ("test"%string, Dir [])])] in
   forall r w',
     split_class (R := Toy.toy_rng) Toy.processed Toy.train Toy.val Toy.test
       default_train_ratio default_val_ratio "fox" (Toy.world0 tree) = (r, w') ->
     is_dir (fs_get (join Toy.train "fox") (fs w')) = true /\
     is_dir (fs_get (join Toy.val "fox") (fs w')) = false) /\
  (forall r w',
      copy_images (R := Toy.toy_rng) (join Toy.processed "fox") Toy.train "fox" []
        (Toy.world0 (Toy.processed_tree [("fox"%string, 4%nat)])) = (r, w') ->
      is_dir (fs_get (join Toy.train "fox") (fs w')) = true -> False) /\
  (forall r w',
      copy_images (R := Toy.toy_rng) (join Toy.processed "fox") Toy.train "fox"
        ["img0"%string]
        (Toy.world0 (Toy.processed_tree [("fox"%string, 4%nat)])) = (r, w') ->
      is_dir (fs_get (join Toy.train "fox") (fs w')) = true) /\
  exists w' : @World Toy.toy_rng,
    standardize_images Toy.raw Toy.processed default_image_size
      (Toy.world0 [("data"%string,
                    Dir [("raw"%string,
                          Dir [("fox"%string,
                                Dir [("b.jpg"%string, File Toy.corrupt)])])])])
    = (Ok tt, w') /\
    fs_get (join Toy.processed "fox") (fs w') = Some (Dir []).
Proof.
  destruct (class_directory_creation Toy.toy_rng Toy.toy_pil toy_rng_laws)
    as (Hdata & Hclass & H & _).
  split; [|split; [|split; [|split; [|split]]]].
  - destruct (Toy.run_split
                (Toy.world0 (Toy.processed_tree [("fox"%string, 5%nat)])))
      as [r w'] eqn:E.
    assert (Er : r = Ok tt) by (vm_compute in E; congruence). subst r.
    exists w'. split; [reflexivity|].
    apply (Hdata Toy.processed Toy.train Toy.val Toy.test
             default_train_ratio default_val_ratio "fox"%string
             (Toy.world0 (Toy.processed_tree [("fox"%string, 5%nat)])) w');
      [reflexivity | exact E].
  - intros r w' Hrun.
    pose proof (Hclass Toy.processed Toy.train Toy.val Toy.test
                  default_train_ratio default_val_ratio "fox"%string
                  (map (fun name => (name, File Toy.img_224)) (Toy.img_names 2))
                  (Toy.world0 (Toy.processed_tree [("fox"%string, 2%nat)]))
                  w' r eq_refl eq_refl eq_refl) as Hc.
    destruct (split_images
                (names (map (fun name => (name, File Toy.img_224))
                          (Toy.img_names 2)))
                default_train_ratio default_val_ratio
                (Toy.world0 (Toy.processed_tree [("fox"%string, 2%nat)])))
      as [[parts|e] u1] eqn:Hsp; [vm_compute in Hsp; discriminate|].
    destruct Hc as [_ Hnone]; [| reflexivity | exact Hrun |].
    + intros d [<-|[<-|[<-|[]]]]; split; reflexivity.
    + repeat split; apply Hnone; simpl; auto.
  - intros fox tree r w' Hrun.
    pose proof (Hclass Toy.processed Toy.train Toy.val Toy.test
                  default_train_ratio default_val_ratio "fox"%string
                  fox (Toy.world0 tree) w' r eq_refl eq_refl eq_refl) as Hc.
    destruct (split_images (names fox) default_train_ratio default_val_ratio
                (Toy.world0 tree))
      as [[[[train val] test]|e] u1] eqn:Hsp; [|vm_compute in Hsp; discriminate].
    vm_compute in Hsp. inversion Hsp; subst train val test u1. clear Hsp.
    destruct Hc as (_ & _ & _ & Htrain & Hval & _);
      [| reflexivity | exact Hrun |].
    + intros d [<-|[<-|[<-|[]]]]; split; reflexivity.
    + split; [exact Htrain|].
      destruct (is_dir (fs_get (join Toy.val "fox") (fs w'))) eqn:E;
        [|reflexivity].
      destruct (proj1 Hval eq_refl) as [w2 Hw2].
      vm_compute in Hw2. discriminate.
  - intros r w' Hrun Hd.
    apply (H (join Toy.processed "fox") Toy.train "fox"%string []
             (Toy.world0 (Toy.processed_tree [("fox"%string, 4%nat)])) r w'
             eq_refl eq_refl Hrun) in Hd.
    apply Hd. reflexivity.
  - intros r w' Hrun.
    apply (H (join Toy.processed "fox") Toy.train "fox"%string ["img0"%string]
             (Toy.world0 (Toy.processed_tree [("fox"%string, 4%nat)])) r w'
             eq_refl eq_refl Hrun).
    discriminate.
  - eexists. split; vm_compute; reflexivity.
Defined.

(** * Further properties of the three passes and of the cells *)

(** ** The two calls of the split function and the generator *)

Section SplitCalls.

Context {R : RandomState} {P : PIL}.

Context {L : RandomStateLaws R}.

(** A call that raises has drawn nothing. *)
Lemma train_test_split_raise_world {A} (arr : list A) ts trs rs w e w' :
  train_test_split arr ts trs rs w = (Raise e, w') -> w' = w.
Proof.
  unfold train_test_split. intros H.
  apply bind_inv in H. destruct H as [([x y] & w1 & H1 & H)|(e' & H1 & _)].
  2:{ inversion H1. reflexivity. }
  inversion H1; subst w1. clear H1.
  apply bind_inv in H. destruct H as [([x' y'] & w1 & H1 & H)|(e' & H1 & _)].
  2:{ inversion H1. reflexivity. }
  inversion H1; subst w1. clear H1.
  apply bind_inv in H. destruct H as [(perm & w1 & H1 & H)|(e' & H1 & _)].
  2:{ apply rng_permutation_inv in H1. destruct H1 as (p & Hp & _). discriminate. }
  apply rng_permutation_inv in H1.
  destruct H1 as (p & Hp & Hperm & _). inversion Hp; subst p. clear Hp.
  assert (Hsub : forall l, incl l perm -> exists r, safe_indexing arr l = Ok r).
  { intros l Hl. apply safe_indexing_in_range.
    apply Forall_forall. intros i Hi. apply Hl in Hi.
    apply (Permutation_in _ Hperm) in Hi. apply in_seq in Hi. lia. }
  simpl fst in H. simpl snd in H.
  destruct (Hsub (firstn (Z.to_nat x') (skipn (Z.to_nat y') perm))) as [tr Htr].
  { intros i Hi. apply In_firstn in Hi. apply In_skipn in Hi. exact Hi. }
  destruct (Hsub (firstn (Z.to_nat y') perm)) as [te Hte].
  { intros i Hi. apply In_firstn in Hi. exact Hi. }
  unfold bind, lift, ret in H. rewrite Htr, Hte in H. discriminate.
Qed.

(** An unseeded call that returns has advanced the global generator by
    one permutation of the indices. *)
Lemma train_test_split_unseeded {A} (arr : list A) ts trs w a b w' :
  train_test_split arr ts trs None w = (Ok (a, b), w') ->
  w' = mkWorld (fs w) (stdout w)
         (snd (permutation (np_random w) (List.length arr))).
Proof.
  unfold train_test_split. intros H.
  apply bind_inv in H. destruct H as [([x y] & w1 & H1 & H)|(e' & _ & He)];
    [|discriminate].
  inversion H1; subst w1. clear H1.
  apply bind_inv in H. destruct H as [([x' y'] & w1 & H1 & H)|(e' & _ & He)];
    [|discriminate].
  inversion H1; subst w1. clear H1.
  apply bind_inv in H. destruct H as [(perm & w1 & H1 & H)|(e' & _ & He)];
    [|discriminate].
  unfold rng_permutation in H1.
  destruct (permutation (np_random w) (List.length arr)) as [p g].
  inversion H1; subst. clear H1.
  apply bind_inv in H. destruct H as [(tr & w2 & H1 & H)|(e' & _ & He)];
    [|discriminate].
  inversion H1; subst w2. clear H1.
  apply bind_inv in H. destruct H as [(te & w2 & H1 & H)|(e' & _ & He)];
    [|discriminate].
  inversion H1; subst w2. clear H1.
  inversion H. reflexivity.
Qed.

End SplitCalls.

(** X1: whatever the two ratios, the two calls of the split function
    (lines 212-213) return only with three lists that are not empty,
    and then the listing has at least three names; on a listing of
    fewer than three names they raise, and the world is as it was. *)
Theorem split_parts_nonempty :
  forall (R : RandomState) (P : PIL) (L : RandomStateLaws R)
         (images : list string) (train_ratio val_ratio : Float64.float)
         (w : World),
    (forall train val test w',
        split_images images train_ratio val_ratio w = (Ok (train, val, test), w') ->
        train <> [] /\ val <> [] /\ test <> [] /\
        (3 <= List.length images)%nat) /\
    ((List.length images < 3)%nat ->
     exists e, split_images images train_ratio val_ratio w = (Raise e, w)).
Proof.
  intros R P L images tr vr w.
  assert (Hok : forall train val test w',
             split_images images tr vr w = (Ok (train, val, test), w') ->
             train <> [] /\ val <> [] /\ test <> [] /\
             (3 <= List.length images)%nat).
  { intros train val test w' H. apply split_images_inv in H.
    destruct H as (temp & w1 & H1 & H2).
    apply train_test_split_inv in H1, H2.
    destruct H1 as (n1 & m1 & p1 & _ & Hn1 & Hm1 & Hs1 & _ & _ & _ & Hl1 & Hk1 & _).
    destruct H2 as (n2 & m2 & p2 & _ & Hn2 & Hm2 & Hs2 & _ & _ & _ & Hl2 & Hk2 & _).
    repeat split.
    - intros ->. simpl in Hl1. lia.
    - intros ->. simpl in Hl2. lia.
    - intros ->. simpl in Hk2. lia.
    - lia. }
  split; [exact Hok|].
  intros Hlen.
  destruct (split_images images tr vr w) as [[[[train val] test]|e] w'] eqn:E.
  - destruct (Hok _ _ _ _ eq_refl) as (_ & _ & _ & H3). lia.
  - exists e. f_equal.
    unfold split_images in E.
    apply bind_inv in E. destruct E as [([a b] & w1 & H1 & H)|(e' & H1 & _)].
    + pose proof H1 as H1'. apply train_test_split_inv in H1'.
      destruct H1' as (n1 & m1 & p1 & _ & _ & _ & _ & _ & _ & _ & _ & _ & _ & _ & Hseed).
      destruct (Hseed _ eq_refl) as [-> _].
      apply bind_inv in H. destruct H as [([c d] & w2 & H2 & H)|(e' & H2 & _)].
      * inversion H.
      * apply train_test_split_raise_world in H2. exact H2.
    + apply train_test_split_raise_world in H1. exact H1.
Qed.

Lemma split_parts_nonempty_witness :
  exists train val test w',
    split_images (R := Toy.toy_rng) (Toy.img_names 4)
      default_train_ratio default_val_ratio (Toy.world0 [])
    = (Ok (train, val, test), w') /\
    train <> [] /\ val <> [] /\ test <> [] /\
    (exists e,
        split_images (R := Toy.toy_rng) (Toy.img_names 2)
          (Float64.literal 5 10) (Float64.literal 4 10) (Toy.world0 [])
        = (Raise e, Toy.world0 [])).
Proof.
  destruct (split_images (R := Toy.toy_rng) (Toy.img_names 4)
              default_train_ratio default_val_ratio (Toy.world0 []))
    as [[[[train val] test]|e] w'] eqn:E; [|vm_compute in E; discriminate].
  exists train, val, test, w'. split; [reflexivity|].
  destruct (proj1 (split_parts_nonempty Toy.toy_rng Toy.toy_pil toy_rng_laws
                     (Toy.img_names 4) default_train_ratio default_val_ratio
                     (Toy.world0 [])) train val test w' E)
    as (H1 & H2 & H3 & _).
  repeat split; try assumption.
  apply (proj2 (split_parts_nonempty Toy.toy_rng Toy.toy_pil toy_rng_laws
                  (Toy.img_names 2) (Float64.literal 5 10) (Float64.literal 4 10)
                  (Toy.world0 []))).
  simpl. lia.
Defined.

(** X2: the two calls change nothing but numpy's global generator: when
    they return, the file system and the console are as before and the
    generator has advanced by exactly one permutation, of as many
    indices as the validation and the test list hold together (the
    first call, seeded with 42, draws from a generator of its own);
    when one of them raises, nothing has changed at all. *)
Theorem split_only_draws :
  forall (R : RandomState) (P : PIL) (L : RandomStateLaws R)
         (images : list string) (train_ratio val_ratio : Float64.float)
         (w w' : World) (r : result (list string * list string * list string)),
    split_images images train_ratio val_ratio w = (r, w') ->
    match r with
    | Ok (train, val, test) =>
        w' = mkWorld (fs w) (stdout w)
               (snd (permutation (np_random w)
                       (List.length val + List.length test)))
    | Raise _ => w' = w
    end.
Proof.
  intros R P L images tr vr w w' r H.
  destruct r as [[[train val] test]|e].
  - apply split_images_inv in H. destruct H as (temp & w1 & H1 & H2).
    pose proof H1 as H1'. apply train_test_split_inv in H1'.
    destruct H1' as (n1 & m1 & p1 & _ & _ & _ & _ & _ & _ & _ & _ & _ & _ & _ & Hseed).
    destruct (Hseed _ eq_refl) as [-> _].
    pose proof (Permutation_length
                  (train_test_split_perm _ _ _ _ _ _ _ _ H2 (or_intror eq_refl)))
      as Hlen.
    rewrite length_app in Hlen.
    apply train_test_split_unseeded in H2. rewrite Hlen. exact H2.
  - unfold split_images in H.
    apply bind_inv in H. destruct H as [([a b] & w1 & H1 & H)|(e' & H1 & _)].
    + pose proof H1 as H1'. apply train_test_split_inv in H1'.
      destruct H1' as (n1 & m1 & p1 & _ & _ & _ & _ & _ & _ & _ & _ & _ & _ & _ & Hseed).
      destruct (Hseed _ eq_refl) as [-> _].
      apply bind_inv in H. destruct H as [([c d] & w2 & H2 & H)|(e' & H2 & _)].
      * inversion H.
      * apply train_test_split_raise_world in H2. exact H2.
    + apply train_test_split_raise_world in H1. exact H1.
Qed.

Lemma split_only_draws_witness :
  split_images (R := Toy.toy_rng) (Toy.img_names 4)
    default_train_ratio default_val_ratio
    (@mkWorld Toy.toy_rng Toy.raw_tree ["log"%string] 5%nat)
  = (Ok (["img000"; "img0000"], ["img0"], ["img00"])%string,
     @mkWorld Toy.toy_rng Toy.raw_tree ["log"%string] 6%nat) /\
  @mkWorld Toy.toy_rng Toy.raw_tree ["log"%string] 6%nat
  = @mkWorld Toy.toy_rng Toy.raw_tree ["log"%string]
      (snd (permutation (RandomState := Toy.toy_rng) 5%nat 2)).
Proof.
  split; [vm_compute; reflexivity|].
  exact (split_only_draws Toy.toy_rng Toy.toy_pil toy_rng_laws
           (Toy.img_names 4) default_train_ratio default_val_ratio
           (@mkWorld Toy.toy_rng Toy.raw_tree ["log"%string] 5%nat)
           (@mkWorld Toy.toy_rng Toy.raw_tree ["log"%string] 6%nat)
           (Ok (["img000"; "img0000"], ["img0"], ["img00"])%string)
           eq_refl).
Defined.

(** ** What a pass leaves alone: the console and the generator *)

Section Console.

Context {R : RandomState} {P : PIL}.

Lemma prints_only_refl w : prints_only w w.
Proof. split; [reflexivity|]. exists []. symmetry. apply app_nil_r. Qed.

Lemma prints_only_trans w1 w2 w3 :
  prints_only w1 w2 -> prints_only w2 w3 -> prints_only w1 w3.
Proof.
  intros [Hg1 [l1 H1]] [Hg2 [l2 H2]]. split; [congruence|].
  exists (l1 ++ l2). rewrite H2, H1. symmetry. apply app_assoc.
Qed.

Lemma prints_only_fs w es : prints_only w (with_fs w es).
Proof. split; [reflexivity|]. exists []. symmetry. apply app_nil_r. Qed.

Lemma quiet_bind {A B} (m : M A) (k : A -> M B) :
  quiet m -> (forall a, quiet (k a)) -> quiet (bind m k).
Proof.
  intros Hm Hk w r w' H. apply bind_inv in H.
  destruct H as [(a & w1 & H1 & H2)|(e & H1 & _)].
  - eapply prints_only_trans; [eapply Hm | eapply Hk]; eauto.
  - eapply Hm; eauto.
Qed.

Lemma quiet_try {A} (m : M A) (h : exn -> M A) :
  quiet m -> (forall e, quiet (h e)) -> quiet (try_except m h).
Proof.
  intros Hm Hh w r w' H. apply try_except_inv in H.
  destruct H as [(a & H1 & _)|(e & w1 & H1 & H2)].
  - eapply Hm; eauto.
  - eapply prints_only_trans; [eapply Hm | eapply Hh]; eauto.
Qed.

Lemma quiet_for_each {A} (xs : list A) body :
  (forall x, quiet (body x)) -> quiet (for_each xs body).
Proof.
  intros Hb w r w' H.
  apply (for_each_inv (prints_only w) xs body) in H; auto.
  - intros x u r' u' _ Hu Hx. eapply prints_only_trans; [exact Hu|].
    eapply Hb; eauto.
  - apply prints_only_refl.
Qed.

(** An operation on the file system alone. *)
Lemma quiet_fs {A} (m : M A) :
  (forall w r w', m w = (r, w') -> exists es, w' = with_fs w es) -> quiet m.
Proof.
  intros Hm w r w' H. destruct (Hm _ _ _ H) as [es ->]. apply prints_only_fs.
Qed.

Lemma quiet_ret {A} (a : A) : quiet (ret a).
Proof. intros w r w' H. inversion H. apply prints_only_refl. Qed.

Lemma quiet_raise {A} e : quiet (@raise R A e).
Proof. intros w r w' H. inversion H. apply prints_only_refl. Qed.

Lemma quiet_lift {A} (x : result A) : quiet (lift x).
Proof. intros w r w' H. inversion H. apply prints_only_refl. Qed.

Lemma quiet_print line : quiet (print line).
Proof.
  intros w r w' H. inversion H. split; [reflexivity|]. simpl. eauto.
Qed.

Lemma quiet_isdir p : quiet (os_path_isdir p).
Proof. intros w r w' H. inversion H. apply prints_only_refl. Qed.

Lemma quiet_exists p : quiet (os_path_exists p).
Proof. intros w r w' H. inversion H. apply prints_only_refl. Qed.

Lemma quiet_listdir p : quiet (os_listdir p).
Proof.
  intros w r w' H. apply os_listdir_inv in H. destruct H as [-> _].
  apply prints_only_refl.
Qed.

Lemma quiet_read p : quiet (read_file p).
Proof.
  intros w r w' H. apply read_file_inv in H. destruct H as [-> _].
  apply prints_only_refl.
Qed.

Lemma quiet_remove p : quiet (os_remove p).
Proof.
  intros w r w' H. apply os_remove_inv in H.
  destruct H as [(_ & _ & ->)|(e & _ & -> & _)];
    [apply prints_only_fs | apply prints_only_refl].
Qed.

Lemma quiet_mkdir p : quiet (os_mkdir p).
Proof.
  intros w r w' H. apply os_mkdir_inv in H.
  destruct H as [(_ & _ & _ & ->)|(e & _ & ->)];
    [apply prints_only_fs | apply prints_only_refl].
Qed.

Lemma quiet_write p b : quiet (write_file p b).
Proof.
  intros w r w' H. apply write_file_inv in H.
  destruct H as [(_ & _ & _ & _ & ->)|(e & _ & ->)];
    [apply prints_only_fs | apply prints_only_refl].
Qed.

Lemma quiet_makedirs_rev rname : quiet (makedirs_rev rname).
Proof.
  induction rname as [|x rhead IH]; [apply quiet_ret|].
  simpl makedirs_rev.
  apply quiet_bind; [apply quiet_exists|]. intros ex.
  apply quiet_bind.
  { destruct (_ && _); [|apply quiet_ret].
    apply quiet_try; [exact IH|]. intros e.
    destruct e; try apply quiet_raise. apply quiet_ret. }
  intros _. apply quiet_try; [apply quiet_mkdir|].
  intros e. apply quiet_bind; [apply quiet_isdir|].
  intros d. destruct d; [apply quiet_ret | apply quiet_raise].
Qed.

Lemma quiet_makedirs p : quiet (os_makedirs p).
Proof. apply quiet_makedirs_rev. Qed.

Lemma quiet_Image_open p : quiet (Image_open p).
Proof.
  unfold Image_open. apply quiet_bind; [apply quiet_read|].
  intros b. apply quiet_lift.
Qed.

Lemma quiet_Image_save img p : quiet (Image_save img p).
Proof.
  unfold Image_save. apply quiet_bind; [apply quiet_lift|]. intros fmt.
  apply quiet_bind; [apply quiet_exists|]. intros ex. cbv zeta.
  apply quiet_bind; [apply quiet_write|]. intros _.
  destruct (save_handler img fmt) as [data|e]; [apply quiet_write|].
  apply quiet_bind; [apply quiet_write|]. intros _.
  apply quiet_bind; [|intros _; apply quiet_raise].
  destruct (negb ex); [apply quiet_remove | apply quiet_ret].
Qed.

Lemma quiet_clean_image cp n : quiet (clean_image cp n).
Proof.
  unfold clean_image. apply quiet_try.
  - unfold verify_image. apply quiet_bind; [apply quiet_Image_open|].
    intros img. apply quiet_lift.
  - intros e. apply quiet_bind; [apply quiet_print|].
    intros _. apply quiet_remove.
Qed.

Lemma quiet_clean_class src c : quiet (clean_class src c).
Proof.
  unfold clean_class. apply quiet_bind; [apply quiet_isdir|]. intros d.
  destruct (negb d); [apply quiet_ret|].
  apply quiet_bind; [apply quiet_listdir|]. intros imgs.
  apply quiet_for_each. intros n. apply quiet_clean_image.
Qed.

Lemma quiet_clean_data src : quiet (clean_data src).
Proof.
  unfold clean_data. apply quiet_bind; [apply quiet_listdir|]. intros cs.
  apply quiet_for_each. intros c. apply quiet_clean_class.
Qed.

Lemma quiet_standardize_image cp tcd sz n : quiet (standardize_image cp tcd sz n).
Proof.
  unfold standardize_image. apply quiet_try.
  - unfold convert_image. apply quiet_bind; [apply quiet_Image_open|].
    intros img. apply quiet_bind; [apply quiet_lift|]. intros img'.
    apply quiet_Image_save.
  - intros e. apply quiet_print.
Qed.

Lemma quiet_standardize_class src tgt sz c : quiet (standardize_class src tgt sz c).
Proof.
  unfold standardize_class. apply quiet_bind; [apply quiet_isdir|]. intros d.
  destruct (negb d); [apply quiet_ret|].
  apply quiet_bind; [apply quiet_makedirs|]. intros _.
  apply quiet_bind; [apply quiet_listdir|]. intros imgs.
  apply quiet_for_each. intros n. apply quiet_standardize_image.
Qed.

Lemma quiet_standardize_images src tgt sz : quiet (standardize_images src tgt sz).
Proof.
  unfold standardize_images. apply quiet_bind; [apply quiet_listdir|]. intros cs.
  apply quiet_for_each. intros c. apply quiet_standardize_class.
Qed.

Lemma effect_clean_data src : effect (under src) (clean_data src).
Proof.
  unfold clean_data. apply effect_bind; [apply effect_listdir|]. intros cs.
  apply effect_for_each. intros c _.
  eapply effect_weaken; [|apply effect_clean_class].
  intros p Hp. exists p. split; [|apply prefixb_refl].
  unfold under in *. eapply prefixb_trans; [apply prefixb_app | exact Hp].
Qed.

Lemma effect_standardize_images src tgt sz :
  effect (under tgt) (standardize_images src tgt sz).
Proof.
  unfold standardize_images. apply effect_bind; [apply effect_listdir|].
  intros cs. apply effect_for_each. intros c _.
  eapply effect_weaken; [|apply effect_standardize_class].
  intros p Hp. exists p. split; [|apply prefixb_refl].
  unfold under in *. eapply prefixb_trans; [apply prefixb_app | exact Hp].
Qed.

Lemma frame_under_outside d w w' q :
  frame (under d) w w' -> apart q d = true ->
  fs_get q (fs w') = fs_get q (fs w).
Proof.
  intros Hf Ha. pose proof (frame_under_apart d w w' q [] Hf Ha) as H.
  rewrite app_nil_r in H. exact H.
Qed.

End Console.

(** X4: however [clean_data] ends, it has changed nothing outside the
    source root: a path that is neither above nor below the root holds
    what it held; no directory has gone, anywhere; the generator is in
    the state it was in; and the console has only been appended to. *)
Theorem clean_data_stays_inside :
  forall (R : RandomState) (P : PIL) (source_dir : path)
         (w w' : World) (r : result unit),
    clean_data source_dir w = (r, w') ->
    (forall q, apart q source_dir = true ->
               fs_get q (fs w') = fs_get q (fs w)) /\
    (forall q, is_dir (fs_get q (fs w)) = true ->
               is_dir (fs_get q (fs w')) = true) /\
    np_random w' = np_random w /\
    exists lines, stdout w' = stdout w ++ lines.
Proof.
  intros R P src w w' r H.
  pose proof (effect_clean_data src _ _ _ H) as [Hf Hg].
  pose proof (quiet_clean_data src _ _ _ H) as [Hr Hl].
  split; [|split; [exact Hg|split; assumption]].
  intros q Hq. eapply frame_under_outside; eauto.
Qed.

Lemma clean_data_stays_inside_witness :
  let w := Toy.world0 Toy.stale_tree in
  let w' := snd (clean_data Toy.raw w) in
  fs_get (Toy.processed ++ ["fox"; "a.jpg"]%string) (fs w')
  = Some (File Toy.img_224) /\
  is_dir (fs_get (join Toy.raw "fox") (fs w')) = true /\
  np_random w' = np_random w.
Proof.
  intros w w'.
  destruct (clean_data_stays_inside Toy.toy_rng Toy.toy_pil Toy.raw w w'
              (fst (clean_data Toy.raw w)) (surjective_pairing _))
    as (Hf & Hd & Hg & _).
  split; [rewrite Hf; reflexivity|].
  split; [apply Hd; reflexivity | exact Hg].
Defined.

(** ** Cleaning again *)

Section CleanAgain.

Context {R : RandomState} {P : PIL}.

Lemma for_each_unchanged {A} (xs : list A) (body : A -> M unit) w :
  (forall x, In x xs -> body x w = (Ok tt, w)) ->
  for_each xs body w = (Ok tt, w).
Proof.
  induction xs as [|x xs IH]; intros Hb; [reflexivity|].
  rewrite for_each_cons. eapply bind_step.
  - apply Hb. left. reflexivity.
  - apply IH. intros y Hy. apply Hb. right. exact Hy.
Qed.

(** A file that verifies is left alone, without a word. *)
Lemma clean_image_valid cp n b w :
  fs_get (join cp n) (fs w) = Some (File b) -> verifies b = Ok tt ->
  clean_image cp n w = (Ok tt, w).
Proof.
  intros Hb Hd. unfold clean_image, try_except, verify_image, Image_open.
  unfold bind, read_file, lift. rewrite Hb.
  unfold verifies in Hd. destruct (image_open b) as [img|e]; [|discriminate].
  rewrite Hd. reflexivity.
Qed.

Lemma clean_data_nothing_to_do src w :
  is_dir (fs_get src (fs w)) = true -> all_verify src w ->
  clean_data src w = (Ok tt, w).
Proof.
  intros Hsrc Hall.
  destruct (fs_get src (fs w)) as [[b|es]|] eqn:Es; try discriminate.
  unfold clean_data.
  eapply bind_step; [unfold os_listdir; rewrite Es; reflexivity|].
  apply for_each_unchanged. intros c _.
  destruct (fs_get (join src c) (fs w)) as [[b|d]|] eqn:Ec.
  - apply clean_class_skip. rewrite Ec. reflexivity.
  - unfold clean_class. cbv zeta.
    eapply bind_step; [unfold os_path_isdir; rewrite Ec; reflexivity|].
    simpl negb. cbv iota.
    eapply bind_step; [unfold os_listdir; rewrite Ec; reflexivity|].
    apply for_each_unchanged. intros n Hn.
    destruct (Hall c d n Ec Hn) as (b & Hb & Hd).
    eapply clean_image_valid; eauto.
  - apply clean_class_skip. rewrite Ec. reflexivity.
Qed.

Lemma clean_data_all_verify src w w' :
  clean_data src w = (Ok tt, w') -> all_verify src w'.
Proof.
  intros H c d n Hc Hn.
  destruct (In_get_entry _ _ Hn) as [x Hx].
  assert (Hq : fs_get (join (join src c) n) (fs w') = Some x).
  { unfold join at 1. rewrite fs_get_app, Hc. simpl. exact Hx. }
  pose proof (clean_data_cleaned src c n
                (fs_get (join (join src c) n) (fs w)) w w' eq_refl H) as Hcl.
  unfold cleaned in Hcl.
  destruct (fs_get (join (join src c) n) (fs w)) as [[b|d0]|].
  - destruct Hcl as [[Hd Hb]|(e & _ & Hnone & _)].
    + exists b. auto.
    + rewrite Hq in Hnone. discriminate.
  - destruct Hcl.
  - rewrite Hq in Hcl. discriminate.
Qed.

End CleanAgain.

(** X5: cleaning twice is cleaning once: in the world that a run of
    [clean_data] that returned has left, a second run returns, removes
    nothing and prints nothing. *)
Theorem clean_data_twice :
  forall (R : RandomState) (P : PIL) (source_dir : path) (w w' : World),
    clean_data source_dir w = (Ok tt, w') ->
    clean_data source_dir w' = (Ok tt, w').
Proof.
  intros R P src w w' H.
  apply clean_data_nothing_to_do.
  - pose proof (effect_clean_data src _ _ _ H) as [_ Hg]. apply Hg.
    unfold clean_data in H. apply bind_inv in H.
    destruct H as [(cs & w1 & H1 & _)|(e & _ & He)]; [|discriminate].
    apply os_listdir_inv in H1. destruct H1 as (_ & es & Hes & _).
    rewrite Hes. reflexivity.
  - eapply clean_data_all_verify; eauto.
Qed.

Lemma clean_data_twice_witness :
  exists w' : @World Toy.toy_rng,
    clean_data Toy.raw (Toy.world0 Toy.raw_tree) = (Ok tt, w') /\
    stdout w' <> [] /\
    clean_data Toy.raw w' = (Ok tt, w').
Proof.
  destruct (clean_data Toy.raw (Toy.world0 Toy.raw_tree)) as [r w'] eqn:E.
  assert (Er : r = Ok tt) by (vm_compute in E; congruence). subst r.
  exists w'. split; [reflexivity|]. split.
  - vm_compute in E. inversion E. discriminate.
  - exact (clean_data_twice Toy.toy_rng Toy.toy_pil Toy.raw _ _ E).
Defined.

(** ** Exceptions that escape [clean_data] *)

Section CleanRaises.

Context {R : RandomState} {P : PIL}.

Lemma for_each_raise {A} (xs : list A) (body : A -> M unit) w e w' :
  for_each xs body w = (Raise e, w') ->
  exists x u, In x xs /\ body x u = (Raise e, w').
Proof.
  revert w. induction xs as [|x xs IH]; intros w H; [discriminate|].
  rewrite for_each_cons in H. apply bind_inv in H.
  destruct H as [(a & w1 & H1 & H2)|(e' & H1 & He)].
  - destruct (IH _ H2) as (y & u & Hy & Hb). exists y, u. split; [right|]; auto.
  - inversion He; subst e'. exists x, w. split; [left; reflexivity | exact H1].
Qed.

(** The body of the inner loop raises only what [os.remove] raises. *)
Lemma clean_image_raise cp n w e w' :
  clean_image cp n w = (Raise e, w') ->
  fs w' = fs w /\
  ((is_dir (fs_get (join cp n) (fs w)) = true /\
    e = IsADirectoryError (join cp n)) \/
   (fs_get (join cp n) (fs w) = None /\ e = FileNotFoundError (join cp n))).
Proof.
  unfold clean_image. cbv zeta. intros H. apply try_except_inv in H.
  destruct H as [(a & _ & Ha)|(e0 & w1 & H1 & H2)]; [discriminate|].
  apply verify_image_inv in H1. destruct H1 as [-> _].
  unfold bind, print, os_remove in H2. simpl fs in H2.
  destruct (fs_get (join cp n) (fs w)) as [[b|d]|] eqn:E;
    inversion H2; subst; simpl; auto.
Qed.

Lemma clean_class_raise src c w e w' :
  clean_class src c w = (Raise e, w') ->
  exists n,
    (e = IsADirectoryError (join (join src c) n) /\
     is_dir (fs_get (join (join src c) n) (fs w')) = true) \/
    (e = FileNotFoundError (join (join src c) n) /\
     fs_get (join (join src c) n) (fs w') = None).
Proof.
  unfold clean_class. cbv zeta. intros H.
  apply bind_inv in H. destruct H as [(d & w1 & H1 & H)|(e' & H1 & _)];
    [|inversion H1].
  inversion H1; subst w1 d. clear H1.
  destruct (fs_get (join src c) (fs w)) as [[b|d]|] eqn:Ec; simpl in H;
    try discriminate.
  apply bind_inv in H. destruct H as [(imgs & w1 & H1 & H)|(e' & H1 & He)].
  - apply os_listdir_inv in H1. destruct H1 as [-> _].
    apply for_each_raise in H. destruct H as (n & u & _ & Hn).
    apply clean_image_raise in Hn. destruct Hn as [Hfs Hcase].
    exists n. rewrite Hfs. destruct Hcase as [[Hd ->]|[Hnone ->]]; auto.
  - unfold os_listdir in H1. rewrite Ec in H1. discriminate.
Qed.

End CleanRaises.

(** X6: the exceptions that escape [clean_data].  Either the listing
    of the source root failed, the root being a file or missing, and
    nothing has changed; or [os.remove], called by the handler of line
    94, failed on an entry of a class directory: the entry is a
    directory, which is still there ([IsADirectoryError]), or there is
    nothing at its path ([FileNotFoundError]).  A file that does not
    verify never makes the function raise. *)
Theorem clean_data_raises_only :
  forall (R : RandomState) (P : PIL) (source_dir : path) (w w' : World) (e : exn),
    clean_data source_dir w = (Raise e, w') ->
    (w' = w /\ is_dir (fs_get source_dir (fs w)) = false /\
     (e = NotADirectoryError source_dir \/ e = FileNotFoundError source_dir)) \/
    (exists class_name img_name,
        let img_path := join (join source_dir class_name) img_name in
        (e = IsADirectoryError img_path /\
         is_dir (fs_get img_path (fs w')) = true) \/
        (e = FileNotFoundError img_path /\ fs_get img_path (fs w') = None)).
Proof.
  intros R P src w w' e H. unfold clean_data in H.
  apply bind_inv in H. destruct H as [(cs & w1 & H1 & H)|(e' & H1 & He)].
  - right. apply os_listdir_inv in H1. destruct H1 as [-> _].
    apply for_each_raise in H. destruct H as (c & u & _ & Hc).
    apply clean_class_raise in Hc. destruct Hc as [n Hn].
    exists c, n. exact Hn.
  - left. inversion He; subst e'. unfold os_listdir in H1.
    destruct (fs_get src (fs w)) as [[b|es]|] eqn:E; inversion H1; subst; auto.
Qed.

Lemma clean_data_raises_only_witness :
  exists w' : @World Toy.toy_rng,
    clean_data ["data"]%string (Toy.world0 Toy.raw_tree)
    = (Raise (IsADirectoryError ["data"; "raw"; "fox"]%string), w') /\
    is_dir (fs_get ["data"; "raw"; "fox"]%string (fs w')) = true.
Proof.
  destruct (clean_data ["data"]%string (Toy.world0 Toy.raw_tree)) as [r w'] eqn:E.
  assert (Er : r = Raise (IsADirectoryError ["data"; "raw"; "fox"]%string))
    by (vm_compute in E; congruence).
  subst r. exists w'. split; [reflexivity|].
  destruct (clean_data_raises_only Toy.toy_rng Toy.toy_pil _ _ _ _ E)
    as [(_ & Hd & _)|(c & n & [[He Hd]|[He _]])].
  - vm_compute in Hd. discriminate.
  - inversion He; subst c n. exact Hd.
  - discriminate.
Defined.

(** ** Runs of [standardize_images]: return, footprint, account *)

Section StandardizeReturns.

Context {R : RandomState} {P : PIL}.

Lemma makedirs_class_dir d c w :
  is_dir (fs_get d (fs w)) = true ->
  is_file (fs_get (join d c) (fs w)) = false ->
  exists w', os_makedirs (join d c) w = (Ok tt, w').
Proof.
  intros Hd Hf. destruct (fs_get (join d c) (fs w)) as [[b|es]|] eqn:E.
  - discriminate.
  - exists w. apply makedirs_existing. rewrite E. reflexivity.
  - eexists. apply makedirs_creates; assumption.
Qed.

Variables (src tgt : path) (sz : nat * nat).

(** What the classes still to be visited need: the target root, and no
    file in the place of a class directory. *)
Let ready (all : list string) (rest : list string) (u : World) : Prop :=
  incl rest all /\
  is_dir (fs_get tgt (fs u)) = true /\
  forall c, In c all -> is_file (fs_get (join tgt c) (fs u)) = false.

Lemma standardize_class_returns x u :
  is_dir (fs_get tgt (fs u)) = true ->
  is_file (fs_get (join tgt x) (fs u)) = false ->
  exists u', standardize_class src tgt sz x u = (Ok tt, u').
Proof.
  intros Ht Hx.
  destruct (is_dir (fs_get (join src x) (fs u))) eqn:Ed.
  - destruct (makedirs_class_dir tgt x u Ht Hx) as [u1 Hm].
    pose proof (effect_makedirs _ _ _ _ Hm) as [_ Hg].
    pose proof (Hg _ Ed) as Ed1.
    destruct (fs_get (join src x) (fs u1)) as [[b|d]|] eqn:E1; try discriminate.
    destruct (for_each_total (names d)
                (standardize_image (join src x) (join tgt x) sz)
                (standardize_image_total _ _ _) u1) as [u' Hl].
    exists u'. unfold standardize_class. cbv zeta.
    eapply bind_step; [unfold os_path_isdir; rewrite Ed; reflexivity|].
    simpl negb. cbv iota.
    eapply bind_step; [exact Hm|].
    eapply bind_step; [unfold os_listdir; rewrite E1; reflexivity|].
    exact Hl.
  - exists u. apply standardize_class_skip. exact Ed.
Qed.

Lemma standardize_class_ready all x rest u :
  ready all (x :: rest) u ->
  exists u', standardize_class src tgt sz x u = (Ok tt, u') /\
             ready all rest u'.
Proof.
  intros (Hincl & Ht & Hfiles).
  assert (Hx : In x all) by (apply Hincl; left; reflexivity).
  destruct (standardize_class_returns x u Ht (Hfiles x Hx)) as [u' Hrun].
  exists u'. split; [exact Hrun|].
  pose proof (effect_standardize_class src tgt sz x _ _ _ Hrun) as [Hf Hg].
  split; [|split].
  - intros c Hc. apply Hincl. right. exact Hc.
  - apply Hg. exact Ht.
  - intros c Hc. destruct (string_dec x c) as [<-|Hne].
    + destruct (is_dir (fs_get (join src x) (fs u))) eqn:Ed.
      * pose proof (standardize_class_creates _ _ _ _ _ _ Ed Hrun) as Hd.
        destruct (fs_get (join tgt x) (fs u')) as [[b|d]|]; try discriminate.
        reflexivity.
      * rewrite (standardize_class_skip _ _ _ _ _ Ed) in Hrun.
        inversion Hrun; subst u'. apply Hfiles. exact Hc.
    + pose proof (frame_under_sibling tgt x c u u' [] Hf Hne) as E.
      rewrite app_nil_r in E. rewrite E. apply Hfiles. exact Hc.
Qed.

Lemma standardize_images_returns_on es w :
  fs_get src (fs w) = Some (Dir es) ->
  is_dir (fs_get tgt (fs w)) = true ->
  (forall c, In c (names es) -> is_file (fs_get (join tgt c) (fs w)) = false) ->
  exists w', standardize_images src tgt sz w = (Ok tt, w').
Proof.
  intros Hes Ht Hfiles.
  destruct (for_each_returns (ready (names es)) (standardize_class src tgt sz)
              (standardize_class_ready (names es)) (names es) w) as (w' & Hr & _).
  { split; [apply incl_refl|]. split; assumption. }
  exists w'. unfold standardize_images.
  eapply bind_step; [unfold os_listdir; rewrite Hes; reflexivity|].
  exact Hr.
Qed.

End StandardizeReturns.

(** X7: [standardize_images] returns when the source root is a
    directory, the target root is a directory, and no file stands in
    the target root under the name of an entry of the source root:
    whatever the class directories hold (files that do not decode,
    directories, names without a known extension), no exception
    escapes. *)
Theorem standardize_images_returns :
  forall (R : RandomState) (P : PIL) (source_dir target_dir : path)
         (image_size : nat * nat) (w : World) (es : entries_t),
    fs_get source_dir (fs w) = Some (Dir es) ->
    is_dir (fs_get target_dir (fs w)) = true ->
    (forall class_name,
        In class_name (names es) ->
        is_file (fs_get (join target_dir class_name) (fs w)) = false) ->
    exists w', standardize_images source_dir target_dir image_size w = (Ok tt, w').
Proof.
  intros R P src tgt sz w es. apply standardize_images_returns_on.
Qed.

(** X8: however [standardize_images] ends, a path that is neither
    above nor below the target root holds what it held; with the
    target root outside the source root, the tree under the source
    root is what it was; no directory has gone; the generator is in
    the state it was in; and the console has only been appended to. *)
Theorem standardize_images_stays_inside :
  forall (R : RandomState) (P : PIL) (source_dir target_dir : path)
         (image_size : nat * nat) (w w' : World) (r : result unit),
    standardize_images source_dir target_dir image_size w = (r, w') ->
    (forall q, apart q target_dir = true ->
               fs_get q (fs w') = fs_get q (fs w)) /\
    (apart source_dir target_dir = true ->
     fs_get source_dir (fs w') = fs_get source_dir (fs w)) /\
    (forall q, is_dir (fs_get q (fs w)) = true ->
               is_dir (fs_get q (fs w')) = true) /\
    np_random w' = np_random w /\
    exists lines, stdout w' = stdout w ++ lines.
Proof.
  intros R P src tgt sz w w' r H.
  pose proof (effect_standardize_images src tgt sz _ _ _ H) as [Hf Hg].
  pose proof (quiet_standardize_images src tgt sz _ _ _ H) as [Hr Hl].
  assert (Hout : forall q, apart q tgt = true ->
                           fs_get q (fs w') = fs_get q (fs w)).
  { intros q Hq. eapply frame_under_outside; eauto. }
  split; [exact Hout|]. split; [apply Hout|].
  split; [exact Hg|]. split; assumption.
Qed.

Section Accounts.

Context {R : RandomState} {P : PIL}.

Variables (src tgt : path) (sz : nat * nat) (c n : string) (w0 : World).

Hypothesis Hapart : apart src tgt = true.

(** The file converts in the first world. *)
Let converts : Prop :=
  exists b img img' fmt data,
    fs_get (join (join src c) n) (fs w0) = Some (File b) /\
    image_open b = Ok img /\ image_resize img sz = Ok img' /\
    save_format n = Ok fmt /\ save_handler img' fmt = Ok data /\
    is_dir (fs_get (join (join tgt c) n) (fs w0)) = false.

Hypothesis Hnot : ~ converts.

(** The entry is as in the first world, and directories have stayed. *)
Let I (u : World) : Prop :=
  fs_get (join (join src c) n) (fs u) = fs_get (join (join src c) n) (fs w0) /\
  fs_get (join src c) (fs u) = fs_get (join src c) (fs w0) /\
  grows w0 u.

(** A line about the entry is on the console. *)
Let Q (u : World) : Prop :=
  exists e, In (error_line (join (join src c) n) e) (stdout u).







Hypothesis Hentry : fs_get (join (join src c) n) (fs w0) <> None.



End Accounts.



Lemma standardize_images_returns_witness :
  exists w' : @World Toy.toy_rng,
    standardize_images Toy.raw Toy.processed default_image_size
      (Toy.world0 Toy.stale_tree) = (Ok tt, w').
Proof.
  apply (standardize_images_returns Toy.toy_rng Toy.toy_pil
           Toy.raw Toy.processed default_image_size (Toy.world0 Toy.stale_tree)
           [("fox"%string, Dir [("a.jpg"%string, File Toy.img_10x20)])]).
  - reflexivity.
  - reflexivity.
  - intros c [<-|[]]. reflexivity.
Defined.

Lemma standardize_images_stays_inside_witness :
  exists (r : result unit) (w' : @World Toy.toy_rng),
    standardize_images Toy.raw Toy.processed default_image_size
      (Toy.world0 Toy.raw_tree) = (r, w') /\
    fs_get Toy.raw (fs w') = fs_get Toy.raw Toy.raw_tree /\
    np_random w' = 0%nat.
Proof.
  destruct (standardize_images Toy.raw Toy.processed default_image_size
              (Toy.world0 Toy.raw_tree)) as [r w'] eqn:E.
  exists r, w'. split; [reflexivity|].
  destruct (standardize_images_stays_inside Toy.toy_rng Toy.toy_pil
              Toy.raw Toy.processed default_image_size _ _ _ E)
    as (_ & Hsrc & _ & Hg & _).
  split; [apply Hsrc; reflexivity | exact Hg].
Defined.

Section StandardizeRaises.

Context {R : RandomState} {P : PIL}.

(** What [os.makedirs] raises, one of its [os.mkdir] has raised, on a
    path down to the one asked for; the world is left as it was when
    that [mkdir] failed, and no directory is at its path. *)
Lemma makedirs_rev_raise rname w e w' :
  makedirs_rev rname w = (Raise e, w') ->
  exists p, prefixb p (rev rname) = true /\
            os_mkdir p w' = (Raise e, w') /\
            is_dir (fs_get p (fs w')) = false.
Proof.
  revert w e w'. induction rname as [|x rhead IH]; intros w e w' H;
    [discriminate|].
  simpl makedirs_rev in H.
  apply bind_inv in H. destruct H as [(ex & w1 & H1 & H)|(e' & H1 & _)];
    [|inversion H1].
  inversion H1; subst w1. clear H1.
  apply bind_inv in H. destruct H as [([] & w1 & H1 & H)|(e' & H1 & He)].
  - apply try_except_inv in H.
    destruct H as [(a & _ & Ha)|(e0 & w2 & Hm & Hh)]; [discriminate|].
    apply bind_inv in Hh. destruct Hh as [(d & w3 & Hd & Hh)|(e' & Hd & _)];
      [|inversion Hd].
    unfold os_path_isdir in Hd. injection Hd as Ed Ew. subst w3.
    destruct d; [discriminate|].
    inversion Hh; subst e0 w'. clear Hh.
    pose proof Hm as Hm'. apply os_mkdir_inv in Hm'.
    destruct Hm' as [(Hr & _)|(e' & _ & ->)]; [discriminate|].
    exists (rev rhead ++ [x]). split; [apply prefixb_refl|].
    split; [exact Hm | exact Ed].
  - inversion He; subst e'. clear He.
    destruct (_ && _); [|discriminate].
    apply try_except_inv in H1.
    destruct H1 as [(a & _ & Ha)|(e0 & w2 & Hm & Hh)]; [discriminate|].
    assert (e0 = e /\ w2 = w') as [-> ->]
      by (destruct e0; inversion Hh; auto).
    destruct (IH _ _ _ Hm) as (p & Hp & Hu & Hnd).
    exists p. split; [|split; assumption].
    eapply prefixb_trans; [exact Hp | apply prefixb_app].
Qed.

(** Below what is not a directory there is no directory. *)
Lemma not_dir_below p q root :
  prefixb p q = true -> is_dir (fs_get p root) = false ->
  is_dir (fs_get q root) = false.
Proof.
  intros Hp Hd. apply prefixb_spec in Hp. destruct Hp as [l ->].
  destruct l as [|x l]; [rewrite app_nil_r; exact Hd|].
  rewrite fs_get_app, lookup_leaf; [reflexivity | | discriminate].
  apply not_dir_leaf. exact Hd.
Qed.

End StandardizeRaises.

(** X10: an exception escapes [standardize_images] only from the
    listing of the source root, and then nothing has changed, or from
    the [os.makedirs] of line 145 for a class directory of the source:
    the run ends in the world in which one of its [mkdir], for the
    target directory of the class or for a directory above it, fails
    with that exception; no directory is at the path of that [mkdir],
    so that the target directory of the class is not there; and the
    exception says that a file is at the path, that the parent of the
    path is a file, or that the parent is missing.  No failure on an
    image file escapes. *)
Theorem standardize_images_raises_only :
  forall (R : RandomState) (P : PIL) (source_dir target_dir : path)
         (size : nat * nat) (w w' : World) (e : exn),
    standardize_images source_dir target_dir size w = (Raise e, w') ->
    (os_listdir source_dir w = (Raise e, w) /\ w' = w) \/
    (exists class_name p,
        is_dir (fs_get (join source_dir class_name) (fs w')) = true /\
        prefixb p (join target_dir class_name) = true /\
        os_mkdir p w' = (Raise e, w') /\
        is_dir (fs_get p (fs w')) = false /\
        is_dir (fs_get (join target_dir class_name) (fs w')) = false /\
        ((e = FileExistsError p /\ is_file (fs_get p (fs w')) = true) \/
         (e = NotADirectoryError p /\
          is_file (fs_get (removelast p) (fs w')) = true) \/
         (e = FileNotFoundError p /\
          fs_get (removelast p) (fs w') = None))).
Proof.
  intros R P src tgt sz w w' e H. unfold standardize_images in H.
  apply bind_inv in H. destruct H as [(cs & w1 & H1 & H)|(e' & H1 & He)].
  - right. apply os_listdir_inv in H1. destruct H1 as [-> _].
    apply for_each_raise in H. destruct H as (c & u & _ & Hc).
    unfold standardize_class in Hc. cbv zeta in Hc.
    apply bind_inv in Hc. destruct Hc as [(d & u1 & Hi & Hc)|(e' & Hi & _)];
      [|inversion Hi].
    inversion Hi; subst u1 d. clear Hi.
    destruct (is_dir (fs_get (join src c) (fs u))) eqn:Ed; [|discriminate].
    simpl in Hc.
    apply bind_inv in Hc. destruct Hc as [([] & u1 & Hm & Hc)|(e' & Hm & He)].
    + exfalso.
      pose proof (effect_makedirs _ _ _ _ Hm) as [_ Hg].
      apply Hg in Ed.
      apply bind_inv in Hc. destruct Hc as [(imgs & u2 & Hl & Hc)|(e' & Hl & He)].
      * apply os_listdir_inv in Hl. destruct Hl as [-> _].
        destruct (for_each_total imgs
                    (standardize_image (join src c) (join tgt c) sz)
                    (standardize_image_total _ _ _) u1) as [u3 Hu3].
        rewrite Hu3 in Hc. discriminate.
      * apply os_listdir_inv in Hl. destruct Hl as [_ Hl]. congruence.
    + inversion He; subst e'.
      pose proof (effect_makedirs _ _ _ _ Hm) as [_ Hg].
      apply makedirs_rev_raise in Hm. rewrite rev_involutive in Hm.
      destruct Hm as (p & Hp & Hu & Hnd). exists c, p.
      split; [apply Hg; exact Ed|]. split; [exact Hp|].
      split; [exact Hu|]. split; [exact Hnd|].
      split; [eapply not_dir_below; eauto|].
      unfold os_mkdir in Hu.
      destruct (fs_get p (fs w')) as [[b|d]|] eqn:Ep.
      * inversion Hu. left. auto.
      * discriminate.
      * destruct (fs_get (removelast p) (fs w')) as [[b|d]|] eqn:Epar;
          inversion Hu; auto.
  - left. inversion He; subst e'.
    pose proof H1 as H1'. apply os_listdir_inv in H1'. destruct H1' as [-> _].
    auto.
Qed.

Lemma standardize_images_raises_only_witness :
  let w := Toy.world0 [("data"%string,
                        Dir [("raw"%string, Dir [("fox"%string, Dir [])]);
                             ("processed"%string, File [])])] in
  standardize_images (R := Toy.toy_rng) Toy.raw Toy.processed default_image_size w
  = (Raise (NotADirectoryError ["data"; "processed"; "fox"]%string), w) /\
  exists class_name p,
    is_dir (fs_get (join Toy.raw class_name) (fs w)) = true /\
    prefixb p (join Toy.processed class_name) = true /\
    NotADirectoryError ["data"; "processed"; "fox"]%string
    = NotADirectoryError p /\
    is_file (fs_get (removelast p) (fs w)) = true.
Proof.
  intros w.
  assert (E : standardize_images (R := Toy.toy_rng) Toy.raw Toy.processed
                default_image_size w
              = (Raise (NotADirectoryError ["data"; "processed"; "fox"]%string), w))
    by (vm_compute; reflexivity).
  split; [exact E|].
  destruct (standardize_images_raises_only Toy.toy_rng Toy.toy_pil _ _ _ _ _ _ E)
    as [[H _]|(c & p & Hc & Hp & _ & _ & _ & [[He _]|[[He Hf]|[He _]]])];
    [vm_compute in H; discriminate | discriminate | | discriminate].
  exists c, p. auto.
Defined.

(** ** Runs of [split_data]: where the files go *)

Section Placement.

Context {R : RandomState} {P : PIL} {L : RandomStateLaws R}.

(** A loop that returned satisfies what the iteration of [x]
    established and the later ones kept. *)
Lemma for_each_post_ok {A} (I Q : World -> Prop) (xs : list A)
    (body : A -> M unit) x :
  In x xs ->
  (forall y w w', In y xs -> I w -> body y w = (Ok tt, w') -> I w') ->
  (forall w w', I w -> body x w = (Ok tt, w') -> Q w') ->
  (forall y w w', In y xs -> I w -> Q w -> body y w = (Ok tt, w') -> Q w') ->
  forall w w', I w -> for_each xs body w = (Ok tt, w') -> Q w'.
Proof.
  intros Hin HI Hx HQ.
  assert (Hkeep : forall ys, incl ys xs -> forall w w',
             I w -> Q w -> for_each ys body w = (Ok tt, w') -> Q w').
  { induction ys as [|y ys IH]; intros Hsub w w' HIw HQw H.
    - inversion H; subst. exact HQw.
    - rewrite for_each_cons in H. apply bind_inv in H.
      destruct H as [([] & w1 & H1 & H2)|(e & _ & He)]; [|discriminate].
      assert (Hy : In y xs) by (apply Hsub; left; reflexivity).
      eapply IH; [| | |exact H2].
      + intros z Hz. apply Hsub. right. exact Hz.
      + eapply HI; eauto.
      + eapply HQ; eauto. }
  assert (Hgen : forall ys, incl ys xs -> In x ys -> forall w w',
             I w -> for_each ys body w = (Ok tt, w') -> Q w').
  { induction ys as [|y ys IH]; intros Hsub Hxy w w' HIw H; [destruct Hxy|].
    rewrite for_each_cons in H. apply bind_inv in H.
    destruct H as [([] & w1 & H1 & H2)|(e & _ & He)]; [|discriminate].
    assert (Hy : In y xs) by (apply Hsub; left; reflexivity).
    assert (Hsub' : incl ys xs) by (intros z Hz; apply Hsub; right; exact Hz).
    destruct Hxy as [->|Hxy].
    - eapply Hkeep; [exact Hsub'| | |exact H2].
      + eapply HI; eauto.
      + eapply Hx; eauto.
    - eapply IH; [exact Hsub'|exact Hxy| |exact H2]. eapply HI; eauto. }
  intros w w' HIw H. eapply Hgen; eauto. apply incl_refl.
Qed.

Variables (src tr va te : path) (w0 : World).

Hypothesis Hs1 : apart src tr = true.
Hypothesis Hs2 : apart src va = true.
Hypothesis Hs3 : apart src te = true.
Hypothesis Htv : apart tr va = true.
Hypothesis Htt : apart tr te = true.
Hypothesis Hvt : apart va te = true.

Let target (d : path) : Prop := d = tr \/ d = va \/ d = te.

(** The source tree is as in the first world, and no directory stands
    where a copy goes. *)
Let S (u : World) : Prop :=
  (forall l, fs_get (src ++ l) (fs u) = fs_get (src ++ l) (fs w0)) /\
  (forall d y n, target d ->
                 is_dir (fs_get (join (join d y) n) (fs u)) = false).

(** The copies that are there have stayed. *)
Let kept (u u' : World) : Prop :=
  forall d c n b,
    target d ->
    fs_get (join (join src c) n) (fs w0) = Some (File b) ->
    fs_get (join (join d c) n) (fs u) = Some (File b) ->
    fs_get (join (join d c) n) (fs u') = Some (File b).

Lemma target_src d : target d -> apart src d = true.
Proof using Hs1 Hs2 Hs3. intros [->|[->| ->]]; assumption. Qed.

Lemma target_other d d' : target d -> target d' -> d = d' \/ apart d d' = true.
Proof using Htv Htt Hvt.
  intros [->|[->| ->]] [->|[->| ->]]; auto; right;
    try assumption; rewrite apart_sym; assumption.
Qed.

(** A slot of one root is not above the class directory of a root. *)
Lemma slot_not_above d d' c n y :
  target d -> target d' ->
  prefixb (join (join d' c) n) (join d y) = false.
Proof using Htv Htt Hvt.
  intros Hd Hd'. destruct (target_other d' d Hd' Hd) as [->|Ha].
  - apply prefixb_longer. rewrite !length_join. lia.
  - rewrite join_join. unfold join. apply apart_under. apply apart_app_l. exact Ha.
Qed.

Lemma src_not_above d l r : target d -> prefixb (src ++ l) (d ++ r) = false.
Proof using Hs1 Hs2 Hs3.
  intros Hd. apply apart_under. apply apart_app_l. apply target_src. exact Hd.
Qed.

Lemma kept_refl u : kept u u.
Proof. intros d c n b _ _ H. exact H. Qed.

Lemma kept_trans u1 u2 u3 : kept u1 u2 -> kept u2 u3 -> kept u1 u3.
Proof. intros H1 H2 d c n b Hd Hb H. eapply H2; eauto. Qed.

Lemma place_makedirs d y u r u' :
  target d -> S u -> os_makedirs (join d y) u = (r, u') ->
  S u' /\ kept u u'.
Proof using Hs1 Hs2 Hs3 Htv Htt Hvt.
  intros Hd [Hsrc Hslots] H. apply effect_makedirs in H. destruct H as [Hf _].
  assert (E : forall d' c n, target d' ->
                fs_get (join (join d' c) n) (fs u')
                = fs_get (join (join d' c) n) (fs u)).
  { intros d' c n Hd'. apply Hf. intros p <-. apply slot_not_above; assumption. }
  split; [split|].
  - intros l. rewrite <- Hsrc. apply Hf. intros p <-.
    unfold join. apply src_not_above. exact Hd.
  - intros d' c n Hd'. rewrite E by exact Hd'. apply Hslots. exact Hd'.
  - intros d' c n b Hd' _ Hq. rewrite E by exact Hd'. exact Hq.
Qed.

Lemma place_copy d y n' u r u' :
  target d -> S u ->
  shutil_copy (join (join src y) n') (join (join d y) n') u = (r, u') ->
  S u' /\ kept u u' /\
  (r = Ok tt ->
   exists b, fs_get (join (join src y) n') (fs w0) = Some (File b) /\
             fs_get (join (join d y) n') (fs u') = Some (File b)).
Proof using Hs1 Hs2 Hs3 Htv Htt Hvt.
  intros Hd HS H. pose proof HS as [Hsrc Hslots].
  apply shutil_copy_inv in H; [|apply Hslots; exact Hd].
  destruct H as [(-> & b' & Hb' & Hp & Hpar & ->)|(e & -> & ->)].
  2:{ split; [exact HS|]. split; [apply kept_refl | discriminate]. }
  assert (Hb0 : fs_get (join (join src y) n') (fs w0) = Some (File b')).
  { rewrite <- Hb'. rewrite join_join. symmetry. apply Hsrc. }
  assert (Hnd : is_dir (fs_get (join (join d y) n') (fs u)) = false)
    by (apply Hslots; exact Hd).
  assert (Hslot : forall d' c n, target d' ->
             (d' = d /\ c = y /\ n = n' /\
              fs_get (join (join d' c) n)
                (fs_set (join (join d y) n') (Some (File b')) (fs u))
              = Some (File b')) \/
             (fs_get (join (join d' c) n)
                (fs_set (join (join d y) n') (Some (File b')) (fs u))
              = fs_get (join (join d' c) n) (fs u))).
  { intros d' c n Hd'. destruct (target_other d' d Hd' Hd) as [->|Ha].
    - destruct (fs_set_file_slot (join (join d y) n') (join (join d c) n) b' (fs u))
        as [[E1 E2]|[E1 E2]]; auto.
      + rewrite !length_join. reflexivity.
      + left. apply join_inj in E1; [|rewrite !length_join; reflexivity].
        destruct E1 as [E1 ->]. apply join_inj in E1; [|reflexivity].
        destruct E1 as [_ ->]. auto.
    - right. apply fs_get_set_frame; auto.
      + rewrite !join_join. apply apart_under. apply apart_app_l. exact Ha.
      + apply not_dir_leaf. exact Hnd. }
  unfold S, kept. simpl fs. split; [split|split].
  - intros l. rewrite <- Hsrc. apply fs_get_set_frame; auto.
    + rewrite join_join. apply src_not_above. exact Hd.
    + apply not_dir_leaf. exact Hnd.
  - intros d' c n Hd'.
    destruct (Hslot d' c n Hd') as [(_ & _ & _ & E)|E]; rewrite E;
      [reflexivity | apply Hslots; exact Hd'].
  - intros d' c n b Hd' Hb Hq. simpl fs.
    destruct (Hslot d' c n Hd') as [(-> & -> & -> & E)|E]; rewrite E;
      [congruence | exact Hq].
  - intros _. exists b'. split; [exact Hb0|].
    destruct (Hslot d y n' Hd) as [(_ & _ & _ & E)|E]; [exact E|].
    apply fs_get_set_same; assumption.
Qed.

(** One copy loop. *)
Lemma place_loop d y imgs u r u' :
  target d -> S u ->
  copy_images (join src y) d y imgs u = (r, u') ->
  S u' /\ kept u u' /\
  (r = Ok tt ->
   forall n, In n imgs ->
     exists b, fs_get (join (join src y) n) (fs w0) = Some (File b) /\
               fs_get (join (join d y) n) (fs u') = Some (File b)).
Proof using Hs1 Hs2 Hs3 Htv Htt Hvt.
  intros Hd. revert u. unfold copy_images.
  induction imgs as [|n' imgs IH]; intros u HS H.
  - inversion H; subst. split; [exact HS|]. split; [apply kept_refl|].
    intros _ n [].
  - rewrite for_each_cons in H. apply bind_inv in H.
    destruct H as [([] & u2 & Hb & H)|(e & Hb & ->)].
    + apply bind_inv in Hb.
      destruct Hb as [([] & u1 & Hm & Hc)|(e & _ & He)]; [|discriminate].
      destruct (place_makedirs _ _ _ _ _ Hd HS Hm) as [HS1 Hk1].
      destruct (place_copy _ _ _ _ _ _ Hd HS1 Hc) as (HS2 & Hk2 & Hnew).
      destruct (IH _ HS2 H) as (HS' & Hk' & Hall).
      split; [exact HS'|]. split.
      { eapply kept_trans; [|exact Hk']. eapply kept_trans; eauto. }
      intros Hr n [<-|Hn].
      * destruct (Hnew eq_refl) as (b & Hb0 & Hq). exists b.
        split; [exact Hb0|]. eapply Hk'; eauto.
      * apply Hall; assumption.
    + apply bind_inv in Hb.
      destruct Hb as [([] & u1 & Hm & Hc)|(e' & Hm & _)].
      * destruct (place_makedirs _ _ _ _ _ Hd HS Hm) as [HS1 Hk1].
        destruct (place_copy _ _ _ _ _ _ Hd HS1 Hc) as (HS2 & Hk2 & _).
        split; [exact HS2|]. split; [eapply kept_trans; eauto | discriminate].
      * destruct (place_makedirs _ _ _ _ _ Hd HS Hm) as [HS1 Hk1].
        split; [exact HS1|]. split; [exact Hk1 | discriminate].
Qed.

Variables (trr vr : Float64.float).

(** One class. *)
Lemma place_class y u r u' :
  S u -> split_class src tr va te trr vr y u = (r, u') ->
  S u' /\ kept u u' /\
  (r = Ok tt ->
   forall n b, fs_get (join (join src y) n) (fs w0) = Some (File b) ->
     exists d, target d /\ fs_get (join (join d y) n) (fs u') = Some (File b)).
Proof using Hs1 Hs2 Hs3 Htv Htt Hvt L.
  intros HS H. unfold split_class in H. cbv zeta in H.
  apply bind_inv in H. destruct H as [(isd & u1 & Hi & H)|(e & Hi & _)];
    [|inversion Hi].
  inversion Hi; subst u1 isd. clear Hi.
  destruct (fs_get (join src y) (fs u)) as [[b0|es]|] eqn:Ey; simpl in H.
  - inversion H; subst. split; [exact HS|]. split; [apply kept_refl|].
    intros _ n b Hb. exfalso.
    unfold join at 1 in Hb. rewrite fs_get_app in Hb.
    unfold join in Ey. rewrite (proj1 HS) in Ey. unfold join in Hb.
    rewrite Ey in Hb. discriminate.
  - apply bind_inv in H. destruct H as [(imgs & u1 & Hl & H)|(e & Hl & _)].
    2:{ unfold os_listdir in Hl. rewrite Ey in Hl. discriminate. }
    unfold os_listdir in Hl. rewrite Ey in Hl. inversion Hl; subst u1 imgs.
    clear Hl.
    apply bind_inv in H.
    destruct H as [([[train val] test] & u1 & Hsp & H)|(e & Hsp & ->)].
    2:{ apply effect_split_images with (T := fun _ => False) in Hsp.
        assert (Efs : forall q, fs_get q (fs u') = fs_get q (fs u)).
        { intros q. apply (proj1 Hsp). intros p []. }
        split; [|split; [|discriminate]].
        - split.
          + intros l. rewrite Efs. apply HS.
          + intros d c n Hd. rewrite Efs. apply HS. exact Hd.
        - intros d c n b _ _ Hq. rewrite Efs. exact Hq. }
    pose proof (split_images_perm _ _ _ _ _ _ _ _ Hsp) as Hperm.
    apply effect_split_images with (T := fun _ => False) in Hsp.
    assert (Efs : forall q, fs_get q (fs u1) = fs_get q (fs u)).
    { intros q. apply (proj1 Hsp). intros p []. }
    assert (HS1 : S u1).
    { split.
      - intros l. rewrite Efs. apply HS.
      - intros d c n Hd. rewrite Efs. apply HS. exact Hd. }
    assert (Hk1 : kept u u1).
    { intros d c n b _ _ Hq. rewrite Efs. exact Hq. }
    simpl fst in H. simpl snd in H.
    assert (Hin : forall n b,
               fs_get (join (join src y) n) (fs w0) = Some (File b) ->
               In n train \/ In n val \/ In n test).
    { intros n b Hb.
      assert (Hn : In n (names es)).
      { rewrite join_join in Hb. rewrite <- (proj1 HS) in Hb.
        rewrite <- join_join in Hb.
        unfold join at 1 in Hb. rewrite fs_get_app, Ey in Hb. simpl in Hb.
        destruct (get_entry n es) eqn:E; [|discriminate].
        eapply get_entry_In; eauto. }
      apply (Permutation_in _ (Permutation_sym Hperm)) in Hn.
      apply in_app_or in Hn. destruct Hn as [Hn|Hn]; [auto|].
      apply in_app_or in Hn. tauto. }
    apply bind_inv in H. destruct H as [([] & u2 & H1 & H)|(e & H1 & ->)].
    2:{ destruct (place_loop tr y train u1 _ _ (or_introl eq_refl) HS1 H1)
          as (HS2 & Hk2 & _).
        split; [exact HS2|]. split; [eapply kept_trans; eauto | discriminate]. }
    destruct (place_loop tr y train u1 _ _ (or_introl eq_refl) HS1 H1)
      as (HS2 & Hk2 & Htr).
    apply bind_inv in H. destruct H as [([] & u3 & H2 & H)|(e & H2 & ->)].
    2:{ destruct (place_loop va y val u2 _ _ (or_intror (or_introl eq_refl)) HS2 H2)
          as (HS3 & Hk3 & _).
        split; [exact HS3|]. split; [|discriminate].
        eapply kept_trans; [exact Hk1|]. eapply kept_trans; eauto. }
    destruct (place_loop va y val u2 _ _ (or_intror (or_introl eq_refl)) HS2 H2)
      as (HS3 & Hk3 & Hva).
    destruct (place_loop te y test u3 _ _ (or_intror (or_intror eq_refl)) HS3 H)
      as (HS4 & Hk4 & Hte).
    split; [exact HS4|]. split.
    { eapply kept_trans; [exact Hk1|]. eapply kept_trans; [exact Hk2|].
      eapply kept_trans; eauto. }
    intros -> n b Hb.
    destruct (Hin n b Hb) as [Hn|[Hn|Hn]].
    + exists tr. split; [left; reflexivity|].
      destruct (Htr eq_refl n Hn) as (b' & Hb' & Hq).
      assert (b' = b) by congruence. subst b'.
      eapply Hk4; [left; reflexivity | exact Hb|].
      eapply Hk3; [left; reflexivity | exact Hb | exact Hq].
    + exists va. split; [right; left; reflexivity|].
      destruct (Hva eq_refl n Hn) as (b' & Hb' & Hq).
      assert (b' = b) by congruence. subst b'.
      eapply Hk4; [right; left; reflexivity | exact Hb | exact Hq].
    + exists te. split; [right; right; reflexivity|].
      destruct (Hte eq_refl n Hn) as (b' & Hb' & Hq).
      assert (b' = b) by congruence. subst b'. exact Hq.
  - inversion H; subst. split; [exact HS|]. split; [apply kept_refl|].
    intros _ n b Hb. exfalso.
    unfold join at 1 in Hb. rewrite fs_get_app in Hb.
    unfold join in Ey. rewrite (proj1 HS) in Ey. unfold join in Hb.
    rewrite Ey in Hb. discriminate.
Qed.

Hypothesis Hslots0 :
  forall d y n, target d -> is_dir (fs_get (join (join d y) n) (fs w0)) = false.

Lemma place_data w' c n b :
  split_data src tr va te trr vr w0 = (Ok tt, w') ->
  fs_get (join (join src c) n) (fs w0) = Some (File b) ->
  exists d, target d /\ fs_get (join (join d c) n) (fs w') = Some (File b).
Proof using Hs1 Hs2 Hs3 Htv Htt Hvt L Hslots0.
  intros H Hb. unfold split_data in H.
  apply bind_inv in H. destruct H as [(cs & w1 & H1 & H)|(e & _ & He)];
    [|discriminate].
  apply os_listdir_inv in H1. destruct H1 as (-> & es & Hes & ->).
  assert (Hin : In c (names es)).
  { unfold join at 1 in Hb. rewrite fs_get_app in Hb.
    unfold join in Hb. rewrite fs_get_app, Hes in Hb. simpl in Hb.
    destruct (get_entry c es) as [x|] eqn:E; [|discriminate].
    eapply get_entry_In; eauto. }
  assert (HS0 : S w0) by (split; auto).
  revert H.
  apply (for_each_post_ok S
           (fun u => exists d, target d /\
                       fs_get (join (join d c) n) (fs u) = Some (File b))
           (names es) _ c Hin); auto.
  - intros y u u' _ HS Hy. eapply place_class; eauto.
  - intros u u' HS Hy.
    destruct (place_class _ _ _ _ HS Hy) as (_ & _ & Hq). eapply Hq; eauto.
  - intros y u u' _ HS (d & Hd & Hq) Hy.
    destruct (place_class _ _ _ _ HS Hy) as (_ & Hk & _).
    exists d. split; [exact Hd|]. eapply Hk; eauto.
Qed.

End Placement.

(** X11: in a run of [split_data] that returns, with the four roots
    outside each other and no directory standing where a file is to be
    copied, every file of a class directory of the source has a copy
    with the same bytes, under the same class and name, in the train,
    the validation or the test root. *)
Theorem split_data_places_every_file :
  forall (R : RandomState) (P : PIL) (L : RandomStateLaws R)
         (source_dir train_dir val_dir test_dir : path)
         (train_ratio val_ratio : Float64.float) (w w' : World)
         (class_name img_name : string) (b : bytes),
    apart source_dir train_dir = true ->
    apart source_dir val_dir = true ->
    apart source_dir test_dir = true ->
    apart train_dir val_dir = true ->
    apart train_dir test_dir = true ->
    apart val_dir test_dir = true ->
    (forall d y n, In d [train_dir; val_dir; test_dir] ->
                   is_dir (fs_get (join (join d y) n) (fs w)) = false) ->
    split_data source_dir train_dir val_dir test_dir train_ratio val_ratio w
    = (Ok tt, w') ->
    fs_get (join (join source_dir class_name) img_name) (fs w) = Some (File b) ->
    exists d, In d [train_dir; val_dir; test_dir] /\
              fs_get (join (join d class_name) img_name) (fs w') = Some (File b).
Proof.
  intros R P L src tr va te trr vr w w' c n b Hs1 Hs2 Hs3 Htv Htt Hvt Hslots
         Hrun Hb.
  destruct (place_data src tr va te w Hs1 Hs2 Hs3 Htv Htt Hvt trr vr) with
    (w' := w') (c := c) (n := n) (b := b) as (d & Hd & Hq); auto.
  - intros d y m Hd. apply Hslots.
    destruct Hd as [->|[->| ->]]; simpl; auto.
  - exists d. split; [|exact Hq].
    destruct Hd as [->|[->| ->]]; simpl; auto.
Qed.

Lemma split_data_places_every_file_witness :
  exists w' : @World Toy.toy_rng,
    Toy.run_split (Toy.world0 (Toy.processed_tree [("fox"%string, 4%nat)]))
    = (Ok tt, w') /\
    exists d, In d [Toy.train; Toy.val; Toy.test] /\
              fs_get (join (join d "fox") "img00") (fs w')
              = Some (File Toy.img_224).
Proof.
  destruct (Toy.run_split (Toy.world0 (Toy.processed_tree [("fox"%string, 4%nat)])))
    as [r w'] eqn:E.
  assert (Er : r = Ok tt) by (vm_compute in E; congruence). subst r.
  exists w'. split; [reflexivity|].
  apply (split_data_places_every_file Toy.toy_rng Toy.toy_pil toy_rng_laws
           Toy.processed Toy.train Toy.val Toy.test
           default_train_ratio default_val_ratio
           (Toy.world0 (Toy.processed_tree [("fox"%string, 4%nat)])) w'
           "fox"%string "img00"%string Toy.img_224);
    try reflexivity; try exact E.
  intros d y n [<-|[<-|[<-|[]]]]; reflexivity.
Defined.

(** ** Runs of [split_data] that return *)

Section SplitReturns.

Context {R : RandomState} {P : PIL} {L : RandomStateLaws R}.

Variables (src tr va te : path) (w0 : World).

Hypothesis Hs1 : apart src tr = true.
Hypothesis Hs2 : apart src va = true.
Hypothesis Hs3 : apart src te = true.
Hypothesis Htv : apart tr va = true.
Hypothesis Htt : apart tr te = true.
Hypothesis Hvt : apart va te = true.

Let target (d : path) : Prop := d = tr \/ d = va \/ d = te.

Let S (u : World) : Prop :=
  (forall l, fs_get (src ++ l) (fs u) = fs_get (src ++ l) (fs w0)) /\
  (forall d y n, target d ->
                 is_dir (fs_get (join (join d y) n) (fs u)) = false).

(** The roots are there, and no file stands where a class directory
    goes. *)
Let roots (u : World) : Prop :=
  forall d, target d ->
            is_dir (fs_get d (fs u)) = true /\
            forall y, is_file (fs_get (join d y) (fs u)) = false.

Lemma dir_not_file o : is_dir o = true -> is_file o = false.
Proof. destruct o as [[b|es]|]; simpl; congruence. Qed.

Lemma copy_loop_returns d y imgs u :
  target d -> S u ->
  is_dir (fs_get d (fs u)) = true ->
  is_file (fs_get (join d y) (fs u)) = false ->
  (forall n, In n imgs ->
             is_file (fs_get (join (join src y) n) (fs w0)) = true) ->
  exists u', copy_images (join src y) d y imgs u = (Ok tt, u') /\
             is_file (fs_get (join d y) (fs u')) = false.
Proof using Hs1 Hs2 Hs3 Htv Htt Hvt.
  intros Hd. revert u. unfold copy_images.
  induction imgs as [|n imgs IH]; intros u HS Hroot Hcd Hfiles.
  - exists u. split; [reflexivity | exact Hcd].
  - destruct (makedirs_class_dir d y u Hroot Hcd) as [u1 Hm].
    destruct (place_makedirs src tr va te w0 Hs1 Hs2 Hs3 Htv Htt Hvt
                d y u _ u1 Hd HS Hm) as [HS1 _].
    pose proof (makedirs_is_dir _ _ _ Hm) as Hcd1.
    pose proof (effect_makedirs _ _ _ _ Hm) as [_ Hg1].
    (* the copy *)
    assert (Hfile : is_file (fs_get (join (join src y) n) (fs w0)) = true)
      by (apply Hfiles; left; reflexivity).
    destruct (fs_get (join (join src y) n) (fs w0)) as [[b|es]|] eqn:Eb;
      try discriminate.
    assert (Eb1 : fs_get (join (join src y) n) (fs u1) = Some (File b)).
    { rewrite <- Eb. rewrite join_join. apply HS1. }
    assert (Hnd : is_dir (fs_get (join (join d y) n) (fs u1)) = false)
      by (apply HS1; exact Hd).
    assert (Hc : shutil_copy (join (join src y) n) (join (join d y) n) u1
                 = (Ok tt, with_fs u1 (fs_set (join (join d y) n)
                                         (Some (File b)) (fs u1)))).
    { unfold shutil_copy.
      eapply bind_step; [unfold os_path_isdir; rewrite Hnd; reflexivity|].
      cbv iota zeta.
      assert (Hne : path_eqb (join (join src y) n) (join (join d y) n) = false).
      { unfold path_eqb. rewrite !join_join.
        rewrite (src_not_above src tr va te Hs1 Hs2 Hs3 d _ _ Hd).
        reflexivity. }
      rewrite Hne.
      eapply bind_step; [unfold read_file; rewrite Eb1; reflexivity|].
      apply write_file_ok.
      - unfold join. destruct (d ++ [y]); discriminate.
      - exact Hnd.
      - unfold join at 1. rewrite removelast_join. exact Hcd1. }
    destruct (place_copy src tr va te w0 Hs1 Hs2 Hs3 Htv Htt Hvt
                d y n u1 _ _ Hd HS1 Hc) as (HS2 & _ & _).
    pose proof (effect_copy _ _ _ _ _ Hc) as [_ Hg2].
    destruct (IH _ HS2) as (u' & Hrest & Hcd').
    + apply Hg2. apply Hg1. exact Hroot.
    + apply dir_not_file. apply Hg2. exact Hcd1.
    + intros m Hm'. apply Hfiles. right. exact Hm'.
    + exists u'. split; [|exact Hcd'].
      rewrite for_each_cons. eapply bind_step; [|exact Hrest].
      eapply bind_step; [exact Hm | exact Hc].
Qed.

(** A copy loop into one root leaves the class directories of another
    as they were. *)
Lemma copy_loop_other d d' y y' imgs u r u' :
  target d -> target d' -> d <> d' ->
  copy_images (join src y) d y imgs u = (r, u') ->
  fs_get (join d' y') (fs u') = fs_get (join d' y') (fs u) /\
  (is_dir (fs_get d' (fs u)) = true -> is_dir (fs_get d' (fs u')) = true).
Proof using Htv Htt Hvt.
  intros Hd Hd' Hne H. apply effect_copy_images in H. destruct H as [Hf Hg].
  split; [|apply Hg].
  destruct (target_other tr va te Htv Htt Hvt d' d Hd' Hd) as [E|Ha];
    [congruence|].
  apply Hf. intros p Hp. apply prefixb_spec in Hp. destruct Hp as [l ->].
  unfold join. rewrite <- app_assoc. apply apart_under. apply apart_app_l.
  exact Ha.
Qed.

(** The class directories of the source: at least four entries, files
    all of them. *)
Hypothesis Hclasses :
  forall y es, fs_get (join src y) (fs w0) = Some (Dir es) ->
               (4 <= List.length es)%nat /\
               (Z.of_nat (List.length es) < 2 ^ 52)%Z /\
               forall n, In n (names es) -> is_file (get_entry n es) = true.

Lemma split_class_returns y u :
  S u -> roots u ->
  exists u', split_class src tr va te default_train_ratio default_val_ratio y u
             = (Ok tt, u') /\
             forall d, target d -> is_file (fs_get (join d y) (fs u')) = false.
Proof using Hs1 Hs2 Hs3 Htv Htt Hvt L Hclasses.
  intros HS Hroots.
  destruct (fs_get (join src y) (fs u)) as [[b0|es]|] eqn:Ey.
  - exists u. split; [apply split_class_skip; rewrite Ey; reflexivity|].
    intros d Hd. apply Hroots. exact Hd.
  - assert (Ey0 : fs_get (join src y) (fs w0) = Some (Dir es)).
    { rewrite <- Ey. symmetry. apply HS. }
    destruct (Hclasses y es Ey0) as (Hlen & Hlt & Hfiles).
    destruct (split_images_returns (names es) u) as (train & val & test & u1 & Hsp).
    { unfold names. rewrite length_map. exact Hlen. }
    { unfold names. rewrite length_map. exact Hlt. }
    pose proof (split_images_perm _ _ _ _ _ _ _ _ Hsp) as Hperm.
    pose proof (effect_split_images (fun _ => False) _ _ _ _ _ _ Hsp) as [Hf1 _].
    assert (Efs : forall q, fs_get q (fs u1) = fs_get q (fs u)).
    { intros q. apply Hf1. intros p []. }
    assert (HS1 : S u1).
    { split.
      - intros l. rewrite Efs. apply HS.
      - intros d c n Hd. rewrite Efs. apply HS. exact Hd. }
    assert (Hsrcfile : forall n, In n (train ++ val ++ test) ->
               is_file (fs_get (join (join src y) n) (fs w0)) = true).
    { intros n Hn. apply (Permutation_in _ Hperm) in Hn.
      unfold join at 1. rewrite fs_get_app, Ey0. simpl.
      apply Hfiles. exact Hn. }
    assert (Htr : target tr) by (left; reflexivity).
    assert (Hva : target va) by (right; left; reflexivity).
    assert (Hte : target te) by (right; right; reflexivity).
    assert (Htv' : tr <> va).
    { intros E. rewrite E in Htv. unfold apart in Htv.
      rewrite prefixb_refl in Htv. discriminate. }
    assert (Htt' : tr <> te).
    { intros E. rewrite E in Htt. unfold apart in Htt.
      rewrite prefixb_refl in Htt. discriminate. }
    assert (Hvt' : va <> te).
    { intros E. rewrite E in Hvt. unfold apart in Hvt.
      rewrite prefixb_refl in Hvt. discriminate. }
    (* the train loop *)
    destruct (copy_loop_returns tr y train u1 Htr HS1) as (u2 & H1 & Hc1).
    { rewrite Efs. apply Hroots. exact Htr. }
    { rewrite Efs. apply Hroots. exact Htr. }
    { intros n Hn. apply Hsrcfile. apply in_or_app. left. exact Hn. }
    destruct (place_loop src tr va te w0 Hs1 Hs2 Hs3 Htv Htt Hvt
                tr y train u1 _ u2 Htr HS1 H1) as (HS2 & _ & _).
    destruct (copy_loop_other tr va y y train u1 _ u2 Htr Hva Htv' H1) as [Eva1 Hgva1].
    destruct (copy_loop_other tr te y y train u1 _ u2 Htr Hte Htt' H1) as [Ete1 Hgte1].
    (* the val loop *)
    destruct (copy_loop_returns va y val u2 Hva HS2) as (u3 & H2 & Hc2).
    { apply Hgva1. rewrite Efs. apply Hroots. exact Hva. }
    { rewrite Eva1, Efs. apply Hroots. exact Hva. }
    { intros n Hn. apply Hsrcfile. apply in_or_app. right.
      apply in_or_app. left. exact Hn. }
    destruct (place_loop src tr va te w0 Hs1 Hs2 Hs3 Htv Htt Hvt
                va y val u2 _ u3 Hva HS2 H2) as (HS3 & _ & _).
    destruct (copy_loop_other va tr y y val u2 _ u3 Hva Htr (not_eq_sym Htv') H2)
      as [Etr2 _].
    destruct (copy_loop_other va te y y val u2 _ u3 Hva Hte Hvt' H2) as [Ete2 Hgte2].
    (* the test loop *)
    destruct (copy_loop_returns te y test u3 Hte HS3) as (u4 & H3 & Hc3).
    { apply Hgte2. apply Hgte1. rewrite Efs. apply Hroots. exact Hte. }
    { rewrite Ete2, Ete1, Efs. apply Hroots. exact Hte. }
    { intros n Hn. apply Hsrcfile. apply in_or_app. right.
      apply in_or_app. right. exact Hn. }
    destruct (copy_loop_other te tr y y test u3 _ u4 Hte Htr (not_eq_sym Htt') H3)
      as [Etr3 _].
    destruct (copy_loop_other te va y y test u3 _ u4 Hte Hva (not_eq_sym Hvt') H3)
      as [Eva3 _].
    exists u4. split.
    + unfold split_class. cbv zeta.
      eapply bind_step; [unfold os_path_isdir; rewrite Ey; reflexivity|].
      simpl negb. cbv iota.
      eapply bind_step; [unfold os_listdir; rewrite Ey; reflexivity|].
      eapply bind_step; [exact Hsp|]. simpl fst. simpl snd.
      eapply bind_step; [exact H1|].
      eapply bind_step; [exact H2|]. exact H3.
    + intros d [->|[->| ->]].
      * rewrite Etr3, Etr2. exact Hc1.
      * rewrite Eva3. exact Hc2.
      * exact Hc3.
  - exists u. split; [apply split_class_skip; rewrite Ey; reflexivity|].
    intros d Hd. apply Hroots. exact Hd.
Qed.

Let todo (rest : list string) (u : World) : Prop := S u /\ roots u.

Lemma split_class_todo x rest u :
  todo (x :: rest) u ->
  exists u', split_class src tr va te default_train_ratio default_val_ratio x u
             = (Ok tt, u') /\ todo rest u'.
Proof using Hs1 Hs2 Hs3 Htv Htt Hvt L Hclasses.
  intros [HS Hroots].
  destruct (split_class_returns x u HS Hroots) as (u' & Hrun & Hx).
  exists u'. split; [exact Hrun|].
  destruct (place_class src tr va te w0 Hs1 Hs2 Hs3 Htv Htt Hvt _ _
              x u _ u' HS Hrun) as (HS' & _ & _).
  split; [exact HS'|].
  pose proof (effect_split_class _ _ _ _ _ _ _ _ _ _ Hrun) as [Hf Hg].
  intros d Hd. split; [apply Hg; apply Hroots; exact Hd|].
  intros y. destruct (string_dec x y) as [<-|Hne]; [apply Hx; exact Hd|].
  assert (E : fs_get (join d y) (fs u') = fs_get (join d y) (fs u)).
  { apply Hf. intros p [Hp|[Hp|Hp]].
    - destruct (target_other tr va te Htv Htt Hvt d tr Hd (or_introl eq_refl))
        as [->|Ha]; [eapply sibling_outside; eauto|].
      apply prefixb_spec in Hp. destruct Hp as [l ->].
      unfold join. rewrite <- app_assoc. apply apart_under. apply apart_app_l.
      exact Ha.
    - destruct (target_other tr va te Htv Htt Hvt d va Hd
                  (or_intror (or_introl eq_refl)))
        as [->|Ha]; [eapply sibling_outside; eauto|].
      apply prefixb_spec in Hp. destruct Hp as [l ->].
      unfold join. rewrite <- app_assoc. apply apart_under. apply apart_app_l.
      exact Ha.
    - destruct (target_other tr va te Htv Htt Hvt d te Hd
                  (or_intror (or_intror eq_refl)))
        as [->|Ha]; [eapply sibling_outside; eauto|].
      apply prefixb_spec in Hp. destruct Hp as [l ->].
      unfold join. rewrite <- app_assoc. apply apart_under. apply apart_app_l.
      exact Ha. }
  rewrite E. apply Hroots. exact Hd.
Qed.

Lemma split_data_returns_on :
  is_dir (fs_get src (fs w0)) = true ->
  (forall d y n, target d ->
                 is_dir (fs_get (join (join d y) n) (fs w0)) = false) ->
  (forall d, target d ->
             is_dir (fs_get d (fs w0)) = true /\
             forall y, is_file (fs_get (join d y) (fs w0)) = false) ->
  exists w', split_data src tr va te default_train_ratio default_val_ratio w0
             = (Ok tt, w').
Proof using Hs1 Hs2 Hs3 Htv Htt Hvt L Hclasses.
  intros Hsrc Hslots Hroots.
  destruct (fs_get src (fs w0)) as [[b|es]|] eqn:Es; try discriminate.
  destruct (for_each_returns todo
              (split_class src tr va te default_train_ratio default_val_ratio)
              split_class_todo (names es) w0) as (w' & Hr & _).
  { split; [split; auto | exact Hroots]. }
  exists w'. unfold split_data.
  eapply bind_step; [unfold os_listdir; rewrite Es; reflexivity|].
  exact Hr.
Qed.

End SplitReturns.

(** X12: with the default ratios, [split_data] returns when the four
    roots are outside each other, the source root is a directory whose
    class directories hold at least four entries each (fewer than
    [2^52]), all of them files, and every target root is a directory in
    which no file stands where a class directory is to be and no
    directory where a file is to be copied. *)
Theorem split_data_returns :
  forall (R : RandomState) (P : PIL) (L : RandomStateLaws R)
         (source_dir train_dir val_dir test_dir : path) (w : World),
    apart source_dir train_dir = true ->
    apart source_dir val_dir = true ->
    apart source_dir test_dir = true ->
    apart train_dir val_dir = true ->
    apart train_dir test_dir = true ->
    apart val_dir test_dir = true ->
    is_dir (fs_get source_dir (fs w)) = true ->
    (forall class_name es,
        fs_get (join source_dir class_name) (fs w) = Some (Dir es) ->
        (4 <= List.length es)%nat /\
        (Z.of_nat (List.length es) < 2 ^ 52)%Z /\
        forall n, In n (names es) -> is_file (get_entry n es) = true) ->
    (forall d, In d [train_dir; val_dir; test_dir] ->
               is_dir (fs_get d (fs w)) = true /\
               forall class_name,
                 is_file (fs_get (join d class_name) (fs w)) = false /\
                 forall n, is_dir (fs_get (join (join d class_name) n) (fs w))
                           = false) ->
    exists w',
      split_data source_dir train_dir val_dir test_dir
        default_train_ratio default_val_ratio w = (Ok tt, w').
Proof.
  intros R P L src tr va te w Hs1 Hs2 Hs3 Htv Htt Hvt Hsrc Hclasses Htargets.
  assert (Hin : forall d, d = tr \/ d = va \/ d = te -> In d [tr; va; te]).
  { intros d [->|[->| ->]]; simpl; auto. }
  apply (split_data_returns_on src tr va te w Hs1 Hs2 Hs3 Htv Htt Hvt Hclasses Hsrc).
  - intros d y n Hd. apply (Htargets d (Hin d Hd)).
  - intros d Hd. split; [apply (Htargets d (Hin d Hd))|].
    intros y. apply (Htargets d (Hin d Hd)).
Qed.

Lemma split_data_returns_witness :
  exists w' : @World Toy.toy_rng,
    Toy.run_split (Toy.world0 (Toy.processed_tree [("fox"%string, 5%nat)]))
    = (Ok tt, w').
Proof.
  apply (split_data_returns Toy.toy_rng Toy.toy_pil toy_rng_laws
           Toy.processed Toy.train Toy.val Toy.test
           (Toy.world0 (Toy.processed_tree [("fox"%string, 5%nat)])));
    try reflexivity.
  - intros y es Hy.
    assert (E : fs_get (join Toy.processed y)
                  (Toy.processed_tree [("fox"%string, 5%nat)])
                = if String.eqb y "fox" then Some (Toy.class_of 5) else None)
      by reflexivity.
    simpl fs in Hy. rewrite E in Hy.
    destruct (String.eqb y "fox"); [|discriminate].
    inversion Hy; subst es. split; [simpl; lia|].
    split; [vm_compute; reflexivity|].
    intros n Hn. simpl in Hn.
    repeat (destruct Hn as [<-|Hn]; [reflexivity|]). destruct Hn.
  - intros d [<-|[<-|[<-|[]]]]; (split; [reflexivity|]);
      intros y; (split; [reflexivity|]); intros n; reflexivity.
Defined.

(** ** The statements of the cells *)

Section Cells.

Context {R : RandomState} {P : PIL}.

Lemma print_run line (w : World) :
  print line w = (Ok tt, mkWorld (fs w) (stdout w ++ [line]) (np_random w)).
Proof. reflexivity. Qed.

(** A directory made where nothing was: it is there, it is empty, and
    what is not above it is as before. *)
Lemma fresh_dir_facts p root :
  p <> [] -> is_dir (fs_get (removelast p) root) = true ->
  fs_get p root = None ->
  fs_get p (fs_set p (Some (Dir [])) root) = Some (Dir []) /\
  (forall x, fs_get (join p x) (fs_set p (Some (Dir [])) root) = None) /\
  (forall q, prefixb q p = false ->
             fs_get q (fs_set p (Some (Dir [])) root) = fs_get q root).
Proof.
  intros Hp Hpar Hnone.
  assert (Hsame : fs_get p (fs_set p (Some (Dir [])) root) = Some (Dir []))
    by (apply fs_get_set_same; assumption).
  split; [exact Hsame|]. split.
  - intros x. unfold join. rewrite fs_get_app, Hsame. reflexivity.
  - intros q Hq. apply fs_get_set_frame; auto. rewrite Hnone. reflexivity.
Qed.

End Cells.

(** X13: the statements of lines 157-160, run where [data/raw] is a
    directory and [data/processed] does not exist, return: the opening
    line is printed first and the closing line last, with whatever the
    conversions print between them; [data/raw] is left as it was; and
    under [data/processed] there is a directory for every class
    directory of [data/raw]. *)
Theorem cell_standardize_first_run :
  forall (R : RandomState) (P : PIL) (w : World) (es : entries_t),
    fs_get data_raw (fs w) = Some (Dir es) ->
    fs_get data_processed (fs w) = None ->
    exists w' lines,
      cell_standardize w = (Ok tt, w') /\
      stdout w' = stdout w ++ ["Standardizing images..."%string] ++ lines
                    ++ ["Image standardization complete!"%string] /\
      fs_get data_raw (fs w') = Some (Dir es) /\
      forall class_name,
        is_dir (fs_get (join data_raw class_name) (fs w)) = true ->
        is_dir (fs_get (join data_processed class_name) (fs w')) = true.
Proof.
  intros R P w es Hraw Hnone.
  set (w1 := mkWorld (fs w) (stdout w ++ ["Standardizing images..."%string])
               (np_random w)).
  assert (Hdata : is_dir (fs_get ["data"%string] (fs w)) = true).
  { apply (fs_get_parent_dir data_raw (fs w) (Dir es)); [discriminate | exact Hraw]. }
  destruct (fresh_dir_facts data_processed (fs w)) as (Hdp & Hempty & Hout);
    [discriminate | exact Hdata | exact Hnone |].
  set (w2 := with_fs w1 (fs_set data_processed (Some (Dir [])) (fs w1))).
  assert (Hm : os_makedirs data_processed w1 = (Ok tt, w2)).
  { apply (makedirs_creates ["data"%string] "processed"%string w1);
      [exact Hdata | exact Hnone]. }
  assert (Hraw2 : fs_get data_raw (fs w2) = Some (Dir es)).
  { simpl. rewrite Hout by reflexivity. exact Hraw. }
  destruct (standardize_images_returns_on data_raw data_processed
              default_image_size es w2 Hraw2) as [w3 Hrun].
  { simpl. rewrite Hdp. reflexivity. }
  { intros c _. simpl. rewrite Hempty. reflexivity. }
  pose proof (quiet_standardize_images _ _ _ _ _ _ Hrun) as [_ [lines Hl]].
  pose proof (effect_standardize_images _ _ _ _ _ _ Hrun) as [Hf _].
  exists (mkWorld (fs w3) (stdout w3 ++ ["Image standardization complete!"%string])
            (np_random w3)), lines.
  split; [|split; [|split]].
  - unfold cell_standardize.
    eapply bind_step; [apply print_run|]. fold w1.
    eapply bind_step; [exact Hm|].
    eapply bind_step; [exact Hrun|]. apply print_run.
  - simpl. rewrite Hl. simpl. rewrite <- !app_assoc. reflexivity.
  - simpl. rewrite <- Hraw2.
    eapply frame_under_outside; [exact Hf | reflexivity].
  - intros c Hc. simpl.
    apply (standardize_images_creates data_raw data_processed default_image_size
             c w2 w3); [|exact Hrun].
    simpl. rewrite Hout; [exact Hc|].
    apply prefixb_longer. rewrite length_join. simpl. lia.
Qed.

Lemma cell_standardize_first_run_witness :
  exists (w' : @World Toy.toy_rng) lines,
    cell_standardize (Toy.world0 Toy.raw_tree) = (Ok tt, w') /\
    stdout w' = [] ++ ["Standardizing images..."%string] ++ lines
                  ++ ["Image standardization complete!"%string] /\
    is_dir (fs_get (join data_processed "fox") (fs w')) = true.
Proof.
  destruct (cell_standardize_first_run Toy.toy_rng Toy.toy_pil
              (Toy.world0 Toy.raw_tree) _ eq_refl eq_refl)
    as (w' & lines & Hrun & Hout & _ & Hdirs).
  exists w', lines. split; [exact Hrun|]. split; [exact Hout|].
  apply Hdirs. reflexivity.
Defined.

Section Silent.

Context {R : RandomState} {P : PIL}.

Lemma silent_bind {A B} (m : M A) (k : A -> M B) :
  silent m -> (forall a, silent (k a)) -> silent (bind m k).
Proof.
  intros Hm Hk w r w' H. apply bind_inv in H.
  destruct H as [(a & w1 & H1 & H2)|(e & H1 & _)].
  - rewrite (Hk _ _ _ _ H2). eapply Hm; eauto.
  - eapply Hm; eauto.
Qed.

Lemma silent_for_each {A} (xs : list A) body :
  (forall x, silent (body x)) -> silent (for_each xs body).
Proof.
  intros Hb w r w' H.
  apply (for_each_inv (fun u => stdout u = stdout w) xs body) in H; auto.
  intros x u r' u' _ Hu Hx. rewrite (Hb _ _ _ _ Hx). exact Hu.
Qed.

Lemma silent_quiet_fs {A} (m : M A) :
  (forall w r w', m w = (r, w') -> w' = w \/ exists es, w' = with_fs w es) ->
  silent m.
Proof.
  intros Hm w r w' H. destruct (Hm _ _ _ H) as [->|[es ->]]; reflexivity.
Qed.

Lemma silent_ret {A} (a : A) : silent (ret a).
Proof. intros w r w' H. inversion H. reflexivity. Qed.

Lemma silent_raise {A} e : silent (@raise R A e).
Proof. intros w r w' H. inversion H. reflexivity. Qed.

Lemma silent_try {A} (m : M A) (h : exn -> M A) :
  silent m -> (forall e, silent (h e)) -> silent (try_except m h).
Proof.
  intros Hm Hh w r w' H. apply try_except_inv in H.
  destruct H as [(a & H1 & _)|(e & w1 & H1 & H2)].
  - eapply Hm; eauto.
  - rewrite (Hh _ _ _ _ H2). eapply Hm; eauto.
Qed.

Lemma silent_isdir p : silent (os_path_isdir p).
Proof. intros w r w' H. inversion H. reflexivity. Qed.

Lemma silent_exists p : silent (os_path_exists p).
Proof. intros w r w' H. inversion H. reflexivity. Qed.

Lemma silent_listdir p : silent (os_listdir p).
Proof.
  intros w r w' H. apply os_listdir_inv in H. destruct H as [-> _]. reflexivity.
Qed.

Lemma silent_mkdir p : silent (os_mkdir p).
Proof.
  intros w r w' H. apply os_mkdir_inv in H.
  destruct H as [(_ & _ & _ & ->)|(e & _ & ->)]; reflexivity.
Qed.

Lemma silent_makedirs_rev rname : silent (makedirs_rev rname).
Proof.
  induction rname as [|x rhead IH]; [apply silent_ret|].
  simpl makedirs_rev.
  apply silent_bind; [apply silent_exists|]. intros ex.
  apply silent_bind.
  { destruct (_ && _); [|apply silent_ret].
    apply silent_try; [exact IH|]. intros e.
    destruct e; try apply silent_raise. apply silent_ret. }
  intros _. apply silent_try; [apply silent_mkdir|].
  intros e. apply silent_bind; [apply silent_isdir|].
  intros d. destruct d; [apply silent_ret | apply silent_raise].
Qed.

Lemma silent_copy src dst : silent (shutil_copy src dst).
Proof.
  unfold shutil_copy. apply silent_bind; [apply silent_isdir|]. intros d.
  destruct (path_eqb _ _); [apply silent_raise|].
  apply silent_bind.
  - intros w r w' H. apply read_file_inv in H. destruct H as [-> _]. reflexivity.
  - intros data w r w' H. apply write_file_inv in H.
    destruct H as [(_ & _ & _ & _ & ->)|(e & _ & ->)]; reflexivity.
Qed.

Lemma silent_copy_images cp d c imgs : silent (copy_images cp d c imgs).
Proof.
  unfold copy_images. apply silent_for_each. intros n.
  apply silent_bind; [apply silent_makedirs_rev|]. intros _. apply silent_copy.
Qed.

Lemma silent_lift {A} (r : result A) : silent (@lift R A r).
Proof. intros w r' w' H. inversion H. reflexivity. Qed.

Lemma silent_rng_permutation rs n : silent (rng_permutation rs n).
Proof.
  intros w r w' H. unfold rng_permutation in H. destruct rs as [seed|].
  - inversion H. reflexivity.
  - destruct (permutation (np_random w) n) as [p g].
    inversion H. reflexivity.
Qed.

Lemma silent_train_test_split {A} (arr : list A) ts trs rs :
  silent (train_test_split arr ts trs rs).
Proof.
  unfold train_test_split.
  apply silent_bind; [apply silent_lift|]. intros sizes.
  apply silent_bind; [apply silent_lift|]. intros sizes'.
  apply silent_bind; [apply silent_rng_permutation|]. intros perm.
  apply silent_bind; [apply silent_lift|]. intros tr.
  apply silent_bind; [apply silent_lift|]. intros te.
  apply silent_ret.
Qed.

Lemma silent_split_images images tr vr : silent (split_images images tr vr).
Proof.
  unfold split_images.
  apply silent_bind; [apply silent_train_test_split|]. intros tt'.
  apply silent_bind; [apply silent_train_test_split|]. intros vt.
  apply silent_ret.
Qed.

Lemma silent_split_class src tr va te trr vr c :
  silent (split_class src tr va te trr vr c).
Proof.
  unfold split_class. apply silent_bind; [apply silent_isdir|]. intros d.
  destruct (negb d); [apply silent_ret|].
  apply silent_bind; [apply silent_listdir|]. intros imgs.
  apply silent_bind; [apply silent_split_images|]. intros parts.
  apply silent_bind; [apply silent_copy_images|]. intros _.
  apply silent_bind; [apply silent_copy_images|]. intros _.
  apply silent_copy_images.
Qed.

Lemma silent_split_data src tr va te trr vr :
  silent (split_data src tr va te trr vr).
Proof.
  unfold split_data. apply silent_bind; [apply silent_listdir|]. intros cs.
  apply silent_for_each. intros c. apply silent_split_class.
Qed.

(** [os.makedirs] of a directory of [data] that is not there. *)
Lemma makedirs_fresh x (w : World) :
  is_dir (fs_get ["data"%string] (fs w)) = true ->
  fs_get ["data"%string; x] (fs w) = None ->
  exists w',
    os_makedirs ["data"%string; x] w = (Ok tt, w') /\
    stdout w' = stdout w /\
    fs_get ["data"%string; x] (fs w') = Some (Dir []) /\
    forall q, prefixb q ["data"%string; x] = false ->
              fs_get q (fs w') = fs_get q (fs w).
Proof.
  intros Hdata Hnone.
  destruct (fresh_dir_facts ["data"%string; x] (fs w)) as (Hd & _ & Hout);
    [discriminate | exact Hdata | exact Hnone |].
  eexists. split; [|split; [|split]].
  - apply (makedirs_creates ["data"%string] x w); assumption.
  - reflexivity.
  - exact Hd.
  - exact Hout.
Qed.

End Silent.

(** The statements of lines 229-234 where the three target roots are
    still to be made. *)
Lemma cell_split_fresh {R : RandomState} {P : PIL} {L : RandomStateLaws R}
    (w : World) (es : entries_t) :
    fs_get data_processed (fs w) = Some (Dir es) ->
    (forall class_name d,
        get_entry class_name es = Some (Dir d) ->
        (4 <= List.length d)%nat /\
        (Z.of_nat (List.length d) < 2 ^ 52)%Z /\
        forall n, In n (names d) -> is_file (get_entry n d) = true) ->
    fs_get data_train (fs w) = None ->
    fs_get data_val (fs w) = None ->
    fs_get data_test (fs w) = None ->
    exists w',
      cell_split w = (Ok tt, w') /\
      stdout w' = stdout w ++ ["Splitting data into train, val, test...";
                               "Data splitting complete!"]%string /\
      fs_get data_processed (fs w') = Some (Dir es) /\
      forall class_name img_name b,
        fs_get (join (join data_processed class_name) img_name) (fs w)
        = Some (File b) ->
        exists d, In d [data_train; data_val; data_test] /\
                  fs_get (join (join d class_name) img_name) (fs w')
                  = Some (File b).
Proof.
  intros Hdp Hclasses Htr Hva Hte.
  set (w1 := mkWorld (fs w)
               (stdout w ++ ["Splitting data into train, val, test..."%string])
               (np_random w)).
  assert (Hdata : is_dir (fs_get ["data"%string] (fs w1)) = true).
  { apply (fs_get_parent_dir data_processed (fs w) (Dir es));
      [discriminate | exact Hdp]. }
  destruct (makedirs_fresh "train" w1 Hdata Htr) as (w2 & Hm2 & Ho2 & Hd2 & Hf2).
  destruct (makedirs_fresh "val" w2) as (w3 & Hm3 & Ho3 & Hd3 & Hf3).
  { apply (proj2 (effect_makedirs _ _ _ _ Hm2)). exact Hdata. }
  { rewrite Hf2 by reflexivity. exact Hva. }
  destruct (makedirs_fresh "test" w3) as (w4 & Hm4 & Ho4 & Hd4 & Hf4).
  { apply (proj2 (effect_makedirs _ _ _ _ Hm3)).
    apply (proj2 (effect_makedirs _ _ _ _ Hm2)). exact Hdata. }
  { rewrite Hf3, Hf2 by reflexivity. exact Hte. }
  (* what the three calls have left *)
  assert (Esrc : forall l, fs_get (data_processed ++ l) (fs w4)
                           = fs_get (data_processed ++ l) (fs w)).
  { intros l. rewrite Hf4, Hf3, Hf2 by reflexivity. reflexivity. }
  assert (Etr : fs_get data_train (fs w4) = Some (Dir [])).
  { rewrite Hf4, Hf3 by reflexivity. exact Hd2. }
  assert (Eva : fs_get data_val (fs w4) = Some (Dir [])).
  { rewrite Hf4 by reflexivity. exact Hd3. }
  assert (Ete : fs_get data_test (fs w4) = Some (Dir [])) by exact Hd4.
  assert (Hempty : forall d l, d = data_train \/ d = data_val \/ d = data_test ->
                               l <> [] -> fs_get (d ++ l) (fs w4) = None).
  { intros d l Hd Hl. rewrite fs_get_app.
    destruct Hd as [->|[->| ->]]; rewrite ?Etr, ?Eva, ?Ete;
      destruct l; try congruence; simpl; apply lookup_None. }
  destruct (split_data_returns_on data_processed data_train data_val data_test w4)
    as [w5 Hrun]; try reflexivity.
  { intros y es' Hy. unfold join in Hy. rewrite Esrc in Hy.
    rewrite fs_get_app, Hdp in Hy. simpl in Hy.
    destruct (get_entry y es) as [[b|d]|] eqn:Ey; try discriminate.
    inversion Hy; subst es'. apply (Hclasses y d Ey). }
  { rewrite <- (app_nil_r data_processed), Esrc, app_nil_r, Hdp. reflexivity. }
  { intros d y n Hd. rewrite join_join. rewrite Hempty; auto. discriminate. }
  { intros d Hd. split.
    - destruct Hd as [->|[->| ->]]; rewrite ?Etr, ?Eva, ?Ete; reflexivity.
    - intros y. unfold join. rewrite Hempty; auto. discriminate. }
  pose proof (silent_split_data _ _ _ _ _ _ _ _ _ Hrun) as Hout.
  pose proof (effect_split_data _ _ _ _ _ _ _ _ _ Hrun) as [Hf5 _].
  exists (mkWorld (fs w5) (stdout w5 ++ ["Data splitting complete!"%string])
            (np_random w5)).
  split; [|split; [|split]].
  - unfold cell_split.
    eapply bind_step; [apply print_run|]. fold w1.
    eapply bind_step; [exact Hm2|].
    eapply bind_step; [exact Hm3|].
    eapply bind_step; [exact Hm4|].
    eapply bind_step; [exact Hrun|]. apply print_run.
  - simpl. rewrite Hout, Ho4, Ho3, Ho2. simpl.
    rewrite <- app_assoc. reflexivity.
  - simpl. rewrite <- Hdp.
    rewrite <- (app_nil_r data_processed), <- Esrc, app_nil_r.
    apply Hf5. intros p [Hp|[Hp|Hp]]; apply prefixb_spec in Hp;
      destruct Hp as [l ->]; reflexivity.
  - intros c n b Hb. simpl.
    destruct (place_data data_processed data_train data_val data_test w4
                eq_refl eq_refl eq_refl eq_refl eq_refl eq_refl
                default_train_ratio default_val_ratio)
      with (w' := w5) (c := c) (n := n) (b := b) as (d & Hd & Hq); auto.
    + intros d y m Hd. rewrite join_join. rewrite Hempty; auto. discriminate.
    + rewrite join_join, Esrc, <- join_join. exact Hb.
    + exists d. split; [|exact Hq].
      destruct Hd as [->|[->| ->]]; simpl; auto.
Qed.

(** X14: the statements of lines 229-234, run where [data/processed]
    is a directory whose class directories hold at least four entries
    each (fewer than [2^52]), all of them files, and none of
    [data/train], [data/val] and [data/test] exists, return: exactly
    the two lines of the cell are printed; [data/processed] is left as
    it was; and every file of a class directory has a copy with the
    same bytes, under the same class and name, in one of the three new
    directories. *)
Theorem cell_split_first_run :
  forall (R : RandomState) (P : PIL) (L : RandomStateLaws R)
         (w : World) (es : entries_t),
    fs_get data_processed (fs w) = Some (Dir es) ->
    (forall class_name d,
        get_entry class_name es = Some (Dir d) ->
        (4 <= List.length d)%nat /\
        (Z.of_nat (List.length d) < 2 ^ 52)%Z /\
        forall n, In n (names d) -> is_file (get_entry n d) = true) ->
    fs_get data_train (fs w) = None ->
    fs_get data_val (fs w) = None ->
    fs_get data_test (fs w) = None ->
    exists w',
      cell_split w = (Ok tt, w') /\
      stdout w' = stdout w ++ ["Splitting data into train, val, test...";
                               "Data splitting complete!"]%string /\
      fs_get data_processed (fs w') = Some (Dir es) /\
      forall class_name img_name b,
        fs_get (join (join data_processed class_name) img_name) (fs w)
        = Some (File b) ->
        exists d, In d [data_train; data_val; data_test] /\
                  fs_get (join (join d class_name) img_name) (fs w')
                  = Some (File b).
Proof.
  intros R P L w es Hdp Hclasses Htr Hva Hte.
  apply cell_split_fresh; assumption.
Qed.

Lemma cell_split_first_run_witness :
  let tree := [("data"%string,
                Dir [("processed"%string,
                      Dir [("fox"%string, Toy.class_of 4)])])] in
  exists w' : @World Toy.toy_rng,
    cell_split (Toy.world0 tree) = (Ok tt, w') /\
    stdout w' = ["Splitting data into train, val, test...";
                 "Data splitting complete!"]%string /\
    exists d, In d [data_train; data_val; data_test] /\
              fs_get (join (join d "fox") "img0") (fs w')
              = Some (File Toy.img_224).
Proof.
  intros tree.
  destruct (cell_split_first_run Toy.toy_rng Toy.toy_pil toy_rng_laws
              (Toy.world0 tree) [("fox"%string, Toy.class_of 4)])
    as (w' & Hrun & Hout & _ & Hall); try reflexivity.
  - intros c d Hc. simpl in Hc.
    destruct (String.eqb c "fox"); [|discriminate].
    inversion Hc; subst d. split; [simpl; lia|].
    split; [vm_compute; reflexivity|].
    intros n Hn. simpl in Hn.
    repeat (destruct Hn as [<-|Hn]; [reflexivity|]). destruct Hn.
  - exists w'. split; [exact Hrun|]. split; [exact Hout|].
    apply (Hall "fox"%string "img0"%string Toy.img_224). reflexivity.
Defined.

Section Notebook.
Context {R : RandomState} {P : PIL}.

Lemma effect_cell_clean : effect (under data_raw) cell_clean.
Proof.
  unfold cell_clean.
  apply effect_bind; [apply effect_print|]. intros _.
  apply effect_bind; [apply effect_clean_data|]. intros _.
  apply effect_print.
Qed.

Lemma effect_cell_standardize : effect derived cell_standardize.
Proof.
  unfold cell_standardize.
  apply effect_bind; [apply effect_print|]. intros _.
  apply effect_bind.
  { eapply effect_weaken; [|apply effect_makedirs].
    intros p <-. exists data_processed. split; [left|]; reflexivity. }
  intros _. apply effect_bind; [|intros _; apply effect_print].
  eapply effect_weaken; [|apply effect_standardize_images].
  intros p Hp. exists p. split; [left; exact Hp | apply prefixb_refl].
Qed.

Lemma effect_cell_split : effect derived cell_split.
Proof.
  unfold cell_split.
  apply effect_bind; [apply effect_print|]. intros _.
  apply effect_bind.
  { eapply effect_weaken; [|apply effect_makedirs].
    intros p <-. exists data_train. split; [right; left|]; reflexivity. }
  intros _. apply effect_bind.
  { eapply effect_weaken; [|apply effect_makedirs].
    intros p <-. exists data_val. split; [right; right; left|]; reflexivity. }
  intros _. apply effect_bind.
  { eapply effect_weaken; [|apply effect_makedirs].
    intros p <-. exists data_test. split; [right; right; right|]; reflexivity. }
  intros _. apply effect_bind; [|intros _; apply effect_print].
  eapply effect_weaken; [|apply effect_split_data].
  intros p Hp. exists p. split; [right; exact Hp | apply prefixb_refl].
Qed.

Lemma derived_in_data p : derived p -> under ["data"%string] p.
Proof.
  unfold derived, under.
  intros [H|[H|[H|H]]]; apply prefixb_spec in H; destruct H as [l ->];
    reflexivity.
Qed.

Lemma derived_not_raw p l : derived p -> prefixb (data_raw ++ l) p = false.
Proof.
  unfold derived, under.
  intros [H|[H|[H|H]]]; apply prefixb_spec in H; destruct H as [r ->];
    reflexivity.
Qed.

End Notebook.

(** X15: however the code cells, run from the top, end, nothing
    outside [data] has changed; and once the cleaning cell has
    returned, the later cells only read [data/raw]: what is under
    [data/raw] at the end is what the cleaning left there. *)
Theorem notebook_keeps_to_data :
  forall (R : RandomState) (P : PIL) (w w' : World) (r : result unit),
    notebook w = (r, w') ->
    (forall q, apart q ["data"%string] = true ->
               fs_get q (fs w') = fs_get q (fs w)) /\
    (forall w1, cell_clean w = (Ok tt, w1) ->
                forall rest, fs_get (data_raw ++ rest) (fs w')
                             = fs_get (data_raw ++ rest) (fs w1)).
Proof.
  intros R P w w' r H. split.
  - intros q Hq.
    assert (E : effect (under ["data"%string]) notebook).
    { unfold notebook. apply effect_bind.
      - eapply effect_weaken; [|apply effect_cell_clean].
        intros p Hp. exists p. split; [|apply prefixb_refl].
        unfold under in *. apply prefixb_spec in Hp. destruct Hp as [l ->].
        reflexivity.
      - intros _. apply effect_bind; [|intros _].
        + eapply effect_weaken; [|apply effect_cell_standardize].
          intros p Hp. exists p. split; [|apply prefixb_refl].
          apply derived_in_data. exact Hp.
        + eapply effect_weaken; [|apply effect_cell_split].
          intros p Hp. exists p. split; [|apply prefixb_refl].
          apply derived_in_data. exact Hp. }
    destruct (E _ _ _ H) as [Hf _].
    eapply frame_under_outside; eauto.
  - intros w1 Hc rest. unfold notebook in H.
    apply bind_inv in H. destruct H as [(a & u & H1 & H2)|(e & H1 & _)];
      [|congruence].
    rewrite Hc in H1. inversion H1; subst u.
    assert (E : effect derived (cell_standardize ;; cell_split)).
    { apply effect_bind; [apply effect_cell_standardize|].
      intros _. apply effect_cell_split. }
    destruct (E _ _ _ H2) as [Hf _]. apply Hf.
    intros p Hp. apply derived_not_raw. exact Hp.
Qed.

Lemma notebook_keeps_to_data_witness :
  let w := Toy.world0
             (Toy.raw_tree ++ [("notes.txt"%string, File [])]) in
  let w' := snd (@notebook Toy.toy_rng Toy.toy_pil w) in
  fs_get ["notes.txt"%string] (fs w') = Some (File []) /\
  fs_get (Toy.raw ++ ["fox"; "b.jpg"]%string) (fs w') = None /\
  fs_get (Toy.raw ++ ["fox"; "a.jpg"]%string) (fs w')
  = Some (File Toy.img_10x20).
Proof.
  intros w w'.
  destruct (notebook_keeps_to_data Toy.toy_rng Toy.toy_pil w w'
              (fst (notebook w)) (surjective_pairing _)) as [Hout Hraw].
  split; [rewrite Hout; reflexivity|].
  assert (Hc : exists w1, cell_clean w = (Ok tt, w1) /\
                 fs_get (Toy.raw ++ ["fox"; "b.jpg"]%string) (fs w1) = None /\
                 fs_get (Toy.raw ++ ["fox"; "a.jpg"]%string) (fs w1)
                 = Some (File Toy.img_10x20)).
  { eexists. split; [vm_compute; reflexivity|]. split; reflexivity. }
  destruct Hc as (w1 & Hc & Hb & Ha).
  change Toy.raw with data_raw.
  rewrite !(Hraw w1 Hc). split; assumption.
Defined.

(** ** [split_data] only adds *)

Section Keeps.

Context {R : RandomState} {P : PIL}.

Lemma keeps_bind {A B} (m : M A) (k : A -> M B) :
  keeps m -> (forall a, keeps (k a)) -> keeps (bind m k).
Proof.
  intros Hm Hk w r w' H q Hq. apply bind_inv in H.
  destruct H as [(a & w1 & H1 & H2)|(e & H1 & _)].
  - eapply (Hk a); [exact H2|]. eapply Hm; [exact H1 | exact Hq].
  - eapply Hm; [exact H1 | exact Hq].
Qed.

Lemma keeps_for_each {A} (xs : list A) body :
  (forall x, keeps (body x)) -> keeps (for_each xs body).
Proof.
  intros Hb w r w' H q Hq.
  apply (for_each_inv (fun u => fs_get q (fs u) <> None) xs body) in H; auto.
  intros x u r' u' _ Hu Hx. eapply (Hb x); [exact Hx | exact Hu].
Qed.

Lemma keeps_try {A} (m : M A) (h : exn -> M A) :
  keeps m -> (forall e, keeps (h e)) -> keeps (try_except m h).
Proof.
  intros Hm Hh w r w' H q Hq. apply try_except_inv in H.
  destruct H as [(a & H1 & _)|(e & w1 & H1 & H2)].
  - eapply Hm; [exact H1 | exact Hq].
  - eapply (Hh e); [exact H2|]. eapply Hm; [exact H1 | exact Hq].
Qed.

Lemma keeps_pure {A} (m : M A) : effect (fun _ => False) m -> keeps m.
Proof.
  intros Hm w r w' H q Hq. destruct (Hm _ _ _ H) as [Hf _].
  rewrite Hf; [exact Hq|]. intros p [].
Qed.

Lemma put_keeps r v n : r <> [] -> put r v (Some n) <> None.
Proof.
  intros Hr. destruct r as [|x r]; [congruence|].
  simpl. destruct n; discriminate.
Qed.

(** Putting something where nothing or a file was removes nothing. *)
Lemma fs_set_keeps p v root q :
  p <> [] -> v <> None -> leaf v = true -> leaf (fs_get p root) = true ->
  is_dir (fs_get (removelast p) root) = true ->
  fs_get q root <> None -> fs_get q (fs_set p v root) <> None.
Proof.
  intros Hp Hv Hl Ho Hpar Hq.
  destruct (prefixb q p) eqn:E.
  - apply prefixb_spec in E. destruct E as [r ->].
    destruct r as [|x r].
    + rewrite app_nil_r in *. rewrite fs_get_set_same; assumption.
    + rewrite fs_get_set_prefix by discriminate.
      destruct (fs_get q root) as [n|]; [|congruence].
      apply put_keeps. discriminate.
  - rewrite fs_get_set_frame; assumption.
Qed.

Lemma keeps_mkdir p : keeps (os_mkdir p).
Proof.
  intros w r w' H q Hq. apply os_mkdir_inv in H.
  destruct H as [(_ & Hn & Hpar & ->)|(e & _ & ->)]; [|exact Hq].
  simpl. apply fs_set_keeps; auto; try discriminate.
  - intros ->. simpl in Hn. discriminate.
  - rewrite Hn. reflexivity.
Qed.

Lemma keeps_makedirs_rev rname : keeps (makedirs_rev rname).
Proof.
  induction rname as [|x rhead IH].
  - apply keeps_pure, effect_ret.
  - cbn [makedirs_rev].
    apply keeps_bind; [apply keeps_pure, effect_exists|]. intros ex.
    apply keeps_bind.
    + destruct (_ && _).
      * apply keeps_try; [exact IH|].
        intros e. apply keeps_pure. destruct e; try apply effect_raise.
        apply effect_ret.
      * apply keeps_pure, effect_ret.
    + intros _. apply keeps_try; [apply keeps_mkdir|].
      intros e. apply keeps_bind; [apply keeps_pure, effect_isdir|].
      intros d. apply keeps_pure. destruct d; [apply effect_ret | apply effect_raise].
Qed.

Lemma keeps_write p b : keeps (write_file p b).
Proof.
  intros w r w' H q Hq. apply write_file_inv in H.
  destruct H as [(_ & Hp & Hd & Hpar & ->)|(e & _ & ->)]; [|exact Hq].
  simpl. apply fs_set_keeps; auto; try discriminate.
  apply not_dir_leaf. exact Hd.
Qed.

Lemma keeps_copy src dst : keeps (shutil_copy src dst).
Proof.
  unfold shutil_copy.
  apply keeps_bind; [apply keeps_pure, effect_isdir|]. intros d.
  destruct (path_eqb _ _); [apply keeps_pure, effect_raise|].
  apply keeps_bind; [apply keeps_pure, effect_read|]. intros data.
  apply keeps_write.
Qed.

Lemma keeps_copy_images cp d c imgs : keeps (copy_images cp d c imgs).
Proof.
  unfold copy_images. apply keeps_for_each. intros n.
  apply keeps_bind; [apply keeps_makedirs_rev|]. intros _. apply keeps_copy.
Qed.

Lemma keeps_split_class src tr va te trr vr c :
  keeps (split_class src tr va te trr vr c).
Proof.
  unfold split_class.
  apply keeps_bind; [apply keeps_pure, effect_isdir|]. intros d.
  destruct (negb d); [apply keeps_pure, effect_ret|].
  apply keeps_bind; [apply keeps_pure, effect_listdir|]. intros imgs.
  apply keeps_bind; [apply keeps_pure, effect_split_images|]. intros parts.
  apply keeps_bind; [apply keeps_copy_images|]. intros _.
  apply keeps_bind; [apply keeps_copy_images|]. intros _.
  apply keeps_copy_images.
Qed.

Lemma keeps_split_data src tr va te trr vr :
  keeps (split_data src tr va te trr vr).
Proof.
  unfold split_data.
  apply keeps_bind; [apply keeps_pure, effect_listdir|]. intros cs.
  apply keeps_for_each. intros c. apply keeps_split_class.
Qed.

End Keeps.

(** X16: however [split_data] ends, it has only added: every path
    that existed still exists, so that the files of an earlier split
    stay in the target roots; no directory has been replaced; a path
    outside the three target roots holds what it held; and nothing has
    been printed. *)
Theorem split_data_only_adds :
  forall (R : RandomState)
         (source_dir train_dir val_dir test_dir : path)
         (train_ratio val_ratio : Float64.float)
         (w w' : World) (r : result unit),
    split_data source_dir train_dir val_dir test_dir train_ratio val_ratio w
    = (r, w') ->
    (forall q, fs_get q (fs w) <> None -> fs_get q (fs w') <> None) /\
    (forall q, is_dir (fs_get q (fs w)) = true ->
               is_dir (fs_get q (fs w')) = true) /\
    (forall q, apart q train_dir = true -> apart q val_dir = true ->
               apart q test_dir = true ->
               fs_get q (fs w') = fs_get q (fs w)) /\
    stdout w' = stdout w.
Proof.
  intros R src tr va te trr vr w w' r H.
  pose proof (effect_split_data _ _ _ _ _ _ _ _ _ H) as [Hf Hg].
  split; [|split; [exact Hg|split]].
  - exact (keeps_split_data _ _ _ _ _ _ _ _ _ H).
  - intros q H1 H2 H3. apply Hf.
    intros p [Hp|[Hp|Hp]]; apply prefixb_spec in Hp; destruct Hp as [l ->];
      apply apart_under; assumption.
  - exact (silent_split_data _ _ _ _ _ _ _ _ _ H).
Qed.

Lemma split_data_only_adds_witness :
  let tree := [("data"%string,
                Dir [("processed"%string,
                      Dir [("fox"%string, Toy.class_of 4)]);
                     ("test"%string,
                      Dir [("fox"%string,
                            Dir [("old.jpg"%string, File Toy.img_224)])])])] in
  let w' := snd (@split_data Toy.toy_rng
                   data_processed data_train data_val data_test
                   default_train_ratio default_val_ratio (Toy.world0 tree)) in
  fs_get (join (join data_test "fox") "old.jpg") (fs w') <> None /\
  fs_get (join (join data_processed "fox") "img0") (fs w')
  = Some (File Toy.img_224) /\
  stdout w' = [].
Proof.
  intros tree w'.
  destruct (split_data_only_adds Toy.toy_rng
              data_processed data_train data_val data_test
              default_train_ratio default_val_ratio (Toy.world0 tree) w'
              (fst (split_data data_processed data_train data_val data_test
                      default_train_ratio default_val_ratio (Toy.world0 tree)))
              (surjective_pairing _)) as (Hk & _ & Hf & Hs).
  split; [|split].
  - apply Hk. discriminate.
  - rewrite Hf; reflexivity.
  - exact Hs.
Defined.

(** ** A source in which every file converts *)






Section Mirror.

Context {R : RandomState} {P : PIL}.

Variables (src tgt : path) (sz : nat * nat) (es : entries_t) (w0 : World).

Hypothesis Hapart : apart src tgt = true.
Hypothesis Hsrc : fs_get src (fs w0) = Some (Dir es).

(** Every entry of a class directory is a file that opens, resizes and
    encodes under its name. *)
Hypothesis Hconv :
  forall c d n,
    get_entry c es = Some (Dir d) -> In n (names d) ->
    exists b img img' fmt data,
      get_entry n d = Some (File b) /\
      image_open b = Ok img /\ image_resize img sz = Ok img' /\
      save_format n = Ok fmt /\ save_handler img' fmt = Ok data.

(** A target class directory: files only, under distinct names, which
    are names of the source class directory. *)
Let good (c : string) (d' : entries_t) : Prop :=
  exists d, get_entry c es = Some (Dir d) /\
            NoDup (names d') /\ incl (names d') (names d) /\
            forall n, In n (names d') -> is_file (get_entry n d') = true.

Let G (u : World) : Prop :=
  stdout u = stdout w0 /\
  (forall l, fs_get (src ++ l) (fs u) = fs_get (src ++ l) (fs w0)) /\
  (exists r, fs_get tgt (fs u) = Some (Dir r) /\ NoDup (names r)) /\
  forall c, match fs_get (join tgt c) (fs u) with
            | Some (File _) => False
            | Some (Dir d') => good c d'
            | None => True
            end.





Let todo (c : string) (d : entries_t) (rest : list string) (u : World) : Prop :=
  G u /\ is_dir (fs_get (join tgt c) (fs u)) = true /\ incl rest (names d).




End Mirror.

(** ** No file in two parts *)

Section Exclusive.

Context {R : RandomState} {P : PIL} {L : RandomStateLaws R}.

(** An invariant that knows what is left of the list. *)
Lemma for_each_rest {A} (I : list A -> World -> Prop) (body : A -> M unit) :
  (forall x rest u r u', I (x :: rest) u -> body x u = (r, u') -> I rest u') ->
  forall xs w r w',
    I xs w -> for_each xs body w = (r, w') -> exists rest, I rest w'.
Proof.
  intros Hb. induction xs as [|x xs IH]; intros w r w' HI H.
  - inversion H; subst. exists []. exact HI.
  - rewrite for_each_cons in H. apply bind_inv in H.
    destruct H as [(a & w1 & H1 & H2)|(e & H1 & _)].
    + eapply IH; [|exact H2]. eapply Hb; eauto.
    + exists xs. eapply Hb; eauto.
Qed.

Variables (src tr va te : path) (trr vr : Float64.float) (w0 : World).

Hypothesis Hs1 : apart src tr = true.
Hypothesis Hs2 : apart src va = true.
Hypothesis Hs3 : apart src te = true.
Hypothesis Htv : apart tr va = true.
Hypothesis Htt : apart tr te = true.
Hypothesis Hvt : apart va te = true.

Let slot (d : path) (c n : string) : path := join (join d c) n.

(** Nothing of the class in the three roots. *)
Let empty (u : World) (c : string) : Prop :=
  forall n, fs_get (slot tr c n) (fs u) = None /\
            fs_get (slot va c n) (fs u) = None /\
            fs_get (slot te c n) (fs u) = None.

(** No name of the class is in two of the three roots. *)
Let once (u : World) (c : string) : Prop :=
  forall n,
    (fs_get (slot tr c n) (fs u) <> None ->
     fs_get (slot va c n) (fs u) = None /\ fs_get (slot te c n) (fs u) = None) /\
    (fs_get (slot va c n) (fs u) <> None -> fs_get (slot te c n) (fs u) = None).

(** What is in a root under the class is a name of the root's list. *)
Let within (train val test : list string) (c : string) (u : World) : Prop :=
  forall n,
    (fs_get (slot tr c n) (fs u) <> None -> In n train) /\
    (fs_get (slot va c n) (fs u) <> None -> In n val) /\
    (fs_get (slot te c n) (fs u) <> None -> In n test).

Lemma empty_once u c : empty u c -> once u c.
Proof.
  intros H n. destruct (H n) as (H1 & H2 & H3). split; intros; auto.
Qed.

(** A copy loop touches the places of its names only. *)
Lemma copy_images_own cp d c imgs u r u' :
  copy_images cp d c imgs u = (r, u') ->
  forall n, ~ In n imgs -> fs_get (slot d c n) (fs u') = fs_get (slot d c n) (fs u).
Proof.
  intros H n Hn. unfold copy_images in H.
  apply (for_each_inv
           (fun u1 => fs_get (slot d c n) (fs u1) = fs_get (slot d c n) (fs u))
           imgs _) in H; [exact H | | reflexivity].
  intros m u1 r1 u2 Hm Hu1 Hbody. rewrite <- Hu1.
  apply bind_inv in Hbody.
  assert (Hmk : forall a b x, os_makedirs (join d c) a = (x, b) ->
                  fs_get (slot d c n) (fs b) = fs_get (slot d c n) (fs a)).
  { intros a b x Hx. apply effect_makedirs in Hx. destruct Hx as [Hf _].
    apply Hf. intros p <-. apply prefixb_longer.
    unfold slot. rewrite !length_join. lia. }
  destruct Hbody as [(a & u3 & H1 & H2)|(e & H1 & _)].
  - rewrite <- (Hmk _ _ _ H1).
    apply effect_copy in H2. destruct H2 as [Hf _].
    assert (Hne : m <> n) by (intros ->; contradiction).
    pose proof (frame_under_sibling (join d c) m n u3 u2 [] Hf Hne) as E.
    rewrite app_nil_r in E. exact E.
  - apply (Hmk _ _ _ H1).
Qed.

(** And nothing in another root. *)
Lemma copy_images_other cp d d' c c' imgs u r u' n :
  apart d' d = true ->
  copy_images cp d c imgs u = (r, u') ->
  fs_get (slot d' c' n) (fs u') = fs_get (slot d' c' n) (fs u).
Proof.
  intros Ha H. apply effect_copy_images in H. destruct H as [Hf _].
  apply Hf. intros p Hp. apply prefixb_spec in Hp. destruct Hp as [l ->].
  unfold slot. rewrite join_join. unfold join. rewrite <- app_assoc.
  apply apart_under. apply apart_app_l. exact Ha.
Qed.

Lemma within_train cp train val test c u r u' :
  within train val test c u ->
  copy_images cp tr c train u = (r, u') -> within train val test c u'.
Proof using Htv Htt.
  intros Hw H n. destruct (Hw n) as (H1 & H2 & H3).
  rewrite (copy_images_other cp tr va c c train u r u' n) by
    (rewrite apart_sym; exact Htv) || exact H.
  rewrite (copy_images_other cp tr te c c train u r u' n) by
    (rewrite apart_sym; exact Htt) || exact H.
  split; [|split; assumption].
  destruct (in_dec string_dec n train) as [Hin|Hin]; [auto|].
  rewrite (copy_images_own _ _ _ _ _ _ _ H n Hin). exact H1.
Qed.

Lemma within_val cp train val test c u r u' :
  within train val test c u ->
  copy_images cp va c val u = (r, u') -> within train val test c u'.
Proof using Htv Hvt.
  intros Hw H n. destruct (Hw n) as (H1 & H2 & H3).
  rewrite (copy_images_other cp va tr c c val u r u' n) by exact Htv || exact H.
  rewrite (copy_images_other cp va te c c val u r u' n) by
    (rewrite apart_sym; exact Hvt) || exact H.
  split; [assumption|]. split; [|assumption].
  destruct (in_dec string_dec n val) as [Hin|Hin]; [auto|].
  rewrite (copy_images_own _ _ _ _ _ _ _ H n Hin). exact H2.
Qed.

Lemma within_test cp train val test c u r u' :
  within train val test c u ->
  copy_images cp te c test u = (r, u') -> within train val test c u'.
Proof using Htt Hvt.
  intros Hw H n. destruct (Hw n) as (H1 & H2 & H3).
  rewrite (copy_images_other cp te tr c c test u r u' n) by exact Htt || exact H.
  rewrite (copy_images_other cp te va c c test u r u' n) by exact Hvt || exact H.
  split; [assumption|]. split; [assumption|].
  destruct (in_dec string_dec n test) as [Hin|Hin]; [auto|].
  rewrite (copy_images_own _ _ _ _ _ _ _ H n Hin). exact H3.
Qed.

Lemma within_once train val test c u :
  NoDup (train ++ val ++ test) -> within train val test c u -> once u c.
Proof.
  intros Hnd Hw n. destruct (Hw n) as (H1 & H2 & H3).
  assert (D1 : In n train -> ~ In n (val ++ test))
    by (apply NoDup_app_disjoint; exact Hnd).
  assert (D2 : In n val -> ~ In n test).
  { apply NoDup_app_disjoint. apply NoDup_app_remove_l in Hnd. exact Hnd. }
  split.
  - intros Ht. specialize (D1 (H1 Ht)). split.
    + destruct (fs_get (slot va c n) (fs u)) eqn:E; [|reflexivity].
      exfalso. apply D1, in_or_app. left. apply H2. discriminate.
    + destruct (fs_get (slot te c n) (fs u)) eqn:E; [|reflexivity].
      exfalso. apply D1, in_or_app. right. apply H3. discriminate.
  - intros Hv. specialize (D2 (H2 Hv)).
    destruct (fs_get (slot te c n) (fs u)) eqn:E; [|reflexivity].
    exfalso. apply D2, H3. discriminate.
Qed.

(** One class, started with nothing of it in the three roots. *)
Lemma split_class_once c u r u' :
  empty u c ->
  (forall d, fs_get (join src c) (fs u) = Some (Dir d) -> NoDup (names d)) ->
  split_class src tr va te trr vr c u = (r, u') -> once u' c.
Proof using Htv Htt Hvt L.
  intros He Hnd H. unfold split_class in H. cbv zeta in H.
  apply bind_inv in H. destruct H as [(d & u1 & H1 & H)|(e & H1 & _)];
    [|inversion H1].
  inversion H1; subst u1 d. clear H1.
  destruct (negb (is_dir (fs_get (join src c) (fs u)))).
  { inversion H; subst. apply empty_once. exact He. }
  apply bind_inv in H. destruct H as [(imgs & u1 & H1 & H)|(e & H1 & _)].
  2:{ apply os_listdir_inv in H1. destruct H1 as [-> _].
      apply empty_once. exact He. }
  apply os_listdir_inv in H1. destruct H1 as (-> & dd & Hdd & ->).
  apply bind_inv in H. destruct H as [([[train val] test] & u1 & H1 & H)|(e & H1 & _)].
  2:{ apply (effect_split_images (fun _ => False)) in H1. destruct H1 as [Hf _].
      apply empty_once. intros n. unfold slot.
      rewrite !Hf by (intros p []). apply He. }
  pose proof (split_images_perm _ _ _ _ _ _ _ _ H1) as Hperm.
  assert (Hnd3 : NoDup (train ++ val ++ test)).
  { eapply Permutation_NoDup; [apply Permutation_sym; exact Hperm|].
    apply Hnd. exact Hdd. }
  apply (effect_split_images (fun _ => False)) in H1. destruct H1 as [Hf _].
  assert (W1 : within train val test c u1).
  { intros n. unfold slot. rewrite !Hf by (intros p []).
    destruct (He n) as (E1 & E2 & E3). unfold slot in E1, E2, E3.
    rewrite E1, E2, E3. repeat split; congruence. }
  simpl fst in H. simpl snd in H.
  apply within_once with (train := train) (val := val) (test := test);
    [exact Hnd3|].
  apply bind_inv in H. destruct H as [(a & u2 & H2 & H)|(e & H2 & _)].
  2:{ eapply within_train; eauto. }
  pose proof (within_train _ _ _ _ _ _ _ _ W1 H2) as W2.
  apply bind_inv in H. destruct H as [(a' & u3 & H3 & H)|(e & H3 & _)].
  2:{ eapply within_val; eauto. }
  pose proof (within_val _ _ _ _ _ _ _ _ W2 H3) as W3.
  eapply within_test; eauto.
Qed.

(** The places of another class are not touched. *)
Lemma split_class_other c c' d n u r u' :
  d = tr \/ d = va \/ d = te -> c <> c' ->
  split_class src tr va te trr vr c u = (r, u') ->
  fs_get (slot d c' n) (fs u') = fs_get (slot d c' n) (fs u).
Proof using Htv Htt Hvt.
  intros Hd Hne H. apply effect_split_class in H. destruct H as [Hf _].
  apply Hf. intros p Hp.
  assert (Hsame : forall x, under (join x c) p -> prefixb (slot x c' n) p = false).
  { intros x Hx. destruct (prefixb (slot x c' n) p) eqn:E; [|reflexivity].
    assert (E' : prefixb (join x c') p = true).
    { eapply prefixb_trans; [|exact E]. unfold slot, join at 2. apply prefixb_app. }
    rewrite (sibling_outside x c c' p Hne Hx) in E'. discriminate. }
  assert (Hdiff : forall x y, apart x y = true -> under (join y c) p ->
                              prefixb (slot x c' n) p = false).
  { intros x y Ha Hy. apply prefixb_spec in Hy. destruct Hy as [l ->].
    unfold slot. rewrite join_join. unfold join. rewrite <- app_assoc.
    apply apart_under. apply apart_app_l. exact Ha. }
  assert (Htv' : apart va tr = true) by (rewrite apart_sym; exact Htv).
  assert (Htt' : apart te tr = true) by (rewrite apart_sym; exact Htt).
  assert (Hvt' : apart te va = true) by (rewrite apart_sym; exact Hvt).
  destruct Hd as [->|[->| ->]]; destruct Hp as [Hp|[Hp|Hp]]; eauto.
Qed.

Let I (rest : list string) (u : World) : Prop :=
  NoDup rest /\
  (forall c, In c rest -> empty u c) /\
  (forall c, once u c) /\
  (forall c, fs_get (join src c) (fs u) = fs_get (join src c) (fs w0)).

Hypothesis Hdirs :
  forall c d, fs_get (join src c) (fs w0) = Some (Dir d) -> NoDup (names d).

Lemma split_class_I c rest u r u' :
  I (c :: rest) u ->
  split_class src tr va te trr vr c u = (r, u') -> I rest u'.
Proof using Hs1 Hs2 Hs3 Htv Htt Hvt L Hdirs.
  intros (Hnd & Hemp & Honce & Hkeep) H.
  inversion Hnd as [|? ? Hnotin Hnd']; subst.
  assert (Hother : forall c' d n, d = tr \/ d = va \/ d = te -> c <> c' ->
             fs_get (slot d c' n) (fs u') = fs_get (slot d c' n) (fs u)).
  { intros c' d n Hd Hne. eapply split_class_other; eauto. }
  split; [exact Hnd'|]. split; [|split].
  - intros c' Hc' n.
    assert (Hne : c <> c') by (intros ->; contradiction).
    rewrite !Hother by auto. apply Hemp. right. exact Hc'.
  - intros c'. destruct (string_dec c c') as [<-|Hne].
    + eapply split_class_once; [| |exact H].
      * apply Hemp. left. reflexivity.
      * intros d Hd. rewrite Hkeep in Hd. eapply Hdirs; eauto.
    + intros n. rewrite !Hother by auto. apply Honce.
  - intros c'. rewrite <- Hkeep.
    apply effect_split_class in H. destruct H as [Hf _].
    apply Hf. intros p [Hp|[Hp|Hp]].
    + apply (apart_outside src tr c c' p Hs1 Hp).
    + apply (apart_outside src va c c' p Hs2 Hp).
    + apply (apart_outside src te c c' p Hs3 Hp).
Qed.

Lemma split_data_once r w' :
  (forall es, fs_get src (fs w0) = Some (Dir es) -> NoDup (names es)) ->
  (forall c, empty w0 c) ->
  split_data src tr va te trr vr w0 = (r, w') ->
  forall c, once w' c.
Proof using Hs1 Hs2 Hs3 Htv Htt Hvt L Hdirs.
  intros Hroot Hemp H. unfold split_data in H.
  apply bind_inv in H. destruct H as [(cs & u1 & H1 & H)|(e & H1 & _)].
  - apply os_listdir_inv in H1. destruct H1 as (-> & es & Hes & ->).
    apply (for_each_rest I _ split_class_I) in H.
    + destruct H as (rest & _ & _ & Honce & _). exact Honce.
    + split; [apply Hroot; exact Hes|]. split; [intros c _; apply Hemp|].
      split; [intros c; apply empty_once, Hemp | reflexivity].
  - apply os_listdir_inv in H1. destruct H1 as [-> _].
    intros c. apply empty_once, Hemp.
Qed.

End Exclusive.

(** X18: [split_data] puts no file into two parts.  With the four
    roots outside each other, distinct names in the source root and in
    each of its class directories, and nothing yet in the three target
    roots at a place [root/class/name], then however the run ends,
    no class and name is present in two of the train, the validation
    and the test root. *)
Theorem split_data_no_file_twice :
  forall (R : RandomState) (P : PIL) (L : RandomStateLaws R)
         (source_dir train_dir val_dir test_dir : path)
         (train_ratio val_ratio : Float64.float)
         (w w' : World) (r : result unit),
    apart source_dir train_dir = true ->
    apart source_dir val_dir = true ->
    apart source_dir test_dir = true ->
    apart train_dir val_dir = true ->
    apart train_dir test_dir = true ->
    apart val_dir test_dir = true ->
    (forall es, fs_get source_dir (fs w) = Some (Dir es) -> NoDup (names es)) ->
    (forall class_name d,
        fs_get (join source_dir class_name) (fs w) = Some (Dir d) ->
        NoDup (names d)) ->
    (forall d class_name n,
        In d [train_dir; val_dir; test_dir] ->
        fs_get (join (join d class_name) n) (fs w) = None) ->
    split_data source_dir train_dir val_dir test_dir train_ratio val_ratio w
    = (r, w') ->
    forall class_name img_name,
      let at_root d := fs_get (join (join d class_name) img_name) (fs w') in
      (at_root train_dir <> None ->
       at_root val_dir = None /\ at_root test_dir = None) /\
      (at_root val_dir <> None -> at_root test_dir = None).
Proof.
  intros R P L src tr va te trr vr w w' r Hs1 Hs2 Hs3 Htv Htt Hvt
         Hroot Hdirs Hempty H c n.
  apply (split_data_once src tr va te trr vr w Hs1 Hs2 Hs3 Htv Htt Hvt Hdirs
           r w' Hroot); [|exact H].
  intros c' n'. repeat split; apply Hempty; simpl; auto.
Qed.

Lemma split_data_no_file_twice_witness :
  let w := Toy.world0 (Toy.processed_tree [("fox"%string, 5%nat)]) in
  let w' := snd (Toy.run_split w) in
  fs_get (join (join Toy.train "fox") "img000") (fs w')
  = Some (File Toy.img_224) /\
  fs_get (join (join Toy.val "fox") "img000") (fs w') = None /\
  fs_get (join (join Toy.test "fox") "img000") (fs w') = None.
Proof.
  intros w w'.
  assert (Ht : fs_get (join (join Toy.train "fox") "img000") (fs w')
               = Some (File Toy.img_224)) by (vm_compute; reflexivity).
  split; [exact Ht|].
  refine (proj1 (split_data_no_file_twice Toy.toy_rng Toy.toy_pil toy_rng_laws
                   Toy.processed Toy.train Toy.val Toy.test
                   default_train_ratio default_val_ratio w w'
                   (fst (Toy.run_split w))
                   eq_refl eq_refl eq_refl eq_refl eq_refl eq_refl
                   _ _ _ (surjective_pairing _) "fox"%string "img000"%string) _).
  - intros es Hes. vm_compute in Hes. inversion Hes; subst es.
    repeat constructor; simpl; intuition discriminate.
  - intros c d Hd. unfold join in Hd. rewrite fs_get_app in Hd.
    simpl in Hd. destruct (String.eqb c "fox"); [|discriminate].
    inversion Hd; subst d. vm_compute.
    repeat constructor; simpl; intuition discriminate.
  - intros d c n [<-|[<-|[<-|[]]]]; rewrite join_join, fs_get_app;
      reflexivity.
  - rewrite Ht. discriminate.
Defined.

Section CellOnce.

Context {R : RandomState} {P : PIL} {L : RandomStateLaws R}.


End CellOnce.

(** ** The notebook on a data set of valid images *)


